(** * Star-schema materialisation of [star_schema.ipynb]

    A shallow embedding of the notebook's configuration cells, of the
    dimension materialisation loop, of the fact-table DDL and of the
    key-resolution loop, together with the part of Spark's DataFrame API and
    of PostgreSQL's DDL that those cells call.

    Conventions.
    - A Spark [DataFrame] is a schema (column names with their types) and a
      list of positional rows.  The order of the rows of a DataFrame is not
      observable in Spark; the model fixes one (the order in which the
      operators below emit rows).
    - Column values range over null, 32-bit integers, 64-bit integers and
      strings, the types the census columns used by the notebook have after
      schema inference.  Casts and comparisons follow Spark's default
      (non-ANSI) rules.
    - Column and table names are compared exactly.
    - An operation that raises in Spark (an [AnalysisException]) returns
      [None]; PostgreSQL errors are a value of type [pg_error]. *)

From Stdlib Require Import ZArith List String Ascii Bool Lia Arith.
From Stdlib Require Import Permutation Sorted.
Import ListNotations.

Local Open Scope string_scope.
Local Open Scope Z_scope.

(* ================================================================= *)
(** ** Values and types *)

Inductive dtype : Type :=
| IntegerType
| LongType
| StringType.

Inductive value : Type :=
| VNull
| VInt (z : Z)
| VLong (z : Z)
| VStr (s : string).

(** A row of a frame or of a table: one value per column. *)
Abbreviation Row := (list value) (only parsing).

Definition dtype_eq_dec (a b : dtype) : {a = b} + {a <> b}.
Proof. decide equality. Defined.

Definition value_eq_dec (a b : value) : {a = b} + {a <> b}.
Proof. decide equality; try apply Z.eq_dec; apply string_dec. Defined.

Definition row_eq_dec : forall a b : Row, {a = b} + {a <> b} :=
  list_eq_dec value_eq_dec.

Definition int32_min : Z := - 2 ^ 31.
Definition int32_max : Z := 2 ^ 31 - 1.
Definition int64_min : Z := - 2 ^ 63.
Definition int64_max : Z := 2 ^ 63 - 1.

Definition in_int32 (z : Z) : bool := (int32_min <=? z) && (z <=? int32_max).
Definition in_int64 (z : Z) : bool := (int64_min <=? z) && (z <=? int64_max).

(** Java's narrowing conversions: keep the low bits, read them signed. *)
Definition wrap32 (z : Z) : Z := (z + 2 ^ 31) mod 2 ^ 32 - 2 ^ 31.
Definition wrap64 (z : Z) : Z := (z + 2 ^ 63) mod 2 ^ 64 - 2 ^ 63.

(** A value inhabits a column type: null inhabits every type. *)
Definition has_type (t : dtype) (v : value) : bool :=
  match v, t with
  | VNull, _ => true
  | VInt z, IntegerType => in_int32 z
  | VLong z, LongType => in_int64 z
  | VStr _, StringType => true
  | _, _ => false
  end.

(* ----------------------------------------------------------------- *)
(** *** Decimal text of integers *)

Definition digit_char (d : Z) : ascii := ascii_of_nat (48 + Z.to_nat d).

Definition is_digit (c : ascii) : bool :=
  let n := nat_of_ascii c in (48 <=? n)%nat && (n <=? 57)%nat.

Definition digit_val (c : ascii) : Z := Z.of_nat (nat_of_ascii c - 48).

(** [Long.toString] on a non-negative number: most significant digit first,
    no leading zero. *)
Fixpoint show_digits (fuel : nat) (n : Z) (acc : string) : string :=
  let acc' := String (digit_char (n mod 10)) acc in
  match fuel with
  | O => acc'
  | S f => if n <? 10 then acc' else show_digits f (n / 10) acc'
  end.

Definition show_Z (z : Z) : string :=
  if z <? 0 then String "-" (show_digits 19 (- z) "")
  else show_digits 19 z "".

(** Spark's [UTF8String.toLong]/[toInt]: surrounding whitespace and control
    characters are trimmed, a sign is allowed, the integral digits are
    accumulated, and a decimal point may follow, after which only digits may
    come (the fraction is dropped).  A result outside the target range is a
    failure. *)
Definition is_blank (c : ascii) : bool :=
  let n := nat_of_ascii c in (n <=? 32)%nat || (n =? 127)%nat.

Fixpoint trim_left (s : string) : string :=
  match s with
  | String c s' => if is_blank c then trim_left s' else s
  | EmptyString => EmptyString
  end.

Fixpoint trim_right (s : string) : string :=
  match s with
  | EmptyString => EmptyString
  | String c s' =>
      match trim_right s' with
      | EmptyString => if is_blank c then EmptyString else String c EmptyString
      | t => String c t
      end
  end.

Definition trim (s : string) : string := trim_right (trim_left s).

Fixpoint string_all (p : ascii -> bool) (s : string) : bool :=
  match s with
  | EmptyString => true
  | String c s' => p c && string_all p s'
  end.

Definition all_digits (s : string) : bool := string_all is_digit s.

Fixpoint read_digits (s : string) (acc : Z) : option Z :=
  match s with
  | EmptyString => Some acc
  | String c s' =>
      if Ascii.eqb c "." then (if all_digits s' then Some acc else None)
      else if is_digit c then read_digits s' (10 * acc + digit_val c)
      else None
  end.

Definition parse_integral (s : string) : option Z :=
  match trim s with
  | EmptyString => None
  | String c rest =>
      if Ascii.eqb c "-" then
        match rest with
        | EmptyString => None
        | _ => option_map Z.opp (read_digits rest 0)
        end
      else if Ascii.eqb c "+" then
        match rest with
        | EmptyString => None
        | _ => read_digits rest 0
        end
      else read_digits (String c rest) 0
  end.

Definition parse_bounded (inside : Z -> bool) (s : string) : option Z :=
  match parse_integral s with
  | Some z => if inside z then Some z else None
  | None => None
  end.

(* ----------------------------------------------------------------- *)
(** *** Casts *)

(** [Column.cast]: a value that cannot be converted becomes null. *)
Definition cast (t : dtype) (v : value) : value :=
  match v with
  | VNull => VNull
  | VInt z =>
      match t with
      | IntegerType => VInt z
      | LongType => VLong z
      | StringType => VStr (show_Z z)
      end
  | VLong z =>
      match t with
      | IntegerType => VInt (wrap32 z)
      | LongType => VLong z
      | StringType => VStr (show_Z z)
      end
  | VStr s =>
      match t with
      | IntegerType =>
          match parse_bounded in_int32 s with
          | Some z => VInt z
          | None => VNull
          end
      | LongType =>
          match parse_bounded in_int64 s with
          | Some z => VLong z
          | None => VNull
          end
      | StringType => VStr s
      end
  end.

Definition type_of (v : value) : option dtype :=
  match v with
  | VNull => None
  | VInt _ => Some IntegerType
  | VLong _ => Some LongType
  | VStr _ => Some StringType
  end.

(** The type both sides of a comparison are brought to: a string is
    promoted to the other side's type, an integer to a long. *)
Definition common_type (a b : dtype) : dtype :=
  match a, b with
  | StringType, t | t, StringType => t
  | LongType, _ | _, LongType => LongType
  | IntegerType, IntegerType => IntegerType
  end.

Definition value_eqb (a b : value) : bool :=
  if value_eq_dec a b then true else false.

(** The equality of a join condition: null never matches, anything else is
    compared after the implicit cast to the common type. *)
Definition join_eq (l r : value) : bool :=
  match type_of l, type_of r with
  | Some tl, Some tr =>
      let t := common_type tl tr in
      match cast t l, cast t r with
      | VNull, _ | _, VNull => false
      | a, b => value_eqb a b
      end
  | _, _ => false
  end.

(* ================================================================= *)
(** ** Python dictionaries and strings *)

(** A [dict] keeps its keys in insertion order; assigning to a key that is
    present keeps the key's position and replaces its value. *)
Definition dict (V : Type) : Type := list (string * V).

Fixpoint dict_set {V : Type} (k : string) (v : V) (d : dict V) : dict V :=
  match d with
  | [] => [(k, v)]
  | (k', v') :: d' =>
      if String.eqb k' k then (k', v) :: d' else (k', v') :: dict_set k v d'
  end.

(** [d.update(items)], and a dict display or comprehension, which is an
    update of the empty dict. *)
Definition dict_update {V : Type} (d : dict V) (items : list (string * V))
  : dict V :=
  fold_left (fun acc kv => dict_set (fst kv) (snd kv) acc) items d.

Definition dict_of_items {V : Type} (items : list (string * V)) : dict V :=
  dict_update [] items.

Definition keys {V : Type} (d : dict V) : list string := map fst d.
Definition values {V : Type} (d : dict V) : list V := map snd d.

Fixpoint dict_get {V : Type} (k : string) (d : dict V) : option V :=
  match d with
  | [] => None
  | (k', v) :: d' => if String.eqb k' k then Some v else dict_get k d'
  end.

(** [str.upper] on ASCII text. *)
Definition upper_char (c : ascii) : ascii :=
  let n := nat_of_ascii c in
  if ((97 <=? n) && (n <=? 122))%nat then ascii_of_nat (n - 32) else c.

Fixpoint upper (s : string) : string :=
  match s with
  | EmptyString => EmptyString
  | String c s' => String (upper_char c) (upper s')
  end.

(** [sep.join(parts)]. *)
Fixpoint join_str (sep : string) (parts : list string) : string :=
  match parts with
  | [] => ""
  | [p] => p
  | p :: rest => p ++ sep ++ join_str sep rest
  end.

(* ================================================================= *)
(** ** DataFrames *)

Local Open Scope nat_scope.
Local Open Scope list_scope.

Record DataFrame : Type := mkDataFrame {
  schema : list (string * dtype);
  rows : list Row
}.

Definition columns (df : DataFrame) : list string := map fst (schema df).
Definition count (df : DataFrame) : nat := List.length (rows df).

Definition mem (x : string) (l : list string) : bool :=
  existsb (String.eqb x) l.

Definition nat_mem (i : nat) (l : list nat) : bool := existsb (Nat.eqb i) l.

Fixpoint traverse {A B : Type} (f : A -> option B) (l : list A)
  : option (list B) :=
  match l with
  | [] => Some []
  | a :: l' =>
      match f a, traverse f l' with
      | Some b, Some bs => Some (b :: bs)
      | _, _ => None
      end
  end.

Definition pick {A : Type} (d : A) (idxs : list nat) (l : list A) : list A :=
  map (fun i => nth i l d) idxs.

Definition no_field : string * dtype := ("", StringType).

(** Position of the first column called [name]. *)
Fixpoint find_index (name : string) (cols : list string) : option nat :=
  match cols with
  | [] => None
  | c :: cs =>
      if String.eqb c name then Some 0 else option_map S (find_index name cs)
  end.

(** A column reference by name ([F.col(name)], [select(name)]): the name must
    denote exactly one column, otherwise the analysis fails (unresolved or
    ambiguous reference). *)
Definition resolve_column (name : string) (cols : list string) : option nat :=
  match find_index name cols with
  | Some i => if mem name (skipn (S i) cols) then None else Some i
  | None => None
  end.

(** [df.select] on a list of names. *)
Definition select (names : list string) (df : DataFrame) : option DataFrame :=
  match traverse (fun n => resolve_column n (columns df)) names with
  | Some idxs =>
      Some {| schema := pick no_field idxs (schema df);
              rows := map (pick VNull idxs) (rows df) |}
  | None => None
  end.

(** The type names accepted by [Column.cast] that the model covers. *)
Definition parse_data_type (name : string) : option dtype :=
  if String.eqb name "integer" then Some IntegerType
  else if String.eqb name "int" then Some IntegerType
  else if String.eqb name "long" then Some LongType
  else if String.eqb name "bigint" then Some LongType
  else if String.eqb name "string" then Some StringType
  else None.

(** [df.select([F.col(f).cast(t).alias(f) for (f, t) in fields])]. *)
Definition select_cast (fields : list (string * string)) (df : DataFrame)
  : option DataFrame :=
  match traverse (fun f => resolve_column (fst f) (columns df)) fields,
        traverse (fun f => parse_data_type (snd f)) fields with
  | Some idxs, Some types =>
      Some {| schema := combine (map fst fields) types;
              rows := map (fun r => map (fun it => cast (snd it) (nth (fst it) r VNull))
                                        (combine idxs types))
                          (rows df) |}
  | _, _ => None
  end.

(** [df.distinct()]: rows are compared field by field, null equal to null. *)
Definition distinct (df : DataFrame) : DataFrame :=
  {| schema := schema df; rows := nodup row_eq_dec (rows df) |}.

(** [df.withColumn(name, col)] where [col] evaluates to [vals], one value
    per row: every existing column called [name] is replaced, and when there
    is none the column is appended. *)
Definition with_column (name : string) (t : dtype) (vals : list value)
  (df : DataFrame) : DataFrame :=
  if mem name (columns df) then
    {| schema := map (fun c => if String.eqb (fst c) name then (name, t) else c)
                     (schema df);
       rows := map (fun rv =>
                      map (fun cx => if String.eqb (fst (fst cx)) name
                                     then snd rv else snd cx)
                          (combine (schema df) (fst rv)))
                   (combine (rows df) vals) |}
  else
    {| schema := schema df ++ [(name, t)];
       rows := map (fun rv => fst rv ++ [snd rv]) (combine (rows df) vals) |}.

(** [df.withColumnRenamed(existing, new)]: a no-op when [existing] is not a
    column. *)
Definition with_column_renamed (existing new : string) (df : DataFrame)
  : DataFrame :=
  {| schema := map (fun c => if String.eqb (fst c) existing
                             then (new, snd c) else c) (schema df);
     rows := rows df |}.

(** Positions of [0 .. n-1] that are not in [idxs]. *)
Definition others (idxs : list nat) (n : nat) : list nat :=
  filter (fun i => negb (nat_mem i idxs)) (seq 0 n).

Fixpoint keys_match (lk rk : list nat) (a b : Row) : bool :=
  match lk, rk with
  | i :: lk', j :: rk' =>
      join_eq (nth i a VNull) (nth j b VNull) && keys_match lk' rk' a b
  | _, _ => true
  end.

(** [left.join(right, on=names, how="left")], a USING join: each name is
    looked up on either side (first column of that name); the output has the
    key columns of the left side, then the remaining columns of the left
    side, then the remaining columns of the right side.  A left row with no
    partner is kept once, padded with nulls; a left row with several
    partners is emitted once per partner.  PySpark inspects [on[0]], so an
    empty list of names raises. *)
Definition left_join (left right : DataFrame) (on : list string)
  : option DataFrame :=
  match on with
  | [] => None
  | _ :: _ =>
      match traverse (fun k => find_index k (columns left)) on,
            traverse (fun k => find_index k (columns right)) on with
      | Some lk, Some rk =>
          let lrest := others lk (List.length (schema left)) in
          let rrest := others rk (List.length (schema right)) in
          Some {| schema := pick no_field lk (schema left)
                            ++ pick no_field lrest (schema left)
                            ++ pick no_field rrest (schema right);
                  rows :=
                    flat_map
                      (fun a =>
                         match filter (keys_match lk rk a) (rows right) with
                         | [] => [pick VNull lk a ++ pick VNull lrest a
                                  ++ map (fun _ => VNull) rrest]
                         | partners =>
                             map (fun b => pick VNull lk a ++ pick VNull lrest a
                                           ++ pick VNull rrest b) partners
                         end)
                      (rows left) |}
      | _, _ => None
      end
  end.

(** [df.drop] on a list of names: every column whose name is listed goes; names that
    are not columns are ignored. *)
Definition drop (names : list string) (df : DataFrame) : DataFrame :=
  let keep :=
    filter (fun i => negb (mem (nth i (columns df) "") names))
           (seq 0 (List.length (schema df))) in
  {| schema := pick no_field keep (schema df);
     rows := map (pick VNull keep) (rows df) |}.

(** A frame is well formed when every row has one value per column, each
    value of the column's type. *)
Fixpoint row_typed (sch : list (string * dtype)) (r : Row) : bool :=
  match sch, r with
  | [], [] => true
  | c :: sch', v :: r' => has_type (snd c) v && row_typed sch' r'
  | _, _ => false
  end.

Definition well_formed (df : DataFrame) : bool :=
  forallb (row_typed (schema df)) (rows df).

(* ----------------------------------------------------------------- *)
(** *** [monotonically_increasing_id] *)

(** [spark.sql.shuffle.partitions]: the number of partitions [distinct]
    shuffles its rows into. *)
Definition SHUFFLE_PARTITIONS : nat := 4.

(** The generated id holds the partition index in its upper 31 bits and the
    position of the row within its partition in the lower 33 bits, as a
    64-bit integer.  [hash] stands for the partitioner of the shuffle;
    [next p] is the number of rows already numbered in partition [p]. *)
Fixpoint monotonically_increasing_id (hash : Row -> nat) (next : nat -> Z)
  (rs : list Row) : list Z :=
  match rs with
  | [] => []
  | r :: rs' =>
      let p := hash r mod SHUFFLE_PARTITIONS in
      wrap64 (Z.shiftl (Z.of_nat p) 33 + next p)%Z
      :: monotonically_increasing_id hash
           (fun q => if Nat.eqb q p then (next q + 1)%Z else next q) rs'
  end.

(* ================================================================= *)
(** ** The PostgreSQL store *)

Record foreign_key : Type := mkForeignKey {
  fk_name : string;
  fk_column : string;
  fk_ref_table : string;
  fk_ref_column : string
}.

(** A table: columns, rows, the primary-key column if one was declared, the
    foreign keys, and for a table with a [SERIAL] column that column's name
    and the next value of its sequence. *)
Record pg_table : Type := mkTable {
  tb_schema : list (string * dtype);
  tb_rows : list Row;
  tb_primary_key : option string;
  tb_foreign_keys : list foreign_key;
  tb_serial : option (string * Z)
}.

Definition database : Type := dict pg_table.

Inductive sql_type : Type := SERIAL | INTEGER | BIGINT | TEXT.

Record column_def : Type := mkColumn {
  cd_name : string;
  cd_type : sql_type;
  cd_primary_key : bool
}.

Inductive statement : Type :=
| CreateTableIfNotExists (table : string) (cols : list column_def)
| AlterTableAddPrimaryKey (table column : string)
| AlterTableAddForeignKeys (table : string) (fks : list foreign_key).

(** The errors of the store, with the object each message names. *)
Inductive pg_error : Type :=
| SyntaxError
| InFailedSqlTransaction
| UndefinedTable (relation : string)
| UndefinedColumn (column : string)
| DuplicateColumn (column : string)
| DuplicateObject (constraint relation : string)
| InvalidTableDefinition (relation : string)
| InvalidForeignKey (referenced : string)
| UniqueViolation (relation : string)
| NotNullViolation (column relation : string)
| ForeignKeyViolation (relation constraint : string).

Definition data_type_of_sql (t : sql_type) : dtype :=
  match t with
  | SERIAL | INTEGER => IntegerType
  | BIGINT => LongType
  | TEXT => StringType
  end.

Definition table_columns (t : pg_table) : list string := map fst (tb_schema t).

(** The values stored in column [c] of [t]. *)
Definition column_values (c : string) (t : pg_table) : list value :=
  match find_index c (table_columns t) with
  | Some i => map (fun r => nth i r VNull) (tb_rows t)
  | None => []
  end.

Fixpoint first_duplicate (names : list string) : option string :=
  match names with
  | [] => None
  | n :: rest => if mem n rest then Some n else first_duplicate rest
  end.

Definition value_mem (v : value) (l : list value) : bool :=
  existsb (value_eqb v) l.

Fixpoint values_distinct (l : list value) : bool :=
  match l with
  | [] => true
  | v :: rest => negb (value_mem v rest) && values_distinct rest
  end.

Definition create_table (cols : list column_def) : pg_table :=
  {| tb_schema := map (fun c => (cd_name c, data_type_of_sql (cd_type c))) cols;
     tb_rows := [];
     tb_primary_key :=
       option_map cd_name (find cd_primary_key cols);
     tb_foreign_keys := [];
     tb_serial :=
       option_map (fun c => (cd_name c, 1%Z))
         (find (fun c => match cd_type c with SERIAL => true | _ => false end)
               cols) |}.

(** One [ADD CONSTRAINT name FOREIGN KEY (column) REFERENCES ref (refcol)]
    clause applied to table [name], whose current state is [t]. *)
Definition add_foreign_key (db : database) (name : string) (t : pg_table)
  (fk : foreign_key) : pg_error + pg_table :=
  if mem (fk_name fk) (map fk_name (tb_foreign_keys t)) then
    inl (DuplicateObject (fk_name fk) name)
  else
    match dict_get (fk_ref_table fk) db with
    | None => inl (UndefinedTable (fk_ref_table fk))
    | Some ref =>
        if negb (mem (fk_column fk) (table_columns t)) then
          inl (UndefinedColumn (fk_column fk))
        else if negb (mem (fk_ref_column fk) (table_columns ref)) then
          inl (UndefinedColumn (fk_ref_column fk))
        else
          match tb_primary_key ref with
          | Some pk =>
              if negb (String.eqb pk (fk_ref_column fk)) then
                inl (InvalidForeignKey (fk_ref_table fk))
              else if forallb
                        (fun v => match v with
                                  | VNull => true
                                  | _ => existsb (join_eq v)
                                           (column_values (fk_ref_column fk) ref)
                                  end)
                        (column_values (fk_column fk) t) then
                inr {| tb_schema := tb_schema t;
                       tb_rows := tb_rows t;
                       tb_primary_key := tb_primary_key t;
                       tb_foreign_keys := tb_foreign_keys t ++ [fk];
                       tb_serial := tb_serial t |}
              else inl (ForeignKeyViolation name (fk_name fk))
          | None => inl (InvalidForeignKey (fk_ref_table fk))
          end
    end.

Fixpoint add_foreign_keys (db : database) (name : string) (t : pg_table)
  (fks : list foreign_key) : pg_error + pg_table :=
  match fks with
  | [] => inr t
  | fk :: rest =>
      match add_foreign_key db name t fk with
      | inl e => inl e
      | inr t' => add_foreign_keys db name t' rest
      end
  end.

Definition exec_statement (db : database) (st : statement)
  : pg_error + database :=
  match st with
  | CreateTableIfNotExists name cols =>
      match dict_get name db with
      | Some _ => inr db
      | None =>
          match first_duplicate (map cd_name cols) with
          | Some c => inl (DuplicateColumn c)
          | None => inr (dict_set name (create_table cols) db)
          end
      end
  | AlterTableAddPrimaryKey name col =>
      match dict_get name db with
      | None => inl (UndefinedTable name)
      | Some t =>
          match tb_primary_key t with
          | Some _ => inl (InvalidTableDefinition name)
          | None =>
              if negb (mem col (table_columns t)) then inl (UndefinedColumn col)
              else if value_mem VNull (column_values col t) then
                inl (NotNullViolation col name)
              else if negb (values_distinct (column_values col t)) then
                inl (UniqueViolation name)
              else
                inr (dict_set name
                       {| tb_schema := tb_schema t;
                          tb_rows := tb_rows t;
                          tb_primary_key := Some col;
                          tb_foreign_keys := tb_foreign_keys t;
                          tb_serial := tb_serial t |} db)
          end
      end
  | AlterTableAddForeignKeys name fks =>
      match dict_get name db with
      | None => inl (UndefinedTable name)
      | Some t =>
          match add_foreign_keys db name t fks with
          | inl e => inl e
          | inr t' => inr (dict_set name t' db)
          end
      end
  end.

Fixpoint exec_script (db : database) (script : list statement)
  : pg_error + database :=
  match script with
  | [] => inr db
  | st :: rest =>
      match exec_statement db st with
      | inl e => inl e
      | inr db' => exec_script db' rest
      end
  end.

(** A script is parsed as a whole before any of it runs; an [ALTER TABLE]
    with no action does not parse. *)
Definition parses (script : list statement) : bool :=
  forallb (fun st => match st with
                     | AlterTableAddForeignKeys _ [] => false
                     | _ => true
                     end) script.

(** A psycopg2 connection: what is committed in the store, and the state of
    the transaction the connection has open, if any. *)
Inductive transaction : Type :=
| Idle
| Active (work : database)
| Failed.

Record connection : Type := mkConnection {
  store : database;
  txn : transaction
}.

(** [cursor.execute(script)]: the first statement after a commit or rollback
    opens a transaction; an error leaves the transaction failed and is
    raised. *)
Definition execute (conn : connection) (script : list statement)
  : connection * option pg_error :=
  match txn conn with
  | Failed => (conn, Some InFailedSqlTransaction)
  | current =>
      let start := match current with Active w => w | _ => store conn end in
      if negb (parses script) then
        ({| store := store conn; txn := Failed |}, Some SyntaxError)
      else
        match exec_script start script with
        | inr db' => ({| store := store conn; txn := Active db' |}, None)
        | inl e => ({| store := store conn; txn := Failed |}, Some e)
        end
  end.

Definition commit (conn : connection) : connection :=
  match txn conn with
  | Active w => {| store := w; txn := Idle |}
  | _ => {| store := store conn; txn := Idle |}
  end.

Definition rollback (conn : connection) : connection :=
  {| store := store conn; txn := Idle |}.

(* ----------------------------------------------------------------- *)
(** *** Spark's JDBC source and sink *)

(** [spark.read.jdbc(table=name)]. *)
Definition read_jdbc (db : database) (name : string) : option DataFrame :=
  match dict_get name db with
  | Some t => Some {| schema := tb_schema t; rows := tb_rows t |}
  | None => None
  end.

Definition referenced (name : string) (db : database) : bool :=
  existsb (fun nt => existsb (fun fk => String.eqb (fk_ref_table fk) name)
                             (tb_foreign_keys (snd nt))) db.

(** [df.write.jdbc(table=name, mode="overwrite")]: the table is dropped and
    created again from the frame's schema, without constraints.  Dropping a
    table that a foreign key references fails, and so does creating a table
    with two columns of one name. *)
Definition write_jdbc_overwrite (db : database) (name : string)
  (df : DataFrame) : option database :=
  match first_duplicate (columns df) with
  | Some _ => None
  | None =>
      if referenced name db then None
      else Some (dict_set name
                   {| tb_schema := schema df;
                      tb_rows := rows df;
                      tb_primary_key := None;
                      tb_foreign_keys := [];
                      tb_serial := None |} db)
  end.

(** Storing a value in a column: integers are converted between widths when
    they fit; no other conversion is implicit. *)
Definition assign (t : dtype) (v : value) : option value :=
  match v, t with
  | VNull, _ => Some VNull
  | VInt z, IntegerType => Some (VInt z)
  | VInt z, LongType => Some (VLong z)
  | VLong z, LongType => Some (VLong z)
  | VLong z, IntegerType => if in_int32 z then Some (VInt z) else None
  | VStr s, StringType => Some (VStr s)
  | _, _ => None
  end.

(** The row stored for a frame row: each column of the table takes the
    frame's value of the same name, the serial column the next value of the
    sequence, any other column null. *)
Definition insert_row (t : pg_table) (cols : list string) (serial : Z)
  (r : Row) : option Row :=
  traverse
    (fun c =>
       match find_index (fst c) cols with
       | Some i => assign (snd c) (nth i r VNull)
       | None =>
           match tb_serial t with
           | Some (s, _) => if String.eqb s (fst c) then Some (VInt serial)
                            else Some VNull
           | None => Some VNull
           end
       end)
    (tb_schema t).

Fixpoint insert_rows (t : pg_table) (cols : list string) (serial : Z)
  (rs : list Row) : option (list Row) :=
  match rs with
  | [] => Some []
  | r :: rest =>
      match insert_row t cols serial r, insert_rows t cols (serial + 1)%Z rest with
      | Some r', Some rest' => Some (r' :: rest')
      | _, _ => None
      end
  end.

Definition foreign_key_holds (db : database) (t : pg_table) (r : Row)
  (fk : foreign_key) : bool :=
  match find_index (fk_column fk) (table_columns t),
        dict_get (fk_ref_table fk) db with
  | Some i, Some ref =>
      match nth i r VNull with
      | VNull => true
      | v => existsb (join_eq v) (column_values (fk_ref_column fk) ref)
      end
  | _, _ => false
  end.

(** [df.write.jdbc(table=name, mode="append")] into an existing table: the
    frame's columns are matched to the table's by name; every inserted row
    must satisfy the table's foreign keys. *)
Definition write_jdbc_append (db : database) (name : string) (df : DataFrame)
  : option database :=
  match dict_get name db with
  | None => write_jdbc_overwrite db name df
  | Some t =>
      if forallb (fun c => mem c (table_columns t)) (columns df) then
        let first := match tb_serial t with Some (_, n) => n | None => 0%Z end in
        match insert_rows t (columns df) first (rows df) with
        | Some new_rows =>
            if forallb (fun r => forallb (foreign_key_holds db t r)
                                         (tb_foreign_keys t)) new_rows then
              Some (dict_set name
                      {| tb_schema := tb_schema t;
                         tb_rows := tb_rows t ++ new_rows;
                         tb_primary_key := tb_primary_key t;
                         tb_foreign_keys := tb_foreign_keys t;
                         tb_serial :=
                           option_map
                             (fun s => (fst s, (snd s + Z.of_nat (List.length new_rows))%Z))
                             (tb_serial t) |} db)
            else None
        | None => None
        end
      else None
  end.

(* ================================================================= *)
(** ** The notebook *)

(** *** Dimension configuration *)

(** An entry [{"field": f, "type": t}] of a table's ["fields"] list. *)
Record field_config : Type := mkField {
  field : string;
  type : string
}.

(** [{"fields": [...]}]. *)
Record table_config : Type := mkTableConfig {
  fields : list field_config
}.

Definition INTEGER_DIMENSIONS : list string :=
  [ "TP_DEPENDENCIA";
    "TP_LOCALIZACAO";
    "IN_AGUA_POTAVEL";
    "IN_ENERGIA_INEXISTENTE";
    "IN_ESGOTO_INEXISTENTE";
    "IN_BANHEIRO";
    "IN_BIBLIOTECA";
    "IN_REFEITORIO";
    "IN_COMPUTADOR";
    "IN_INTERNET";
    "IN_EQUIP_NENHUM" ]%string.

(** The hand-written part of [DIMENSION_TABLES_CONFIG]. *)
Definition HAND_WRITTEN_DIMENSIONS : list (string * table_config) :=
  [ ("DIM_LOCAL",
     {| fields :=
          [ {| field := "NO_UF"; type := "string" |};
            {| field := "SG_UF"; type := "string" |};
            {| field := "CO_UF"; type := "string" |};
            {| field := "NO_MUNICIPIO"; type := "string" |};
            {| field := "CO_MUNICIPIO"; type := "string" |} ] |}) ]%string.

(** The comprehension passed to [update]: one single-field dimension per
    flag column. *)
Definition integer_dimension (dimension : string) : string * table_config :=
  ("DIM_" ++ upper dimension,
   {| fields := [ {| field := dimension; type := "integer" |} ] |})%string.

(** The display of the hand-written specs followed by
    [DIMENSION_TABLES_CONFIG.update({... for dimension in flags})].  Neither
    step can raise. *)
Definition build_dimension_config (hand_written : list (string * table_config))
  (flags : list string) : dict table_config :=
  dict_update (dict_of_items hand_written)
              (dict_of_items (map integer_dimension flags)).

Definition DIMENSION_TABLES_CONFIG : dict table_config :=
  build_dimension_config HAND_WRITTEN_DIMENSIONS INTEGER_DIMENSIONS.

(** *** Fact configuration *)

Definition FACT_TABLE_NAME : string := "FACT_CENSO_ESCOLAR".

Definition FACT_COLUMNS : list string :=
  [ "QT_DOC_BAS"; "QT_DOC_INF"; "QT_DOC_FUND"; "QT_DOC_MED";
    "QT_MAT_BAS"; "QT_MAT_INF"; "QT_MAT_FUND"; "QT_MAT_MED";
    "QT_MAT_BAS_ND"; "QT_MAT_BAS_BRANCA"; "QT_MAT_BAS_PRETA";
    "QT_MAT_BAS_PARDA"; "QT_MAT_BAS_AMARELA"; "QT_MAT_BAS_INDIGENA";
    "NU_ANO_CENSO" ]%string.

Definition fact_config (fact_columns : list string) : dict table_config :=
  dict_of_items
    (map (fun fact =>
            (fact, {| fields := [ {| field := fact; type := "integer" |} ] |}))
         fact_columns).

Definition dimension_id_config (config : dict table_config)
  : dict (list string) :=
  dict_of_items
    (map (fun entry => (fst entry, map field (fields (snd entry)))) config).

Definition fk_column_name (col : string) : string := ("ID_" ++ col)%string.

Definition fact_table_all_columns_ordered (fact_columns : list string)
  (id_config : dict (list string)) : list string :=
  fact_columns ++ map fk_column_name (keys id_config).

Definition FACT_CONFIG : dict table_config := fact_config FACT_COLUMNS.

Definition DIMENSION_ID_CONFIG : dict (list string) :=
  dimension_id_config DIMENSION_TABLES_CONFIG.

Definition FACT_TABLE_ALL_COLUMNS_ORDERED : list string :=
  fact_table_all_columns_ordered FACT_COLUMNS DIMENSION_ID_CONFIG.

(** *** Writing the dimensions *)

Section Materialization.

(** The partitioner of the shuffle behind [distinct]. *)
Variable hash : Row -> nat.

(** [data.select([...cast...]).distinct().withColumn("id",
    F.monotonically_increasing_id())]. *)
Definition dimension_frame (config : table_config) (data : DataFrame)
  : option DataFrame :=
  match select_cast (map (fun f => (field f, type f)) (fields config)) data with
  | Some projected =>
      let deduplicated := distinct projected in
      Some (with_column "id" LongType
              (map VLong
                 (monotonically_increasing_id hash (fun _ => 0%Z)
                    (rows deduplicated)))
              deduplicated)
  | None => None
  end.

(** One iteration of the loop: the frame is written with mode
    ["overwrite"], then [ALTER TABLE name ADD PRIMARY KEY (id)] is
    executed and committed.  Nothing catches an exception here: a failing
    step ends the loop ([None]). *)
Definition write_dimension (data : DataFrame) (conn : connection)
  (entry : string * table_config) : option connection :=
  match dimension_frame (snd entry) data with
  | Some frame =>
      match write_jdbc_overwrite (store conn) (fst entry) frame with
      | Some db =>
          match execute {| store := db; txn := txn conn |}
                        [AlterTableAddPrimaryKey (fst entry) "id"] with
          | (conn', None) => Some (commit conn')
          | (_, Some _) => None
          end
      | None => None
      end
  | None => None
  end.

Fixpoint write_dimensions (data : DataFrame) (conn : connection)
  (config : dict table_config) : option connection :=
  match config with
  | [] => Some conn
  | entry :: rest =>
      match write_dimension data conn entry with
      | Some conn' => write_dimensions data conn' rest
      | None => None
      end
  end.

End Materialization.

(** *** The fact table's schema *)

Definition comma_break_line : string :=
  String "," (String (ascii_of_nat 10)
    (String (ascii_of_nat 9) (String (ascii_of_nat 9)
      (String (ascii_of_nat 9) EmptyString)))).

Definition newline : string := String (ascii_of_nat 10) EmptyString.

Definition fact_column_lines (fact_columns : list string)
  (id_config : dict (list string)) : list string :=
  map (fun field => field ++ " INTEGER")%string fact_columns
  ++ map (fun dim_table => "ID_" ++ dim_table ++ " BIGINT")%string
         (keys id_config).

Definition fact_constraint_lines (fact_table : string)
  (id_config : dict (list string)) : list string :=
  map (fun dim_table =>
         "ADD CONSTRAINT " ++ fact_table ++ "_" ++ dim_table
         ++ "_fk FOREIGN KEY (ID_" ++ dim_table ++ ") REFERENCES "
         ++ dim_table ++ "(id)")%string
      (keys id_config).

(** The text of [facts_table_sql]. *)
Definition facts_table_sql_text (fact_table : string)
  (fact_columns : list string) (id_config : dict (list string)) : string :=
  (newline
   ++ "    CREATE TABLE IF NOT EXISTS " ++ fact_table ++ " (" ++ newline
   ++ "        id SERIAL PRIMARY KEY," ++ newline
   ++ "        "
   ++ join_str comma_break_line (fact_column_lines fact_columns id_config)
   ++ newline
   ++ "    );" ++ newline
   ++ "    " ++ newline
   ++ "    -- Adding Foreign Keys" ++ newline
   ++ "    ALTER TABLE " ++ fact_table ++ newline
   ++ "    "
   ++ join_str comma_break_line (fact_constraint_lines fact_table id_config)
   ++ newline)%string.

(** The two statements that text consists of; the store is modelled on
    statements, so [cursor.execute(facts_table_sql)] executes these. *)
Definition fact_column_defs (fact_columns : list string)
  (id_config : dict (list string)) : list column_def :=
  {| cd_name := "id"; cd_type := SERIAL; cd_primary_key := true |}
  :: map (fun field =>
            {| cd_name := field; cd_type := INTEGER; cd_primary_key := false |})
         fact_columns
  ++ map (fun dim_table =>
            {| cd_name := fk_column_name dim_table; cd_type := BIGINT;
               cd_primary_key := false |})
         (keys id_config).

Definition fact_foreign_keys (fact_table : string)
  (id_config : dict (list string)) : list foreign_key :=
  map (fun dim_table =>
         {| fk_name := fact_table ++ "_" ++ dim_table ++ "_fk";
            fk_column := fk_column_name dim_table;
            fk_ref_table := dim_table;
            fk_ref_column := "id" |})%string
      (keys id_config).

Definition facts_table_script (fact_table : string)
  (fact_columns : list string) (id_config : dict (list string))
  : list statement :=
  [ CreateTableIfNotExists fact_table (fact_column_defs fact_columns id_config);
    AlterTableAddForeignKeys fact_table (fact_foreign_keys fact_table id_config) ].

Definition facts_table_sql : string :=
  facts_table_sql_text FACT_TABLE_NAME FACT_COLUMNS DIMENSION_ID_CONFIG.

Definition facts_table_statements : list statement :=
  facts_table_script FACT_TABLE_NAME FACT_COLUMNS DIMENSION_ID_CONFIG.

(** How a column definition and a constraint clause are written. *)
Definition sql_type_name (t : sql_type) : string :=
  match t with
  | SERIAL => "SERIAL"
  | INTEGER => "INTEGER"
  | BIGINT => "BIGINT"
  | TEXT => "TEXT"
  end.

Definition render_column (c : column_def) : string :=
  (cd_name c ++ " " ++ sql_type_name (cd_type c)
   ++ (if cd_primary_key c then " PRIMARY KEY" else ""))%string.

Definition render_foreign_key (fk : foreign_key) : string :=
  ("ADD CONSTRAINT " ++ fk_name fk ++ " FOREIGN KEY (" ++ fk_column fk
   ++ ") REFERENCES " ++ fk_ref_table fk ++ "(" ++ fk_ref_column fk ++ ")")%string.

(** What the cell that creates the fact table prints. *)
Inductive message : Type :=
| CreatingFactsTable
| PrintedError (e : pg_error)
| CreatedFactsTable
| Done.

(** The cell: [try: execute; commit / except: print(e); rollback / else:
    print("Created ...")]. *)
Definition create_facts_table_with (script : list statement)
  (conn : connection) : connection * list message :=
  match execute conn script with
  | (conn', None) => (commit conn', [CreatingFactsTable; CreatedFactsTable; Done])
  | (conn', Some e) => (rollback conn', [CreatingFactsTable; PrintedError e])
  end.

Definition create_facts_table (conn : connection) : connection * list message :=
  create_facts_table_with facts_table_statements conn.

(** *** Resolving the keys *)

(** [data.select] of the fields of every dimension, chained, then of the
    keys of [FACT_CONFIG]. *)
Definition select_facts (id_config : dict (list string))
  (facts : dict table_config) (data : DataFrame) : option DataFrame :=
  select (List.concat (values id_config) ++ keys facts) data.

(** One iteration of the join loop. *)
Definition join_dimension (db : database) (facts_data : DataFrame)
  (entry : string * list string) : option DataFrame :=
  match read_jdbc db (fst entry) with
  | Some table =>
      let dim_table := with_column_renamed "id" (fk_column_name (fst entry)) table in
      match left_join facts_data dim_table (snd entry) with
      | Some joined => Some (drop (snd entry) joined)
      | None => None
      end
  | None => None
  end.

Fixpoint join_dimensions (db : database) (facts_data : DataFrame)
  (id_config : dict (list string)) : option DataFrame :=
  match id_config with
  | [] => Some facts_data
  | entry :: rest =>
      match join_dimension db facts_data entry with
      | Some facts_data' => join_dimensions db facts_data' rest
      | None => None
      end
  end.

(** The two cells together: the frame the loop ends with. *)
Definition resolve_keys (id_config : dict (list string))
  (facts : dict table_config) (db : database) (data : DataFrame)
  : option DataFrame :=
  match select_facts id_config facts data with
  | Some facts_data => join_dimensions db facts_data id_config
  | None => None
  end.

(** *** Loading the facts *)

(** [facts_data.select] of [FACT_TABLE_ALL_COLUMNS_ORDERED], the frame handed
    to the writer. *)
Definition ordered_facts (ordered : list string) (facts_data : DataFrame)
  : option DataFrame :=
  select ordered facts_data.

Definition load_facts (fact_table : string) (ordered : list string)
  (db : database) (facts_data : DataFrame) : option database :=
  match ordered_facts ordered facts_data with
  | Some frame => write_jdbc_append db fact_table frame
  | None => None
  end.

(** The cells of the notebook on its own configuration. *)
Definition resolved_facts (db : database) (data : DataFrame)
  : option DataFrame :=
  match resolve_keys DIMENSION_ID_CONFIG FACT_CONFIG db data with
  | Some facts_data => ordered_facts FACT_TABLE_ALL_COLUMNS_ORDERED facts_data
  | None => None
  end.

Definition load_fact_table (db : database) (data : DataFrame)
  : option database :=
  match resolve_keys DIMENSION_ID_CONFIG FACT_CONFIG db data with
  | Some facts_data =>
      load_facts FACT_TABLE_NAME FACT_TABLE_ALL_COLUMNS_ORDERED db facts_data
  | None => None
  end.

(** *** Temporary views *)

(** The views of the Spark session, by name. *)
Definition catalog : Type := dict DataFrame.

(** [df.createOrReplaceTempView(name)]. *)
Definition create_or_replace_temp_view (name : string) (df : DataFrame)
  (views : catalog) : catalog :=
  dict_set name df views.

(** The loop over [DIMENSION_ID_CONFIG.items()]: each dimension table is
    read, its [id] renamed as in the join loop, and registered under the
    table's name. *)
Fixpoint register_dimension_views (db : database)
  (id_config : dict (list string)) (views : catalog) : option catalog :=
  match id_config with
  | [] => Some views
  | entry :: rest =>
      match read_jdbc db (fst entry) with
      | Some table =>
          let dim_table :=
            with_column_renamed "id" (fk_column_name (fst entry)) table in
          register_dimension_views db rest
            (create_or_replace_temp_view (fst entry) dim_table views)
      | None => None
      end
  end.

(** The cell: the fact table first, then the dimensions. *)
Definition register_views (db : database) (views : catalog) : option catalog :=
  match read_jdbc db "FACT_CENSO_ESCOLAR" with
  | Some facts_data =>
      register_dimension_views db DIMENSION_ID_CONFIG
        (create_or_replace_temp_view "FACT_CENSO_ESCOLAR" facts_data views)
  | None => None
  end.

(** *** The queries *)

(** The shape the notebook's queries share:
    [SELECT c, ..., SUM(m) AS a FROM t JOIN u ON t.x = u.y
     WHERE v.c = 'lit' AND ... GROUP BY c, ... ORDER BY c, ...]. *)
Record query : Type := mkQuery {
  q_select : list string;
  q_sum : string;
  q_alias : string;
  q_from : string;
  q_join : string;
  q_on : (string * string) * (string * string);
  q_where : list ((string * string) * string);
  q_group_by : list string;
  q_order_by : list string
}.

(** A reference [table.column] in a query over [from JOIN join], as a
    position in the joined row: the columns of [from] come first.  When
    both sides of the join bear the name [table] the reference is
    ambiguous. *)
Definition qualified (from join : string) (left_columns right_columns : list string)
  (ref : string * string) : option nat :=
  if String.eqb (fst ref) from then
    if String.eqb (fst ref) join then None
    else resolve_column (snd ref) left_columns
  else if String.eqb (fst ref) join then
    option_map (Nat.add (List.length left_columns))
               (resolve_column (snd ref) right_columns)
  else None.

(** [left JOIN right ON i = j], both positions in the joined row. *)
Definition inner_join (left right : DataFrame) (i j : nat) : DataFrame :=
  {| schema := schema left ++ schema right;
     rows :=
       flat_map
         (fun a =>
            filter (fun ab => join_eq (nth i ab VNull) (nth j ab VNull))
                   (map (app a) (rows right)))
         (rows left) |}.

(** The conjunction of [column = 'literal'] conditions of a [WHERE]
    clause, the columns given by position. *)
Definition where_holds (conditions : list (nat * string)) (r : Row) : bool :=
  forallb (fun c => join_eq (nth (fst c) r VNull) (VStr (snd c))) conditions.

(** [SUM] over a group: nulls are skipped, the sum of no value is null,
    and the 64-bit accumulator wraps around. *)
Definition number (v : value) : option Z :=
  match v with
  | VInt z | VLong z => Some z
  | VNull | VStr _ => None
  end.

Fixpoint numbers (vs : list value) : list Z :=
  match vs with
  | [] => []
  | v :: rest =>
      match number v with
      | Some z => z :: numbers rest
      | None => numbers rest
      end
  end.

Definition sum (vs : list value) : value :=
  match numbers vs with
  | [] => VNull
  | zs => VLong (fold_left (fun acc z => wrap64 (acc + z)%Z) zs 0%Z)
  end.

(** [SUM] is computed in 64-bit integers for the integer types; over text
    it is floating-point arithmetic, which the model does not cover. *)
Definition summable (t : dtype) : bool :=
  match t with
  | IntegerType | LongType => true
  | StringType => false
  end.

Definition row_eqb (a b : Row) : bool :=
  if row_eq_dec a b then true else false.

(** [GROUP BY] the columns at [group], with the output row of each group:
    the grouping values at [selected] (positions in the grouping key), then
    the sum of the column at [measure]. *)
Definition aggregate (group selected : list nat) (measure : nat)
  (rs : list Row) : list Row :=
  map (fun key =>
         pick VNull selected key
         ++ [sum (map (fun r => nth measure r VNull)
                      (filter (fun r => row_eqb (pick VNull group r) key) rs))])
      (nodup row_eq_dec (map (pick VNull group) rs)).

(** The order of [ORDER BY]: ascending, nulls first, integers by value,
    text by its bytes.  The values of one column have one type; values of
    different types are ordered by type, which makes the order total. *)
Definition value_compare (a b : value) : comparison :=
  match a, b with
  | VNull, VNull => Eq
  | VNull, _ => Lt
  | _, VNull => Gt
  | VInt x, VInt y => Z.compare x y
  | VInt _, _ => Lt
  | _, VInt _ => Gt
  | VLong x, VLong y => Z.compare x y
  | VLong _, _ => Lt
  | _, VLong _ => Gt
  | VStr s, VStr t => String.compare s t
  end.

Fixpoint key_compare (a b : list value) : comparison :=
  match a, b with
  | [], [] => Eq
  | [], _ :: _ => Lt
  | _ :: _, [] => Gt
  | x :: a', y :: b' =>
      match value_compare x y with
      | Eq => key_compare a' b'
      | c => c
      end
  end.

Definition row_leb (by_columns : list nat) (a b : Row) : bool :=
  match key_compare (pick VNull by_columns a) (pick VNull by_columns b) with
  | Gt => false
  | _ => true
  end.

(** A stable insertion sort: rows that compare equal keep their order. *)
Fixpoint insert_sorted (by_columns : list nat) (r : Row) (sorted : list Row)
  : list Row :=
  match sorted with
  | [] => [r]
  | s :: rest =>
      if row_leb by_columns r s then r :: sorted
      else s :: insert_sorted by_columns r rest
  end.

Definition order_by (by_columns : list nat) (rs : list Row) : list Row :=
  fold_right (insert_sorted by_columns) [] rs.

(** [spark.sql(query)].  Unqualified names are resolved among the columns
    of both sides of the join, where each must denote one column; a
    selected column must be a grouping column; the names of [ORDER BY]
    are resolved among the output columns. *)
Definition spark_sql (views : catalog) (q : query) : option DataFrame :=
  match dict_get (q_from q) views, dict_get (q_join q) views with
  | Some from_view, Some join_view =>
      let joined_columns := columns from_view ++ columns join_view in
      let ref := qualified (q_from q) (q_join q) (columns from_view) (columns join_view) in
      let output_columns := q_select q ++ [q_alias q] in
      match ref (fst (q_on q)), ref (snd (q_on q)),
            traverse (fun w => option_map (fun k => (k, snd w)) (ref (fst w)))
                     (q_where q),
            traverse (fun c => resolve_column c joined_columns) (q_group_by q),
            traverse (fun c => find_index c (q_group_by q)) (q_select q),
            resolve_column (q_sum q) joined_columns,
            traverse (fun c => resolve_column c output_columns) (q_order_by q) with
      | Some i, Some j, Some conditions, Some group, Some selected,
        Some measure, Some by_columns =>
          let joined := inner_join from_view join_view i j in
          if summable (snd (nth measure (schema joined) no_field)) then
            Some {| schema :=
                      pick no_field selected (pick no_field group (schema joined))
                      ++ [(q_alias q, LongType)];
                    rows :=
                      order_by by_columns
                        (aggregate group selected measure
                           (filter (where_holds conditions) (rows joined))) |}
          else None
      | _, _, _, _, _, _, _ => None
      end
  | _, _ => None
  end.

(** The queries of the notebook, in the order of its cells. *)
Definition ON_ID_DIM_LOCAL : (string * string) * (string * string) :=
  (("FACT_CENSO_ESCOLAR", "ID_DIM_LOCAL"), ("DIM_LOCAL", "ID_DIM_LOCAL"))%string.

(** Teachers by state. *)
Definition teachers_by_state : query :=
  {| q_select := ["NO_UF"];
     q_sum := "QT_DOC_BAS";
     q_alias := "TOTAL_TEACHERS";
     q_from := "FACT_CENSO_ESCOLAR";
     q_join := "DIM_LOCAL";
     q_on := ON_ID_DIM_LOCAL;
     q_where := [];
     q_group_by := ["NO_UF"];
     q_order_by := ["NO_UF"] |}%string.

(** The drill-down: teachers by state and city. *)
Definition teachers_by_state_and_city : query :=
  {| q_select := ["NO_UF"; "NO_MUNICIPIO"];
     q_sum := "QT_DOC_BAS";
     q_alias := "TOTAL_TEACHERS";
     q_from := "FACT_CENSO_ESCOLAR";
     q_join := "DIM_LOCAL";
     q_on := ON_ID_DIM_LOCAL;
     q_where := [];
     q_group_by := ["NO_UF"; "NO_MUNICIPIO"];
     q_order_by := ["NO_UF"; "NO_MUNICIPIO"] |}%string.

(** Teachers by city, with the city's state. *)
Definition teachers_by_city : query :=
  {| q_select := ["NO_MUNICIPIO"; "NO_UF"];
     q_sum := "QT_DOC_BAS";
     q_alias := "TOTAL_TEACHERS";
     q_from := "FACT_CENSO_ESCOLAR";
     q_join := "DIM_LOCAL";
     q_on := ON_ID_DIM_LOCAL;
     q_where := [];
     q_group_by := ["NO_MUNICIPIO"; "NO_UF"];
     q_order_by := ["NO_MUNICIPIO"] |}%string.

(** The slice: the cities of Bahia. *)
Definition teachers_by_city_of_bahia : query :=
  {| q_select := ["NO_MUNICIPIO"; "NO_UF"];
     q_sum := "QT_DOC_BAS";
     q_alias := "TOTAL_TEACHERS";
     q_from := "FACT_CENSO_ESCOLAR";
     q_join := "DIM_LOCAL";
     q_on := ON_ID_DIM_LOCAL;
     q_where := [(("DIM_LOCAL", "NO_UF"), "Bahia")];
     q_group_by := ["NO_MUNICIPIO"; "NO_UF"];
     q_order_by := ["NO_MUNICIPIO"] |}%string.

(** The dice: Antas in Bahia. *)
Definition teachers_of_antas_in_bahia : query :=
  {| q_select := ["NO_MUNICIPIO"; "NO_UF"];
     q_sum := "QT_DOC_BAS";
     q_alias := "TOTAL_TEACHERS";
     q_from := "FACT_CENSO_ESCOLAR";
     q_join := "DIM_LOCAL";
     q_on := ON_ID_DIM_LOCAL;
     q_where := [(("DIM_LOCAL", "NO_UF"), "Bahia");
                 (("DIM_LOCAL", "NO_MUNICIPIO"), "Antas")];
     q_group_by := ["NO_MUNICIPIO"; "NO_UF"];
     q_order_by := ["NO_MUNICIPIO"] |}%string.

(* ================================================================= *)
(** ** Vocabulary of the statements *)

(** Every row has one value per column. *)
Definition sized (df : DataFrame) : Prop :=
  Forall (fun r : Row => List.length r = List.length (schema df)) (rows df).

(** The frame has exactly one column of each of the names. *)
Definition has_columns (names : list string) (df : DataFrame) : bool :=
  forallb (fun n => match resolve_column n (columns df) with
                    | Some _ => true
                    | None => false
                    end) names.

(** The values a row of [df] has in the columns [names]. *)
Definition natural_key (names : list string) (df : DataFrame) (r : Row)
  : list value :=
  map (fun n => match find_index n (columns df) with
                | Some i => nth i r VNull
                | None => VNull
                end) names.

(** The rows of a dimension table (key columns first) that the join pairs
    with a key, and the surrogate keys the join then yields: null when no
    row matches. *)
Definition partners (key : list value) (dim_rows : list Row) : list Row :=
  filter (keys_match (seq 0 (List.length key)) (seq 0 (List.length key)) key)
         dim_rows.

Definition fk_values (key : list value) (dim_rows : list Row) : list value :=
  match partners key dim_rows with
  | [] => [VNull]
  | ps => map (fun b => nth (List.length key) b VNull) ps
  end.

Definition surrogate_key (key : list value) (dim_rows : list Row) : value :=
  hd VNull (fk_values key dim_rows).

Definition table_rows (db : database) (name : string) : list Row :=
  match dict_get name db with
  | Some t => tb_rows t
  | None => []
  end.

(** For a row that starts with the natural keys of the dimensions [todo],
    in order: the surrogate key of each dimension. *)
Fixpoint resolved_keys (db : database) (todo : dict (list string)) (a : Row)
  : list value :=
  match todo with
  | [] => []
  | (name, keys) :: rest =>
      surrogate_key (firstn (List.length keys) a) (table_rows db name)
      :: resolved_keys db rest (skipn (List.length keys) a)
  end.

(** No natural key of the row has two partners in its dimension table. *)
Fixpoint single_partner (db : database) (todo : dict (list string)) (a : Row)
  : Prop :=
  match todo with
  | [] => True
  | (name, keys) :: rest =>
      List.length (partners (firstn (List.length keys) a) (table_rows db name)) <= 1
      /\ single_partner db rest (skipn (List.length keys) a)
  end.

(** The dimension tables of the store have the columns the materialisation
    gives them: the declared fields, then [id]. *)
Definition dimensions_shaped (db : database) (id_config : dict (list string))
  : Prop :=
  forall name keys t,
    In (name, keys) id_config -> dict_get name db = Some t ->
    table_columns t = keys ++ ["id"%string].

(** The names the resolution loop works with are pairwise different: the
    natural keys of the dimensions still to join, the other columns of the
    running frame, the foreign keys still to add, and [id]. *)
Definition names_distinct (todo : dict (list string)) (rest : list string)
  : Prop :=
  NoDup (List.concat (values todo) ++ rest
         ++ map fk_column_name (keys todo) ++ ["id"%string]).

(** Two lists of values agree position by position under the join's
    equality. *)
Fixpoint all_join_eq (a b : list value) : bool :=
  match a, b with
  | x :: a', y :: b' => join_eq x y && all_join_eq a' b'
  | _, _ => true
  end.

(** The projection-and-cast of one row, as [select_cast] computes it. *)
Definition cast_row (idxs : list nat) (types : list dtype) (r : Row) : Row :=
  map (fun it => cast (snd it) (nth (fst it) r VNull)) (combine idxs types).

Definition field_names (config : table_config) : list string :=
  map field (fields config).

Definition distinct_names (names : list string) : bool :=
  match first_duplicate names with
  | None => true
  | Some _ => false
  end.

(** The table a dimension frame becomes: written by Spark, then given its
    primary key. *)
Definition dimension_table (frame : DataFrame) : pg_table :=
  {| tb_schema := schema frame;
     tb_rows := rows frame;
     tb_primary_key := Some "id"%string;
     tb_foreign_keys := [];
     tb_serial := None |}.

Definition statement_table (st : statement) : string :=
  match st with
  | CreateTableIfNotExists name _ => name
  | AlterTableAddPrimaryKey name _ => name
  | AlterTableAddForeignKeys name _ => name
  end.

(** The error is one the store raises for the clause [fk] of an
    [ALTER TABLE table ADD CONSTRAINT ...] statement; it carries the name of
    the constraint, of its column, or of the table or column it references. *)
Definition constraint_error (table : string) (fk : foreign_key) (e : pg_error)
  : Prop :=
  e = DuplicateObject (fk_name fk) table
  \/ e = UndefinedTable (fk_ref_table fk)
  \/ e = UndefinedColumn (fk_column fk)
  \/ e = UndefinedColumn (fk_ref_column fk)
  \/ e = InvalidForeignKey (fk_ref_table fk)
  \/ e = ForeignKeyViolation table (fk_name fk).

(** The names and natural-key fields of the dimensions, as the
    comprehension behind [DIMENSION_ID_CONFIG] lists them. *)
Definition id_items (config : dict table_config) : list (string * list string) :=
  map (fun entry => (fst entry, map field (fields (snd entry)))) config.

(** The store holds, for every dimension of [config], the frame built from
    [data]. *)
Definition dimensions_stored (hash : Row -> nat) (config : dict table_config)
  (data : DataFrame) (db : database) : Prop :=
  forall name c,
    In (name, c) config ->
    exists frame t,
      dimension_frame hash c data = Some frame /\
      dict_get name db = Some t /\
      tb_schema t = schema frame /\ tb_rows t = rows frame.

(** The row the resolver produces for a row of the dataset: its measures,
    then for each dimension the surrogate key its natural key resolves to. *)
Definition resolved_row (db : database) (id_config : dict (list string))
  (fact_columns : list string) (data : DataFrame) (d : Row) : Row :=
  natural_key fact_columns data d
  ++ map (fun entry => surrogate_key (natural_key (snd entry) data d)
                                     (table_rows db (fst entry)))
         id_config.

Fixpoint names_eqb (a b : list string) : bool :=
  match a, b with
  | [], [] => true
  | x :: a', y :: b' => String.eqb x y && names_eqb a' b'
  | _, _ => false
  end.


(* ----------------------------------------------------------------- *)
(** *** Which constraint failed *)

(** The tables as the statements of a connection see them: those of the
    open transaction, if there is one. *)
Definition working (conn : connection) : database :=
  match txn conn with
  | Active w => w
  | _ => store conn
  end.

(** The first clause of [ALTER TABLE name ADD CONSTRAINT ..., ...] that
    the store refuses, with its error. *)
Fixpoint failing_clause (db : database) (name : string) (t : pg_table)
  (fks : list foreign_key) : option (foreign_key * pg_error) :=
  match fks with
  | [] => None
  | fk :: rest =>
      match add_foreign_key db name t fk with
      | inl e => Some (fk, e)
      | inr t' => failing_clause db name t' rest
      end
  end.

(** The constraint clause at which the script of the fact table fails on
    the connection, if it gets that far and fails there. *)
Definition failed_constraint (conn : connection)
  : option (foreign_key * pg_error) :=
  match exec_statement (working conn)
          (CreateTableIfNotExists FACT_TABLE_NAME
             (fact_column_defs FACT_COLUMNS DIMENSION_ID_CONFIG)) with
  | inr db1 =>
      match dict_get FACT_TABLE_NAME db1 with
      | Some t => failing_clause db1 FACT_TABLE_NAME t
                    (fact_foreign_keys FACT_TABLE_NAME DIMENSION_ID_CONFIG)
      | None => None
      end
  | inl _ => None
  end.

(** The error message names the constraint [fk] of [table], the column it
    constrains, or the table it references. *)
Definition names_constraint (table : string) (fk : foreign_key) (e : pg_error)
  : Prop :=
  e = DuplicateObject (fk_name fk) table
  \/ e = UndefinedTable (fk_ref_table fk)
  \/ e = UndefinedColumn (fk_column fk)
  \/ e = InvalidForeignKey (fk_ref_table fk)
  \/ e = ForeignKeyViolation table (fk_name fk).

Definition foreign_key_eqb (a b : foreign_key) : bool :=
  String.eqb (fk_name a) (fk_name b)
  && String.eqb (fk_column a) (fk_column b)
  && String.eqb (fk_ref_table a) (fk_ref_table b)
  && String.eqb (fk_ref_column a) (fk_ref_column b).

(* ----------------------------------------------------------------- *)
(** *** Running the cells *)

(** Every declared type is one [cast] knows. *)
Definition types_known (config : table_config) : bool :=
  forallb (fun f => match parse_data_type (type f) with
                    | Some _ => true
                    | None => false
                    end) (fields config).

(** The iteration of the dimension loop for [entry] has what it needs: the
    declared fields are pairwise different and none is called [id], their
    types are known, the dataset has each of them as a column, and no
    foreign key of the store references the table to overwrite. *)
Definition dimension_ready (data : DataFrame) (db : database)
  (entry : string * table_config) : bool :=
  distinct_names (field_names (snd entry) ++ ["id"%string])
  && types_known (snd entry)
  && has_columns (field_names (snd entry)) data
  && negb (referenced (fst entry) db).

(** The columns [names] of the frame are of type [t]. *)
Definition columns_typed (t : dtype) (names : list string) (df : DataFrame)
  : bool :=
  forallb (fun n => match resolve_column n (columns df) with
                    | Some i => if dtype_eq_dec (snd (nth i (schema df) no_field)) t
                                then true else false
                    | None => false
                    end) names.

(** The fact table as the schema build leaves it, holding [stored] and with
    its sequence at [next]. *)
Definition fact_table (stored : list Row) (next : Z) : pg_table :=
  {| tb_schema :=
       map (fun c => (cd_name c, data_type_of_sql (cd_type c)))
           (fact_column_defs FACT_COLUMNS DIMENSION_ID_CONFIG);
     tb_rows := stored;
     tb_primary_key := Some "id"%string;
     tb_foreign_keys := fact_foreign_keys FACT_TABLE_NAME DIMENSION_ID_CONFIG;
     tb_serial := Some ("id"%string, next) |}.

(** The rows the resolver produces for a dataset. *)
Definition resolved_rows (db : database) (data : DataFrame) : list Row :=
  map (resolved_row db DIMENSION_ID_CONFIG FACT_COLUMNS data) (rows data).

(** The frame with its rows in the order [arrival].  Spark fixes no order
    of the rows of a frame: the writer receives them as the joins and the
    partitions leave them. *)
Definition reordered (arrival : list Row) (df : DataFrame) : DataFrame :=
  {| schema := schema df; rows := arrival |}.

(** The rows stored for the rows that reach the writer, in the order of
    their arrival: each behind the next value of the sequence, which is at
    [next] for the first. *)
Definition numbered (next : Z) (arrival : list Row) : list Row :=
  map (fun kr => VInt (next + Z.of_nat (fst kr)) :: snd kr)
      (combine (seq 0 (List.length arrival)) arrival).

(** Every dimension of the registry has its table, with [id] as a column
    and as the primary key. *)
Definition dimensions_keyed (db : database) : bool :=
  forallb (fun name => match dict_get name db with
                       | Some t => mem "id" (table_columns t)
                                   && match tb_primary_key t with
                                      | Some pk => String.eqb pk "id"
                                      | None => false
                                      end
                       | None => false
                       end) (keys DIMENSION_TABLES_CONFIG).

(** A value is paired by the join with its own cast to [t]. *)
Definition matches_own_cast (t : dtype) (v : value) : bool :=
  join_eq v (cast t v).

(** The types a dimension declares for its fields, as [cast] reads them. *)
Definition declared_types (config : table_config) : list dtype :=
  map (fun f => match parse_data_type (type f) with
                | Some t => t
                | None => StringType
                end) (fields config).

(** The key as the dimension loop stores it: each value cast to the type
    declared for its field. *)
Definition cast_key (types : list dtype) (key : list value) : list value :=
  map (fun tv => cast (fst tv) (snd tv)) (combine types key).

(** Every value of the key is paired by the join with its own cast. *)
Definition key_castable (types : list dtype) (key : list value) : bool :=
  forallb (fun tv => matches_own_cast (fst tv) (snd tv)) (combine types key).

Definition schema_eq_dec (a b : list (string * dtype)) : {a = b} + {a <> b}.
Proof.
  apply list_eq_dec. intros [n t] [n' t'].
  destruct (string_dec n n'); [|right; congruence].
  destruct (dtype_eq_dec t t'); [left | right]; congruence.
Defined.


(** Decidable form of [dimensions_stored], for one dimension. *)
Definition frame_stored (hash : Row -> nat) (data : DataFrame) (db : database)
  (entry : string * table_config) : bool :=
  match dimension_frame hash (snd entry) data, dict_get (fst entry) db with
  | Some frame, Some t =>
      (if schema_eq_dec (tb_schema t) (schema frame) then true else false)
      && (if list_eq_dec row_eq_dec (tb_rows t) (rows frame) then true else false)
  | _, _ => false
  end.

(** An integer value lies in the range of its width. *)
Definition in_range (v : value) : bool :=
  match v with
  | VInt z => in_int32 z
  | VLong z => in_int64 z
  | _ => true
  end.

(* ----------------------------------------------------------------- *)
(** *** Query results *)

(** Row [a] does not come after row [b] in the order of the columns
    [by_columns]. *)
Definition before (by_columns : list nat) (a b : Row) : Prop :=
  row_leb by_columns a b = true.

(** The query with one more condition in its [WHERE] clause. *)
Definition and_where (condition : (string * string) * string) (q : query)
  : query :=
  {| q_select := q_select q;
     q_sum := q_sum q;
     q_alias := q_alias q;
     q_from := q_from q;
     q_join := q_join q;
     q_on := q_on q;
     q_where := q_where q ++ [condition];
     q_group_by := q_group_by q;
     q_order_by := q_order_by q |}.

(** The positions of the [ORDER BY] columns among the output columns. *)
Definition order_columns (q : query) : option (list nat) :=
  traverse (fun c => resolve_column c (q_select q ++ [q_alias q])) (q_order_by q).

(** [out] is a frame that Spark may return for the query: it has the
    columns and the rows that the query computes, and its rows are sorted
    on the [ORDER BY] columns.  The order among rows that tie on these
    columns is not fixed. *)
Definition answers (views : catalog) (q : query) (out : DataFrame) : Prop :=
  exists listed by_columns,
    spark_sql views q = Some listed /\
    order_columns q = Some by_columns /\
    schema out = schema listed /\
    Permutation (rows out) (rows listed) /\
    StronglySorted (before by_columns) (rows out).

(** The rows of a frame that have the text [literal] in column [p]. *)
Definition having (p : nat) (literal : string) (df : DataFrame) : DataFrame :=
  {| schema := schema df;
     rows := filter (fun r => join_eq (nth p r VNull) (VStr literal)) (rows df) |}.

(** The value a row of the frame has in the column [name]. *)
Definition column (name : string) (df : DataFrame) (r : Row) : value :=
  match resolve_column name (columns df) with
  | Some i => nth i r VNull
  | None => VNull
  end.

Definition is_null (v : value) : bool :=
  match v with
  | VNull => true
  | _ => false
  end.

(** Every non-null value of the column [name] of [facts] is the value of
    the column [name] of exactly one row of [dimension]. *)
Definition references_resolved (name : string) (facts dimension : DataFrame)
  : bool :=
  forallb (fun a =>
             is_null (column name facts a)
             || Nat.eqb (List.length
                           (filter (fun b => join_eq (column name facts a)
                                                     (column name dimension b))
                                   (rows dimension))) 1)
          (rows facts).

(** The frame without the rows that have a null in the column [name]. *)
Definition where_not_null (name : string) (df : DataFrame) : DataFrame :=
  {| schema := schema df;
     rows := filter (fun r => negb (is_null (column name df r))) (rows df) |}.

(** The table [name] of the store as a frame. *)
Definition table_frame (db : database) (name : string) : DataFrame :=
  match dict_get name db with
  | Some t => {| schema := tb_schema t; rows := tb_rows t |}
  | None => {| schema := []; rows := [] |}
  end.

(** The store holds every table that the registration cell reads. *)
Definition tables_exist (db : database) : bool :=
  forallb (fun name => match dict_get name db with
                       | Some _ => true
                       | None => false
                       end)
          ("FACT_CENSO_ESCOLAR"%string :: keys DIMENSION_ID_CONFIG).

(** The query rolled up to its first [n] grouping columns. *)
Definition roll_up (n : nat) (q : query) : query :=
  {| q_select := firstn n (q_select q);
     q_sum := q_sum q;
     q_alias := q_alias q;
     q_from := q_from q;
     q_join := q_join q;
     q_on := q_on q;
     q_where := q_where q;
     q_group_by := firstn n (q_group_by q);
     q_order_by := firstn n (q_order_by q) |}.

(* ================================================================= *)
(** ** Sample inputs *)

(** A census extract: the location columns, the flag columns (the first
    of them with type [dependencia]), the measures. *)
Definition census_schema (dependencia : dtype) : list (string * dtype) :=
  [ ("NO_UF", StringType); ("SG_UF", StringType); ("CO_UF", IntegerType);
    ("NO_MUNICIPIO", StringType); ("CO_MUNICIPIO", IntegerType);
    ("TP_DEPENDENCIA", dependencia) ]%string
  ++ map (fun c => (c, IntegerType)) (tl INTEGER_DIMENSIONS)
  ++ map (fun c => (c, IntegerType)) FACT_COLUMNS.

Definition census_row (uf sg : string) (co_uf : Z) (municipio : string)
  (co_municipio : Z) (dependencia : value) (teachers : Z) : Row :=
  [ VStr uf; VStr sg; VInt co_uf; VStr municipio; VInt co_municipio;
    dependencia ]
  ++ repeat (VInt 1) 10
  ++ VInt teachers :: repeat (VInt 0) 13 ++ [VInt 2023].

(** Two schools of Rio Branco, one of them without its administration
    code, and one school of Antas. *)
Definition sample_census : DataFrame :=
  {| schema := census_schema IntegerType;
     rows :=
       [ census_row "Acre" "AC" 12 "Rio Branco" 1200401 (VInt 1) 100;
         census_row "Acre" "AC" 12 "Rio Branco" 1200401 VNull 50;
         census_row "Bahia" "BA" 29 "Antas" 2901601 (VInt 2) 7 ]%string |}.

(** A school whose administration code does not fit 32 bits: schema
    inference makes the column a 64-bit one. *)
Definition wide_census : DataFrame :=
  {| schema := census_schema LongType;
     rows :=
       [ census_row "Acre" "AC" 12 "Rio Branco" 1200401 (VLong 4294967297) 100 ]%string |}.

Definition sample_hash (r : Row) : nat := List.length r.

Definition fresh_connection : connection := {| store := []; txn := Idle |}.

(** The connection after the dimension loop ran on a dataset. *)
Definition dimensions_written (data : DataFrame) : connection :=
  match write_dimensions sample_hash data fresh_connection DIMENSION_TABLES_CONFIG with
  | Some conn => conn
  | None => fresh_connection
  end.

(** The store after the dimension loop and the schema build. *)
Definition prepared_store (data : DataFrame) : database :=
  store (fst (create_facts_table (dimensions_written data))).

(** The configuration of the dimension of the school administration. *)
Definition dependencia_config : table_config :=
  {| fields := [ {| field := "TP_DEPENDENCIA"; type := "integer" |} ] |}%string.

(** A connection whose store misses the table of the last dimension. *)
Definition incomplete_connection : connection :=
  {| store := removelast (store (dimensions_written sample_census));
     txn := Idle |}.







(** The connection after the dimension loop, with the table [name] replaced
    by one that somebody created by hand, without the column [id]. *)
Definition connection_without_id (name : string) : connection :=
  {| store :=
       dict_set name
         {| tb_schema := [("CODE"%string, IntegerType)];
            tb_rows := [];
            tb_primary_key := None;
            tb_foreign_keys := [];
            tb_serial := None |}
         (store (dimensions_written sample_census));
     txn := Idle |}.

(** The connection after the dimension loop, with a transaction that an
    earlier statement left failed. *)
Definition failed_connection : connection :=
  {| store := store (dimensions_written sample_census); txn := Failed |}.

(** The configuration of the dimension of the location. *)
Definition local_config : table_config :=
  {| fields :=
       [ {| field := "NO_UF"; type := "string" |};
         {| field := "SG_UF"; type := "string" |};
         {| field := "CO_UF"; type := "string" |};
         {| field := "NO_MUNICIPIO"; type := "string" |};
         {| field := "CO_MUNICIPIO"; type := "string" |} ] |}%string.

(** A larger extract for the queries: two states, four cities, a school
    without its city and a city's name that two states share. *)
Definition olap_census : DataFrame :=
  {| schema := census_schema IntegerType;
     rows :=
       [ census_row "Bahia" "BA" 29 "Antas" 2901601 (VInt 2) 7;
         census_row "Acre" "AC" 12 "Rio Branco" 1200401 (VInt 1) 100;
         census_row "Acre" "AC" 12 "Bujari" 1200138 (VInt 1) 5;
         census_row "Bahia" "BA" 29 "Bonito" 2904050 (VInt 3) 11;
         census_row "Acre" "AC" 12 "Rio Branco" 1200401 (VInt 2) 50;
         ([ VStr "Bahia"; VStr "BA"; VInt 29; VNull; VNull; VInt 2 ]
          ++ repeat (VInt 1) 10
          ++ VInt 1000 :: repeat (VInt 0) 13 ++ [VInt 2023])%list;
         census_row "Acre" "AC" 12 "Bonito" 1200999 (VInt 2) 3 ]%string |}.

(** The store after the notebook's cells ran on a dataset, up to the load. *)
Definition loaded_store (data : DataFrame) : database :=
  match load_fact_table (prepared_store data) data with
  | Some db => db
  | None => prepared_store data
  end.

(** The views the registration cell leaves in a fresh session. *)
Definition registered_views (data : DataFrame) : catalog :=
  match register_views (loaded_store data) [] with
  | Some views => views
  | None => []
  end.

(** The view registered under a name, for the samples. *)
Definition view (name : string) (views : catalog) : DataFrame :=
  match dict_get name views with
  | Some df => df
  | None => {| schema := []; rows := [] |}
  end.

(** The result of a query on the sample views. *)
Definition result (data : DataFrame) (q : query) : DataFrame :=
  match spark_sql (registered_views data) q with
  | Some out => out
  | None => {| schema := []; rows := [] |}
  end.

(** The UTF-8 encodings of the letters a and i with an acute accent. *)
Definition a_acute : string :=
  String (ascii_of_nat 195) (String (ascii_of_nat 161) EmptyString).

Definition i_acute : string :=
  String (ascii_of_nat 195) (String (ascii_of_nat 173) EmptyString).

(** The teachers by city of the sample as Spark may list them: the two
    cities called Bonito tie on the [ORDER BY] column, and come here in the
    other order than in [result]. *)
Definition teachers_by_city_listed : DataFrame :=
  {| schema := schema (result olap_census teachers_by_city);
     rows := [ [VStr "Antas"; VStr "Bahia"; VLong 7];
               [VStr "Bonito"; VStr "Acre"; VLong 3];
               [VStr "Bonito"; VStr "Bahia"; VLong 11];
               [VStr "Bujari"; VStr "Acre"; VLong 5];
               [VStr "Rio Branco"; VStr "Acre"; VLong 150] ] |}.

(* ================================================================= *)
(** * Properties *)

(** ** Dictionaries *)

Section DictFacts.

Context {V : Type}.
Implicit Types (d : dict V) (k : string) (v : V) (items : list (string * V)).

Lemma mem_In (x : string) (l : list string) : mem x l = true <-> In x l.
Proof.
  unfold mem. rewrite existsb_exists. split.
  - intros (y & Hy & E). apply String.eqb_eq in E. now subst.
  - intros H. exists x. split; [assumption | apply String.eqb_refl].
Qed.

Lemma mem_false (x : string) (l : list string) : mem x l = false <-> ~ In x l.
Proof.
  rewrite <- mem_In. destruct (mem x l); split; intros; congruence.
Qed.

Lemma dict_set_keys k v d :
  keys (dict_set k v d) = if mem k (keys d) then keys d else keys d ++ [k].
Proof.
  induction d as [|[k' v'] d IH]; simpl; [reflexivity|].
  rewrite (String.eqb_sym k k').
  destruct (String.eqb k' k) eqn:E; simpl; [reflexivity|].
  unfold keys in *. rewrite IH.
  destruct (mem k (map fst d)); reflexivity.
Qed.

Lemma dict_set_NoDup k v d : NoDup (keys d) -> NoDup (keys (dict_set k v d)).
Proof.
  intros H. rewrite dict_set_keys. destruct (mem k (keys d)) eqn:E; [assumption|].
  apply mem_false in E.
  apply NoDup_app; [assumption | repeat constructor; simpl; tauto |].
  intros x Hx [<-|[]]. contradiction.
Qed.

Lemma dict_update_NoDup items : forall d,
  NoDup (keys d) -> NoDup (keys (dict_update d items)).
Proof.
  induction items as [|[k v] items IH]; intros d H; simpl; [assumption|].
  apply IH, dict_set_NoDup, H.
Qed.

Lemma dict_of_items_NoDup items : NoDup (keys (dict_of_items items)).
Proof. apply dict_update_NoDup. constructor. Qed.

Lemma dict_get_set_same k v d : dict_get k (dict_set k v d) = Some v.
Proof.
  induction d as [|[k' v'] d IH]; simpl.
  - now rewrite String.eqb_refl.
  - destruct (String.eqb k' k) eqn:E; simpl; rewrite E; [reflexivity | exact IH].
Qed.

Lemma dict_get_set_other k k' v d :
  k' <> k -> dict_get k' (dict_set k v d) = dict_get k' d.
Proof.
  intros N. induction d as [|[k0 v0] d IH]; simpl.
  - destruct (String.eqb k k') eqn:E; [apply String.eqb_eq in E; congruence | reflexivity].
  - destruct (String.eqb k0 k) eqn:E; simpl.
    + apply String.eqb_eq in E. subst k0.
      destruct (String.eqb k k') eqn:E'; [apply String.eqb_eq in E'; congruence | reflexivity].
    + destruct (String.eqb k0 k'); [reflexivity | exact IH].
Qed.

Lemma dict_get_update_other k items : forall d,
  ~ In k (map fst items) -> dict_get k (dict_update d items) = dict_get k d.
Proof.
  induction items as [|[k1 v1] items IH]; intros d N; simpl; [reflexivity|].
  simpl in N. rewrite IH by tauto. apply dict_get_set_other. intros ->. tauto.
Qed.

Lemma dict_get_update_in k v items : forall d,
  NoDup (map fst items) -> In (k, v) items ->
  dict_get k (dict_update d items) = Some v.
Proof.
  induction items as [|[k1 v1] items IH]; intros d N H; simpl; [destruct H|].
  inversion N as [|? ? N1 N2]; subst. destruct H as [H|H].
  - inversion H; subst. rewrite dict_get_update_other by assumption.
    apply dict_get_set_same.
  - now apply IH.
Qed.

Lemma dict_set_In k v d kv :
  In kv (dict_set k v d) -> In kv d \/ snd kv = v /\ (fst kv = k).
Proof.
  induction d as [|[k' v'] d IH]; simpl.
  - intros [<-|[]]. right. now split.
  - destruct (String.eqb k' k) eqn:E; simpl.
    + apply String.eqb_eq in E. subst. intros [<-|H]; [right; now split | tauto].
    + intros [<-|H]; [tauto|]. destruct (IH H); tauto.
Qed.

Lemma dict_update_In items : forall d kv,
  In kv (dict_update d items) -> In kv d \/ In kv items.
Proof.
  induction items as [|[k1 v1] items IH]; intros d kv H; simpl in *; [tauto|].
  destruct (IH _ _ H) as [H1|H1]; [|tauto].
  destruct (dict_set_In _ _ _ _ H1) as [H2|[H2 H3]]; [tauto|].
  right. left. destruct kv; simpl in *; congruence.
Qed.

Lemma dict_set_keys_incl k v d x : In x (keys d) -> In x (keys (dict_set k v d)).
Proof.
  rewrite dict_set_keys. destruct (mem k (keys d)); [tauto|].
  intros H. apply in_or_app. now left.
Qed.

Lemma dict_update_keys_incl items : forall d x,
  In x (keys d) \/ In x (map fst items) -> In x (keys (dict_update d items)).
Proof.
  induction items as [|[k1 v1] items IH]; intros d x H; simpl in *; [tauto|].
  apply IH. destruct H as [H|[H|H]]; [left; now apply dict_set_keys_incl | | tauto].
  subst x. left. rewrite dict_set_keys. destruct (mem k1 (keys d)) eqn:E.
  - now apply mem_In.
  - apply in_or_app. right. now left.
Qed.

Lemma dict_get_In k v d : dict_get k d = Some v -> In (k, v) d.
Proof.
  induction d as [|[k' v'] d IH]; simpl; [discriminate|].
  destruct (String.eqb k' k) eqn:E.
  - apply String.eqb_eq in E. intros [= ->]. left. now subst.
  - intros H. right. now apply IH.
Qed.

Lemma dict_get_NoDup k v d : NoDup (keys d) -> In (k, v) d -> dict_get k d = Some v.
Proof.
  induction d as [|[k' v'] d IH]; simpl; intros N H; [destruct H|].
  inversion N as [|? ? N1 N2]; subst. destruct H as [H|H].
  - inversion H; subst. now rewrite String.eqb_refl.
  - destruct (String.eqb k' k) eqn:E.
    + apply String.eqb_eq in E. subst. exfalso. apply N1.
      change k with (fst (k, v)). now apply in_map.
    + now apply IH.
Qed.

(** A display or comprehension whose keys are all different is the list
    of its items. *)
Lemma dict_update_fresh items : forall d,
  NoDup (keys d ++ map fst items) -> dict_update d items = d ++ items.
Proof.
  induction items as [|[k1 v1] items IH]; intros d N; simpl.
  - now rewrite app_nil_r.
  - assert (E : dict_set k1 v1 d = d ++ [(k1, v1)]).
    { clear IH. apply NoDup_remove_2 in N.
      assert (N' : ~ In k1 (keys d)) by (intros H; apply N, in_or_app; now left).
      clear N. induction d as [|[k0 v0] d IHd]; simpl; [reflexivity|].
      destruct (String.eqb k0 k1) eqn:E.
      - apply String.eqb_eq in E. subst. simpl in N'. tauto.
      - rewrite IHd; [reflexivity|]. simpl in N'. tauto. }
    rewrite E, IH.
    + now rewrite <- app_assoc.
    + unfold keys in *. rewrite map_app. simpl. rewrite <- app_assoc. exact N.
Qed.

Lemma dict_of_items_fresh items :
  NoDup (map fst items) -> dict_of_items items = items.
Proof. intros N. unfold dict_of_items. now rewrite dict_update_fresh. Qed.

End DictFacts.

(** ** Decimal text and casts *)

Arguments digit_char : simpl never.
Arguments digit_val : simpl never.
Arguments is_digit : simpl never.
Arguments is_blank : simpl never.

Lemma digit_cases (d : Z) :
  (0 <= d < 10)%Z ->
  d = 0%Z \/ d = 1%Z \/ d = 2%Z \/ d = 3%Z \/ d = 4%Z \/ d = 5%Z \/ d = 6%Z
  \/ d = 7%Z \/ d = 8%Z \/ d = 9%Z.
Proof. lia. Qed.

Ltac each_digit d H :=
  destruct (digit_cases d H) as [->|[->|[->|[->|[->|[->|[->|[->|[->| ->]]]]]]]]].

Lemma digit_char_is_digit (d : Z) : (0 <= d < 10)%Z -> is_digit (digit_char d) = true.
Proof. intros H. each_digit d H; reflexivity. Qed.

Lemma digit_char_val (d : Z) : (0 <= d < 10)%Z -> digit_val (digit_char d) = d.
Proof. intros H. each_digit d H; reflexivity. Qed.

Lemma digit_not_blank (c : ascii) : is_digit c = true -> is_blank c = false.
Proof.
  unfold is_digit, is_blank. intros H. apply andb_true_iff in H as [H1 H2].
  apply Nat.leb_le in H1. apply Nat.leb_le in H2.
  apply orb_false_iff. split; [apply Nat.leb_gt | apply Nat.eqb_neq]; lia.
Qed.

Lemma digit_not_char (c x : ascii) :
  is_digit c = true -> is_digit x = false -> Ascii.eqb c x = false.
Proof. intros H N. apply Ascii.eqb_neq. intros ->. congruence. Qed.

Lemma show_digits_all_digits (fuel : nat) : forall n acc,
  all_digits acc = true -> all_digits (show_digits fuel n acc) = true.
Proof.
  assert (D : forall n acc, all_digits acc = true ->
                all_digits (String (digit_char (n mod 10)) acc) = true).
  { intros n acc H. unfold all_digits in *. cbn [string_all]. rewrite H.
    rewrite digit_char_is_digit; [reflexivity | apply Z.mod_pos_bound; lia]. }
  induction fuel as [|f IH]; intros n acc H; simpl; [now apply D|].
  destruct (n <? 10)%Z; [now apply D | apply IH, D, H].
Qed.

Lemma show_digits_nonempty (fuel : nat) (n : Z) (acc : string) :
  exists c s, show_digits fuel n acc = String c s.
Proof.
  revert n acc. induction fuel as [|f IH]; intros n acc; simpl; [eauto|].
  destruct (n <? 10)%Z; eauto.
Qed.

Lemma read_digits_digit (c : ascii) (s : string) (acc : Z) :
  is_digit c = true ->
  read_digits (String c s) acc = read_digits s (10 * acc + digit_val c)%Z.
Proof.
  intros H. simpl.
  rewrite (digit_not_char c "." H) by reflexivity. now rewrite H.
Qed.

Lemma read_show_digits (fuel : nat) : forall n rest,
  (0 <= n < 10 ^ Z.of_nat (S fuel))%Z ->
  read_digits (show_digits fuel n rest) 0 = read_digits rest n.
Proof.
  induction fuel as [|f IH]; intros n rest H.
  - simpl show_digits. change (10 ^ Z.of_nat 1)%Z with 10%Z in H.
    rewrite read_digits_digit by (apply digit_char_is_digit, Z.mod_pos_bound; lia).
    rewrite digit_char_val by (apply Z.mod_pos_bound; lia).
    rewrite Z.mod_small by lia. f_equal.
  - simpl show_digits. destruct (n <? 10)%Z eqn:E.
    + apply Z.ltb_lt in E.
      rewrite read_digits_digit by (apply digit_char_is_digit, Z.mod_pos_bound; lia).
      rewrite digit_char_val by (apply Z.mod_pos_bound; lia).
      rewrite Z.mod_small by lia. f_equal.
    + apply Z.ltb_ge in E. rewrite IH.
      * rewrite read_digits_digit by (apply digit_char_is_digit, Z.mod_pos_bound; lia).
        rewrite digit_char_val by (apply Z.mod_pos_bound; lia).
        f_equal. pose proof (Z.div_mod n 10). lia.
      * split; [apply Z.div_pos; lia|].
        apply Z.div_lt_upper_bound; [lia|].
        replace (Z.of_nat (S (S f))) with (Z.succ (Z.of_nat (S f))) in H by lia.
        rewrite Z.pow_succ_r in H by lia. lia.
Qed.

Lemma trim_right_nonblank (s : string) :
  string_all (fun c => negb (is_blank c)) s = true -> trim_right s = s.
Proof.
  induction s as [|c s IH]; simpl; [reflexivity|].
  intros H. apply andb_true_iff in H as [H1 H2]. rewrite (IH H2).
  destruct s; [|reflexivity]. apply negb_true_iff in H1. now rewrite H1.
Qed.

Lemma string_all_impl (p q : ascii -> bool) (s : string) :
  (forall c, p c = true -> q c = true) ->
  string_all p s = true -> string_all q s = true.
Proof.
  intros I. induction s as [|c s IH]; simpl; [reflexivity|].
  intros H. apply andb_true_iff in H as [H1 H2]. now rewrite (I _ H1), IH.
Qed.

Lemma trim_digits (s : string) : all_digits s = true -> trim s = s.
Proof.
  intros H. unfold trim.
  assert (N : string_all (fun c => negb (is_blank c)) s = true).
  { revert H. apply string_all_impl. intros c Hc.
    now rewrite (digit_not_blank _ Hc). }
  destruct s as [|c s]; [reflexivity|].
  simpl trim_left. simpl in N. apply andb_true_iff in N as [N1 N2].
  apply negb_true_iff in N1. rewrite N1.
  apply trim_right_nonblank. simpl. now rewrite N1, N2.
Qed.

Lemma trim_signed_digits (s : string) :
  all_digits s = true -> trim (String "-" s) = String "-" s.
Proof.
  intros A. unfold trim. cbn [trim_left].
  change (is_blank "-") with false. cbv iota.
  apply trim_right_nonblank. cbn [string_all].
  change (is_blank "-") with false. cbn [negb andb].
  revert A. apply string_all_impl. intros c Hc.
  now rewrite (digit_not_blank _ Hc).
Qed.

(** Reading back the text of a 64-bit integer gives the integer. *)
Lemma parse_show_Z (z : Z) :
  in_int64 z = true -> parse_integral (show_Z z) = Some z.
Proof.
  unfold in_int64, int64_min, int64_max. intros H.
  apply andb_true_iff in H as [H1 H2].
  apply Z.leb_le in H1. apply Z.leb_le in H2.
  assert (P : (10 ^ Z.of_nat 20 > 2 ^ 63)%Z) by (vm_compute; reflexivity).
  unfold show_Z. destruct (z <? 0)%Z eqn:E.
  - apply Z.ltb_lt in E.
    pose proof (show_digits_all_digits 19 (- z) "" eq_refl) as A.
    destruct (show_digits_nonempty 19 (- z) "") as (c & s & Es).
    pose proof (read_show_digits 19 (- z) "") as R.
    revert A Es R. generalize (show_digits 19 (- z) "") as ds. intros ds A Es R.
    unfold parse_integral. rewrite (trim_signed_digits _ A).
    change (Ascii.eqb "-" "-") with true. cbv iota.
    rewrite Es. rewrite <- Es. rewrite R by lia.
    cbn [read_digits option_map]. f_equal. lia.
  - apply Z.ltb_ge in E.
    pose proof (show_digits_all_digits 19 z "" eq_refl) as A.
    destruct (show_digits_nonempty 19 z "") as (c & s & Es).
    pose proof (read_show_digits 19 z "") as R.
    revert A Es R. generalize (show_digits 19 z "") as ds. intros ds A Es R.
    unfold parse_integral. rewrite (trim_digits _ A).
    rewrite Es. rewrite Es in A. unfold all_digits in A. cbn [string_all] in A.
    apply andb_true_iff in A as [A1 A2].
    rewrite (digit_not_char c "-" A1) by reflexivity.
    rewrite (digit_not_char c "+" A1) by reflexivity.
    rewrite <- Es. rewrite R by lia. reflexivity.
Qed.

Lemma in_int32_int64 (z : Z) : in_int32 z = true -> in_int64 z = true.
Proof.
  unfold in_int32, in_int64, int32_min, int32_max, int64_min, int64_max.
  intros H. apply andb_true_iff in H as [H1 H2].
  apply Z.leb_le in H1. apply Z.leb_le in H2.
  apply andb_true_iff. split; apply Z.leb_le; lia.
Qed.

Lemma parse_bounded_show (inside : Z -> bool) (z : Z) :
  in_int64 z = true -> inside z = true -> parse_bounded inside (show_Z z) = Some z.
Proof. intros H I. unfold parse_bounded. now rewrite parse_show_Z, I. Qed.

Lemma parse_bounded_inside (inside : Z -> bool) (s : string) (z : Z) :
  parse_bounded inside s = Some z -> inside z = true.
Proof.
  unfold parse_bounded. destruct (parse_integral s) as [y|]; [|discriminate].
  destruct (inside y) eqn:E; [|discriminate]. now intros [= <-].
Qed.

Lemma value_eqb_eq (a b : value) : value_eqb a b = true <-> a = b.
Proof. unfold value_eqb. destruct (value_eq_dec a b); split; congruence. Qed.

Lemma value_eqb_refl (a : value) : value_eqb a a = true.
Proof. now apply value_eqb_eq. Qed.

(** A key matches at most one value among the casts of the values of its
    own column: the dimension side of a join cannot offer two partners that
    differ. *)
Lemma join_eq_functional (r t : dtype) (v x y : value) :
  has_type r v = true -> has_type r x = true -> has_type r y = true ->
  join_eq v (cast t x) = true -> join_eq v (cast t y) = true ->
  cast t x = cast t y.
Proof.
  intros Hv Hx Hy.
  destruct v as [|a|a|a]; [discriminate 1 | | | ];
    destruct r; try discriminate Hv;
    (destruct x as [|p|p|p]; [discriminate 1 | | | ]; try discriminate Hx);
    (destruct y as [|q|q|q]; [intros _; discriminate 1 | | | ]; try discriminate Hy);
    simpl in Hx, Hy.
  - (* integer column *)
    destruct t; unfold join_eq; simpl.
    + intros E1 E2. apply value_eqb_eq in E1, E2. congruence.
    + intros E1 E2. apply value_eqb_eq in E1, E2. congruence.
    + rewrite !parse_bounded_show by auto using in_int32_int64.
      intros E1 E2. apply value_eqb_eq in E1, E2. congruence.
  - (* long column *)
    destruct t; unfold join_eq; simpl.
    + intros E1 E2. apply value_eqb_eq in E1, E2. congruence.
    + intros E1 E2. apply value_eqb_eq in E1, E2. congruence.
    + rewrite !parse_bounded_show by auto.
      intros E1 E2. apply value_eqb_eq in E1, E2. congruence.
  - (* string column *)
    destruct t; unfold join_eq; simpl.
    + destruct (parse_bounded in_int32 p) as [zp|]; [|discriminate 1].
      destruct (parse_bounded in_int32 q) as [zq|]; [|intros _; discriminate 1].
      simpl. destruct (parse_bounded in_int32 a) as [za|]; [|discriminate 1].
      intros E1 E2. apply value_eqb_eq in E1, E2. congruence.
    + destruct (parse_bounded in_int64 p) as [zp|]; [|discriminate 1].
      destruct (parse_bounded in_int64 q) as [zq|]; [|intros _; discriminate 1].
      simpl. destruct (parse_bounded in_int64 a) as [za|]; [|discriminate 1].
      intros E1 E2. apply value_eqb_eq in E1, E2. congruence.
    + intros E1 E2. apply value_eqb_eq in E1, E2. congruence.
Qed.

(** ** Positions in lists *)

Lemma traverse_length {A B : Type} (f : A -> option B) (l : list A) :
  forall out, traverse f l = Some out -> List.length out = List.length l.
Proof.
  induction l as [|a l IH]; simpl; intros out.
  - now intros [= <-].
  - destruct (f a); [|discriminate]. destruct (traverse f l); [|discriminate].
    intros [= <-]. simpl. now rewrite (IH _ eq_refl).
Qed.

Lemma traverse_ext {A B : Type} (f g : A -> option B) (l : list A) :
  (forall a, In a l -> f a = g a) -> traverse f l = traverse g l.
Proof.
  induction l as [|a l IH]; simpl; intros H; [reflexivity|].
  rewrite (H a) by tauto. rewrite IH; [reflexivity|]. intros; apply H; tauto.
Qed.

Lemma traverse_Some_map {A B : Type} (f : A -> option B) (g : A -> B) (l : list A) :
  (forall a, In a l -> f a = Some (g a)) -> traverse f l = Some (map g l).
Proof.
  induction l as [|a l IH]; simpl; intros H; [reflexivity|].
  rewrite (H a) by tauto. rewrite IH; [reflexivity|]. intros; apply H; tauto.
Qed.

Lemma traverse_In {A B : Type} (f : A -> option B) (l : list A) :
  forall out a, traverse f l = Some out -> In a l -> exists b, f a = Some b /\ In b out.
Proof.
  induction l as [|x l IH]; simpl; intros out a H Ha; [destruct Ha|].
  destruct (f x) as [b|] eqn:E; [|discriminate].
  destruct (traverse f l) as [bs|]; [|discriminate].
  injection H as <-. destruct Ha as [->|Ha].
  - exists b. simpl. tauto.
  - destruct (IH _ _ eq_refl Ha) as (b' & E' & I). exists b'. simpl. tauto.
Qed.

Lemma traverse_app {A B : Type} (f : A -> option B) (l1 l2 : list A) :
  traverse f (l1 ++ l2)
  = match traverse f l1, traverse f l2 with
    | Some a, Some b => Some (a ++ b)
    | _, _ => None
    end.
Proof.
  induction l1 as [|x l1 IH]; simpl.
  - now destruct (traverse f l2).
  - destruct (f x); [|reflexivity]. rewrite IH.
    destruct (traverse f l1); [|reflexivity]. now destruct (traverse f l2).
Qed.

Lemma find_index_Some (n : string) (cols : list string) :
  forall i, find_index n cols = Some i ->
  i < List.length cols /\ nth i cols ""%string = n.
Proof.
  induction cols as [|c cols IH]; simpl; intros i; [discriminate|].
  destruct (String.eqb c n) eqn:E.
  - apply String.eqb_eq in E. intros [= <-]. split; [lia | assumption].
  - destruct (find_index n cols) as [j|]; [|discriminate].
    intros [= <-]. destruct (IH _ eq_refl). split; [lia | assumption].
Qed.

Lemma find_index_None (n : string) (cols : list string) :
  find_index n cols = None <-> ~ In n cols.
Proof.
  induction cols as [|c cols IH]; simpl; [tauto|].
  destruct (String.eqb c n) eqn:E.
  - apply String.eqb_eq in E. split; [discriminate | tauto].
  - apply String.eqb_neq in E. destruct (find_index n cols) as [j|]; simpl.
    + split; [discriminate|]. intros H. exfalso.
      assert (N : ~ In n cols) by tauto.
      apply IH in N. discriminate.
    + split; [|reflexivity]. intros _ [H|H]; [congruence|]. now apply IH.
Qed.

Lemma find_index_skip (n : string) (pre l : list string) :
  ~ In n pre ->
  find_index n (pre ++ l) = option_map (Nat.add (List.length pre)) (find_index n l).
Proof.
  induction pre as [|c pre IH]; simpl; intros N.
  - now destruct (find_index n l).
  - destruct (String.eqb c n) eqn:E; [apply String.eqb_eq in E; tauto|].
    rewrite IH by tauto. now destruct (find_index n l).
Qed.

Lemma find_index_head (n : string) (l : list string) :
  find_index n (n :: l) = Some 0.
Proof. simpl. now rewrite String.eqb_refl. Qed.

(** In a list without repetition, a column reference resolves to the first
    (and only) position of its name. *)
Lemma resolve_column_NoDup (n : string) (cols : list string) :
  NoDup cols -> resolve_column n cols = find_index n cols.
Proof.
  intros N. unfold resolve_column.
  destruct (find_index n cols) as [i|] eqn:E; [|reflexivity].
  destruct (mem n (skipn (S i) cols)) eqn:M; [|reflexivity].
  exfalso. apply mem_In in M.
  destruct (find_index_Some _ _ _ E) as [L X].
  rewrite <- (firstn_skipn (S i) cols) in N.
  apply NoDup_app_remove_l in N as N2.
  assert (I : In n (firstn (S i) cols)).
  { rewrite <- X at 1. clear - L. revert i L.
    induction cols as [|c cols IH]; intros i L; simpl in *; [lia|].
    destruct i; [now left|]. right. apply IH. lia. }
  clear - N I M. revert I M N. generalize (firstn (S i) cols) (skipn (S i) cols).
  intros a b I M N. induction a as [|x a IH]; [destruct I|].
  simpl in N. inversion N; subst. destruct I as [->|I].
  - apply H1. apply in_or_app. now right.
  - now apply IH.
Qed.

Lemma resolve_column_Some (n : string) (cols : list string) (i : nat) :
  resolve_column n cols = Some i -> i < List.length cols /\ nth i cols ""%string = n.
Proof.
  unfold resolve_column. destruct (find_index n cols) as [j|] eqn:E; [|discriminate].
  destruct (mem n (skipn (S j) cols)); [discriminate|].
  intros [= <-]. now apply find_index_Some.
Qed.

(** The positions of the names of a repetition-free prefix. *)
Lemma traverse_find_index_block (pre a b : list string) :
  NoDup (pre ++ a) ->
  traverse (fun k => find_index k (pre ++ a ++ b)) a
  = Some (seq (List.length pre) (List.length a)).
Proof.
  revert pre. induction a as [|x a IH]; intros pre N; simpl; [reflexivity|].
  assert (Nx : ~ In x pre).
  { intros H. apply NoDup_remove_2 in N. apply N, in_or_app. now left. }
  rewrite (find_index_skip x pre (x :: a ++ b) Nx), find_index_head. simpl.
  specialize (IH (pre ++ [x])).
  rewrite <- !app_assoc in IH. simpl in IH. rewrite IH by assumption.
  rewrite length_app. simpl. now rewrite Nat.add_0_r, Nat.add_1_r.
Qed.

Lemma traverse_find_index_prefix (a b : list string) :
  NoDup a ->
  traverse (fun k => find_index k (a ++ b)) a = Some (seq 0 (List.length a)).
Proof. intros N. exact (traverse_find_index_block [] a b N). Qed.

Lemma traverse_resolve_all (a : list string) :
  NoDup a ->
  traverse (fun k => resolve_column k a) a = Some (seq 0 (List.length a)).
Proof.
  intros N.
  rewrite (traverse_ext _ (fun k => find_index k a)).
  - pose proof (traverse_find_index_prefix a [] N) as H.
    now rewrite app_nil_r in H.
  - intros k _. now apply resolve_column_NoDup.
Qed.

Lemma traverse_resolve_prefix (a b : list string) :
  NoDup (a ++ b) ->
  traverse (fun k => resolve_column k (a ++ b)) a = Some (seq 0 (List.length a)).
Proof.
  intros N.
  rewrite (traverse_ext _ (fun k => find_index k (a ++ b))).
  - apply traverse_find_index_prefix. now apply NoDup_app_remove_r in N.
  - intros k _. now apply resolve_column_NoDup.
Qed.

Lemma skipn_nth_cons {A : Type} (d : A) (l : list A) :
  forall s, s < List.length l -> skipn s l = nth s l d :: skipn (S s) l.
Proof.
  induction l as [|x l IH]; intros s L; simpl in L; [lia|].
  destruct s; [reflexivity|]. simpl. apply IH. lia.
Qed.

Lemma pick_seq {A : Type} (d : A) (l : list A) (n : nat) :
  forall s, s + n <= List.length l -> pick d (seq s n) l = firstn n (skipn s l).
Proof.
  unfold pick. induction n as [|n IH]; intros s L; simpl; [reflexivity|].
  rewrite (skipn_nth_cons d l s) by lia. simpl. f_equal.
  rewrite IH by lia. reflexivity.
Qed.

Lemma pick_seq_all {A : Type} (d : A) (l : list A) :
  pick d (seq 0 (List.length l)) l = l.
Proof. rewrite pick_seq by lia. simpl. apply firstn_all. Qed.

Lemma pick_seq_app_l {A : Type} (d : A) (a b : list A) :
  pick d (seq 0 (List.length a)) (a ++ b) = a.
Proof.
  rewrite pick_seq by (rewrite length_app; lia). simpl.
  rewrite firstn_app, Nat.sub_diag, firstn_all. simpl. apply app_nil_r.
Qed.

Lemma pick_seq_app_r {A : Type} (d : A) (a b : list A) :
  pick d (seq (List.length a) (List.length b)) (a ++ b) = b.
Proof.
  rewrite pick_seq by (rewrite length_app; lia).
  rewrite skipn_app, Nat.sub_diag, skipn_all. simpl. apply firstn_all.
Qed.

Lemma pick_length {A : Type} (d : A) (idxs : list nat) (l : list A) :
  List.length (pick d idxs l) = List.length idxs.
Proof. unfold pick. apply length_map. Qed.

Lemma pick_map {A B : Type} (f : A -> B) (d : A) (idxs : list nat) (l : list A) :
  pick (f d) idxs (map f l) = map f (pick d idxs l).
Proof.
  unfold pick. rewrite map_map. apply map_ext. intros i. apply map_nth.
Qed.

Lemma filter_none {A : Type} (p : A -> bool) (l : list A) :
  (forall x, In x l -> p x = false) -> filter p l = [].
Proof.
  induction l as [|x l IH]; simpl; intros H; [reflexivity|].
  rewrite (H x) by tauto. apply IH. intros; apply H; tauto.
Qed.

Lemma filter_every {A : Type} (p : A -> bool) (l : list A) :
  (forall x, In x l -> p x = true) -> filter p l = l.
Proof.
  induction l as [|x l IH]; simpl; intros H; [reflexivity|].
  rewrite (H x) by tauto. f_equal. apply IH. intros; apply H; tauto.
Qed.

Lemma filter_seq_block (p : nat -> bool) (m n : nat) :
  (forall i, i < m -> p i = false) ->
  (forall i, m <= i < m + n -> p i = true) ->
  filter p (seq 0 (m + n)) = seq m n.
Proof.
  intros F T. rewrite seq_app, filter_app. simpl.
  rewrite filter_none, filter_every; [reflexivity | |].
  - intros x Hx. apply in_seq in Hx. apply T. lia.
  - intros x Hx. apply in_seq in Hx. apply F. lia.
Qed.

Lemma nat_mem_seq (i s n : nat) : nat_mem i (seq s n) = true <-> s <= i < s + n.
Proof.
  unfold nat_mem. rewrite existsb_exists. split.
  - intros (x & Hx & E). apply Nat.eqb_eq in E. subst. now apply in_seq in Hx.
  - intros H. exists i. split; [apply in_seq; lia | apply Nat.eqb_refl].
Qed.

Lemma others_prefix (m n : nat) : others (seq 0 m) (m + n) = seq m n.
Proof.
  unfold others. apply filter_seq_block.
  - intros i L. apply negb_false_iff. apply nat_mem_seq. lia.
  - intros i L. apply negb_true_iff.
    destruct (nat_mem i (seq 0 m)) eqn:E; [|reflexivity].
    apply nat_mem_seq in E. lia.
Qed.

Lemma flat_map_ext_in {A B : Type} (f g : A -> list B) (l : list A) :
  (forall a, In a l -> f a = g a) -> flat_map f l = flat_map g l.
Proof.
  induction l as [|x l IH]; simpl; intros H; [reflexivity|].
  rewrite (H x) by tauto. f_equal. apply IH. intros; apply H; tauto.
Qed.

Lemma flat_map_singleton {A B : Type} (f : A -> B) (l : list A) :
  flat_map (fun a => [f a]) l = map f l.
Proof. induction l as [|x l IH]; simpl; [reflexivity | now rewrite IH]. Qed.

Lemma map_flat_map {A B C : Type} (f : A -> list B) (g : B -> C) (l : list A) :
  map g (flat_map f l) = flat_map (fun a => map g (f a)) l.
Proof.
  induction l as [|x l IH]; simpl; [reflexivity|].
  now rewrite map_app, IH.
Qed.

(** ** DataFrame operators *)

Lemma columns_length (df : DataFrame) :
  List.length (columns df) = List.length (schema df).
Proof. apply length_map. Qed.

Lemma row_typed_length (sch : list (string * dtype)) :
  forall r, row_typed sch r = true -> List.length r = List.length sch.
Proof.
  induction sch as [|c sch IH]; intros [|v r]; simpl; try discriminate; auto.
  intros H. apply andb_true_iff in H as [_ H]. now rewrite (IH _ H).
Qed.

Lemma well_formed_sized (df : DataFrame) : well_formed df = true -> sized df.
Proof.
  unfold well_formed, sized. rewrite forallb_forall, Forall_forall.
  intros H r Hr. now apply row_typed_length, H.
Qed.

Lemma pick_resolved (cols names : list string) :
  forall idxs, traverse (fun n => resolve_column n cols) names = Some idxs ->
  pick ""%string idxs cols = names.
Proof.
  induction names as [|n names IH]; simpl; intros idxs E.
  - now injection E as <-.
  - destruct (resolve_column n cols) as [i|] eqn:R; [|discriminate].
    destruct (traverse _ names) as [js|]; [|discriminate].
    injection E as <-. simpl. f_equal; [|now apply IH].
    now destruct (resolve_column_Some _ _ _ R).
Qed.

Lemma columns_pick (idxs : list nat) (sch : list (string * dtype)) :
  map fst (pick no_field idxs sch) = pick ""%string idxs (map fst sch).
Proof. symmetry. exact (pick_map fst no_field idxs sch). Qed.

Lemma select_spec (names : list string) (df out : DataFrame) :
  select names df = Some out ->
  columns out = names /\
  exists idxs, traverse (fun n => resolve_column n (columns df)) names = Some idxs
               /\ rows out = map (pick VNull idxs) (rows df).
Proof.
  unfold select.
  destruct (traverse _ names) as [idxs|] eqn:E; [|discriminate].
  intros [= <-]. split; [|eauto].
  unfold columns at 1. simpl. rewrite columns_pick.
  now apply pick_resolved.
Qed.

Lemma select_count (names : list string) (df out : DataFrame) :
  select names df = Some out -> count out = count df.
Proof.
  intros H. destruct (select_spec _ _ _ H) as (_ & idxs & _ & R).
  unfold count. rewrite R. apply length_map.
Qed.

Lemma select_sized (names : list string) (df out : DataFrame) :
  select names df = Some out -> sized out.
Proof.
  unfold select. destruct (traverse _ names) as [idxs|]; [|discriminate].
  intros [= <-]. unfold sized. simpl. apply Forall_forall. intros r Hr.
  apply in_map_iff in Hr as (r0 & <- & _). now rewrite !pick_length.
Qed.

(** Selecting all the columns of a frame, in order, changes nothing. *)
Lemma select_all_rows (df out : DataFrame) :
  NoDup (columns df) -> sized df ->
  select (columns df) df = Some out -> rows out = rows df.
Proof.
  intros N S H. destruct (select_spec _ _ _ H) as (_ & idxs & T & R).
  rewrite traverse_resolve_all in T by assumption. injection T as <-.
  rewrite R. rewrite <- (map_id (rows df)) at 2.
  apply map_ext_in. intros r Hr.
  unfold sized in S. rewrite Forall_forall in S. specialize (S _ Hr).
  rewrite columns_length, <- S. apply pick_seq_all.
Qed.

Lemma select_all_Some (df : DataFrame) :
  NoDup (columns df) -> exists out, select (columns df) df = Some out.
Proof.
  intros N. unfold select. rewrite traverse_resolve_all by assumption. eauto.
Qed.

Lemma columns_renamed (existing new : string) (df : DataFrame) :
  columns (with_column_renamed existing new df)
  = map (fun c => if String.eqb c existing then new else c) (columns df).
Proof.
  unfold columns, with_column_renamed. simpl. rewrite !map_map.
  apply map_ext. intros [c t]. simpl. now destruct (String.eqb c existing).
Qed.

Lemma rename_absent (existing new : string) (l : list string) :
  ~ In existing l ->
  map (fun c => if String.eqb c existing then new else c) l = l.
Proof.
  intros N. rewrite <- (map_id l) at 2. apply map_ext_in. intros c Hc.
  destruct (String.eqb c existing) eqn:E; [|reflexivity].
  apply String.eqb_eq in E. subst. contradiction.
Qed.

Lemma keys_match_firstn (m : nat) (a b : Row) :
  forall s n, s + n <= m ->
  keys_match (seq s n) (seq s n) (firstn m a) b = keys_match (seq s n) (seq s n) a b.
Proof.
  intros s n. revert s. induction n as [|n IH]; intros s L; simpl; [reflexivity|].
  rewrite IH by lia. f_equal. f_equal.
  rewrite nth_firstn. destruct (s <? m) eqn:E; [reflexivity|].
  apply Nat.ltb_ge in E. lia.
Qed.

(** The left join of the key-resolution loop: the keys are the first
    columns on both sides, and the dimension side has one more column. *)
Lemma left_join_keys_first (left right : DataFrame) (keys rest : list string)
  (fk : string) :
  keys <> [] ->
  columns left = keys ++ rest -> columns right = keys ++ [fk] ->
  NoDup keys -> sized left ->
  exists joined,
    left_join left right keys = Some joined /\
    columns joined = keys ++ rest ++ [fk] /\
    rows joined =
      flat_map (fun a => map (fun v => a ++ [v])
                             (fk_values (firstn (List.length keys) a) (rows right)))
               (rows left).
Proof.
  intros NE CL CR N SL. unfold left_join.
  destruct keys as [|k0 keys0] eqn:EK; [congruence|]. rewrite <- EK in *.
  clear EK NE k0 keys0.
  rewrite CL, CR, !traverse_find_index_prefix by assumption.
  set (m := List.length keys).
  assert (LL : List.length (schema left) = m + List.length rest).
  { rewrite <- columns_length, CL, length_app. reflexivity. }
  assert (LR : List.length (schema right) = m + 1).
  { rewrite <- columns_length, CR, length_app. reflexivity. }
  rewrite LL, LR, !others_prefix.
  eexists. split; [reflexivity|]. split.
  - unfold columns at 1. cbn [schema]. rewrite !map_app, !columns_pick.
    change (map fst (schema left)) with (columns left).
    change (map fst (schema right)) with (columns right).
    rewrite CL, CR. subst m.
    rewrite pick_seq_app_l.
    rewrite pick_seq_app_r.
    change 1 with (List.length [fk]). now rewrite pick_seq_app_r.
  - cbn [rows]. apply flat_map_ext_in. intros a Ha.
    unfold sized in SL. rewrite Forall_forall in SL. specialize (SL _ Ha).
    rewrite LL in SL.
    assert (E1 : pick VNull (seq 0 m) a ++ pick VNull (seq m (List.length rest)) a = a).
    { rewrite !pick_seq by lia. simpl.
      rewrite (firstn_all2 (skipn m a)) by (rewrite length_skipn; lia).
      apply firstn_skipn. }
    unfold fk_values, partners.
    assert (Lk : List.length (firstn m a) = m) by (rewrite length_firstn; lia).
    rewrite Lk.
    assert (F : filter (keys_match (seq 0 m) (seq 0 m) a) (rows right)
                = filter (keys_match (seq 0 m) (seq 0 m) (firstn m a)) (rows right)).
    { apply filter_ext. intros b. symmetry. apply keys_match_firstn. lia. }
    rewrite F. clear F.
    destruct (filter (keys_match (seq 0 m) (seq 0 m) (firstn m a)) (rows right))
      as [|p ps].
    + cbn [map seq]. now rewrite app_assoc, E1.
    + rewrite map_map. apply map_ext. intros b.
      rewrite app_assoc, E1. reflexivity.
Qed.

(** ** One iteration of the key-resolution loop *)

Lemma drop_prefix (df : DataFrame) (keys rest : list string) :
  columns df = keys ++ rest ->
  (forall c, In c rest -> ~ In c keys) ->
  sized df ->
  columns (drop keys df) = rest /\
  rows (drop keys df) = map (skipn (List.length keys)) (rows df).
Proof.
  intros C D S. unfold drop.
  assert (L : List.length (schema df) = List.length keys + List.length rest).
  { rewrite <- columns_length, C, length_app. reflexivity. }
  assert (K : filter (fun i => negb (mem (nth i (columns df) ""%string) keys))
                     (seq 0 (List.length (schema df)))
              = seq (List.length keys) (List.length rest)).
  { rewrite L, C. apply filter_seq_block.
    - intros i Hi. apply negb_false_iff, mem_In.
      rewrite app_nth1 by assumption. now apply nth_In.
    - intros i Hi. apply negb_true_iff, mem_false.
      rewrite app_nth2 by lia. apply D, nth_In. lia. }
  rewrite K. split.
  - unfold columns at 1. cbn [schema]. rewrite columns_pick.
    change (map fst (schema df)) with (columns df). rewrite C.
    apply pick_seq_app_r.
  - cbn [rows]. apply map_ext_in. intros r Hr.
    unfold sized in S. rewrite Forall_forall in S. specialize (S _ Hr).
    rewrite pick_seq by lia. apply firstn_all2. rewrite length_skipn. lia.
Qed.

Lemma join_dimension_step (db : database) (facts : DataFrame)
  (name : string) (keys rest : list string) (t : pg_table) :
  keys <> [] ->
  columns facts = keys ++ rest ->
  NoDup keys ->
  (forall c, In c rest -> ~ In c keys) ->
  ~ In "id"%string keys ->
  ~ In (fk_column_name name) keys ->
  sized facts ->
  dict_get name db = Some t ->
  table_columns t = keys ++ ["id"%string] ->
  exists out,
    join_dimension db facts (name, keys) = Some out /\
    columns out = rest ++ [fk_column_name name] /\
    sized out /\
    rows out =
      flat_map (fun a => map (fun v => skipn (List.length keys) a ++ [v])
                             (fk_values (firstn (List.length keys) a) (tb_rows t)))
               (rows facts).
Proof.
  intros NE C N D Nid Nfk S G T.
  unfold join_dimension, read_jdbc. cbn [fst snd]. rewrite G.
  set (dim := with_column_renamed "id" (fk_column_name name)
                {| schema := tb_schema t; rows := tb_rows t |}).
  assert (CD : columns dim = keys ++ [fk_column_name name]).
  { unfold dim. rewrite columns_renamed.
    change (columns {| schema := tb_schema t; rows := tb_rows t |})
      with (table_columns t).
    rewrite T, map_app, rename_absent by assumption.
    cbn [map]. now rewrite String.eqb_refl. }
  destruct (left_join_keys_first facts dim keys rest (fk_column_name name)
              NE C CD N S)
    as (joined & J & CJ & RJ).
  rewrite J.
  assert (SJ : sized joined).
  { unfold sized. rewrite <- columns_length, CJ, RJ.
    apply Forall_forall. intros r Hr.
    apply in_flat_map in Hr as (a & Ha & Hr).
    apply in_map_iff in Hr as (v & <- & _).
    unfold sized in S. rewrite Forall_forall in S. specialize (S _ Ha).
    rewrite <- columns_length, C in S.
    rewrite !length_app in *. cbn [List.length]. lia. }
  assert (D' : forall c, In c (rest ++ [fk_column_name name]) -> ~ In c keys).
  { intros c Hc. apply in_app_or in Hc as [Hc|[<-|[]]]; auto. }
  destruct (drop_prefix joined keys (rest ++ [fk_column_name name]) CJ D' SJ)
    as (CO & RO).
  eexists. split; [reflexivity|]. split; [exact CO|]. split.
  - unfold sized. rewrite <- columns_length, CO, RO.
    apply Forall_forall. intros r Hr.
    apply in_map_iff in Hr as (r0 & <- & Hr0).
    unfold sized in SJ. rewrite Forall_forall in SJ. specialize (SJ _ Hr0).
    rewrite <- columns_length, CJ in SJ.
    rewrite length_skipn, SJ, !length_app. cbn [List.length]. lia.
  - rewrite RO, RJ, map_flat_map. apply flat_map_ext_in. intros a Ha.
    rewrite map_map. apply map_ext. intros v.
    unfold sized in S. rewrite Forall_forall in S. specialize (S _ Ha).
    rewrite <- columns_length, C, length_app in S.
    rewrite skipn_app.
    replace (List.length keys - List.length a) with 0 by lia. reflexivity.
Qed.

(** ** The key-resolution loop *)

Lemma NoDup_app_inv {A : Type} (a b : list A) :
  NoDup (a ++ b) -> NoDup a /\ NoDup b /\ (forall x, In x a -> ~ In x b).
Proof.
  induction a as [|x a IH]; simpl; intros N.
  - split; [constructor|]. split; [assumption | tauto].
  - inversion N as [|? ? N1 N2]; subst.
    destruct (IH N2) as (Na & Nb & D). split; [|split].
    + constructor; [|assumption]. intros H. apply N1, in_or_app. now left.
    + assumption.
    + intros y [<-|Hy]; [|now apply D].
      intros H. apply N1, in_or_app. now right.
Qed.

Lemma names_distinct_head (name : string) (ks : list string)
  (todo : dict (list string)) (rest : list string) :
  names_distinct ((name, ks) :: todo) rest ->
  NoDup ks /\
  (forall c, In c (List.concat (values todo) ++ rest) -> ~ In c ks) /\
  ~ In "id"%string ks /\
  ~ In (fk_column_name name) ks.
Proof.
  unfold names_distinct, values, keys. cbn [map List.concat fst snd].
  rewrite <- !app_assoc. intros N.
  destruct (NoDup_app_inv _ _ N) as (Nk & _ & D).
  split; [assumption|].
  assert (X : forall c,
             In c (List.concat (map snd todo) ++ rest
                   ++ (fk_column_name name :: map fk_column_name (map fst todo))
                   ++ ["id"%string]) -> ~ In c ks).
  { intros c Hc Hk. exact (D c Hk Hc). }
  split; [|split].
  - intros c Hc. apply X. rewrite app_assoc. apply in_or_app. now left.
  - apply X. apply in_or_app. right. apply in_or_app. right.
    apply in_or_app. right. now left.
  - apply X. apply in_or_app. right. apply in_or_app. right.
    apply in_or_app. left. now left.
Qed.

Lemma names_distinct_tail (name : string) (ks : list string)
  (todo : dict (list string)) (rest : list string) :
  names_distinct ((name, ks) :: todo) rest ->
  names_distinct todo (rest ++ [fk_column_name name]).
Proof.
  unfold names_distinct, values, keys. cbn [map List.concat fst snd].
  rewrite <- !app_assoc. intros N. apply NoDup_app_remove_l in N. exact N.
Qed.

Lemma join_dimension_Some (db : database) (facts out : DataFrame)
  (entry : string * list string) :
  join_dimension db facts entry = Some out ->
  snd entry <> [] /\ exists t, dict_get (fst entry) db = Some t.
Proof.
  unfold join_dimension, read_jdbc.
  destruct (dict_get (fst entry) db) as [t|]; [|discriminate].
  unfold left_join. destruct (snd entry); [discriminate|].
  intros _. split; [discriminate | eauto].
Qed.

(** The columns of the running frame: every iteration removes the natural
    keys of its dimension from the front and appends the dimension's
    foreign key. *)
Lemma join_dimensions_columns (db : database) :
  forall (todo : dict (list string)) (facts : DataFrame) (rest : list string)
         (out : DataFrame),
    dimensions_shaped db todo ->
    names_distinct todo rest ->
    columns facts = List.concat (values todo) ++ rest ->
    sized facts ->
    join_dimensions db facts todo = Some out ->
    columns out = rest ++ map fk_column_name (keys todo) /\ sized out.
Proof.
  induction todo as [|[name ks] todo IH]; intros facts rest out Sh N C S J.
  - cbn in *. injection J as <-. now rewrite app_nil_r.
  - cbn [join_dimensions] in J.
    destruct (join_dimension db facts (name, ks)) as [facts'|] eqn:E; [|discriminate].
    destruct (join_dimension_Some _ _ _ _ E) as (NE & t & G). cbn [fst snd] in G, NE.
    destruct (names_distinct_head _ _ _ _ N) as (Nk & D & Nid & Nfk).
    cbn [values map List.concat snd] in C. rewrite <- app_assoc in C.
    destruct (join_dimension_step db facts name ks _ t NE C Nk D Nid Nfk S G)
      as (out' & E' & C' & S' & _).
    { apply (Sh name ks t); [now left | assumption]. }
    rewrite E in E'. injection E' as <-.
    rewrite <- app_assoc in C'.
    destruct (IH facts' (rest ++ [fk_column_name name]) out) as (CO & SO); auto.
    + intros n k t' I. apply Sh. now right.
    + exact (names_distinct_tail _ _ _ _ N).
    + split; [|assumption]. rewrite CO, <- app_assoc. reflexivity.
Qed.

Lemma fk_values_single (key : list value) (dim_rows : list Row) :
  List.length (partners key dim_rows) <= 1 ->
  fk_values key dim_rows = [surrogate_key key dim_rows].
Proof.
  unfold surrogate_key, fk_values.
  destruct (partners key dim_rows) as [|p [|q ps]]; simpl; intros L;
    [reflexivity | reflexivity | lia].
Qed.

Lemma resolved_keys_app (db : database) :
  forall (todo : dict (list string)) (a extra : Row),
    List.length (List.concat (values todo)) <= List.length a ->
    resolved_keys db todo (a ++ extra) = resolved_keys db todo a.
Proof.
  induction todo as [|[name ks] todo IH]; intros a extra L; [reflexivity|].
  cbn [values map List.concat snd] in L. rewrite length_app in L.
  cbn [resolved_keys].
  rewrite firstn_app, skipn_app.
  assert (Z0 : List.length ks - List.length a = 0) by lia. rewrite Z0.
  cbn [firstn skipn]. rewrite app_nil_r. f_equal.
  apply IH. rewrite length_skipn. unfold values. lia.
Qed.

Lemma single_partner_app (db : database) :
  forall (todo : dict (list string)) (a extra : Row),
    List.length (List.concat (values todo)) <= List.length a ->
    single_partner db todo a -> single_partner db todo (a ++ extra).
Proof.
  induction todo as [|[name ks] todo IH]; intros a extra L; [trivial|].
  cbn [values map List.concat snd] in L. rewrite length_app in L.
  cbn [single_partner].
  rewrite firstn_app, skipn_app.
  assert (Z0 : List.length ks - List.length a = 0) by lia. rewrite Z0.
  cbn [firstn skipn]. rewrite app_nil_r. intros [H1 H2]. split; [assumption|].
  apply IH; [|assumption]. rewrite length_skipn. unfold values. lia.
Qed.

(** The rows of the running frame, when no key has two partners: each row
    loses its natural keys and gains its surrogate keys, and no row is added
    or removed. *)
Lemma join_dimensions_rows (db : database) :
  forall (todo : dict (list string)) (facts : DataFrame) (rest : list string)
         (out : DataFrame),
    dimensions_shaped db todo ->
    names_distinct todo rest ->
    columns facts = List.concat (values todo) ++ rest ->
    sized facts ->
    Forall (single_partner db todo) (rows facts) ->
    join_dimensions db facts todo = Some out ->
    rows out
    = map (fun a => skipn (List.length (List.concat (values todo))) a
                    ++ resolved_keys db todo a)
          (rows facts).
Proof.
  induction todo as [|[name ks] todo IH]; intros facts rest out Sh N C S U J.
  - cbn in *. injection J as <-. rewrite <- (map_id (rows facts)) at 1.
    apply map_ext. intros a. now rewrite app_nil_r.
  - cbn [join_dimensions] in J.
    destruct (join_dimension db facts (name, ks)) as [facts'|] eqn:E; [|discriminate].
    destruct (join_dimension_Some _ _ _ _ E) as (NE & t & G). cbn [fst snd] in G, NE.
    destruct (names_distinct_head _ _ _ _ N) as (Nk & D & Nid & Nfk).
    unfold values in *. cbn [map List.concat snd] in *.
    rewrite <- app_assoc in C.
    destruct (join_dimension_step db facts name ks _ t NE C Nk D Nid Nfk S G)
      as (out' & E' & C' & S' & R').
    { apply (Sh name ks t); [now left | assumption]. }
    rewrite E in E'. injection E' as <-.
    rewrite <- app_assoc in C'.
    assert (DR : table_rows db name = tb_rows t).
    { unfold table_rows. now rewrite G. }
    assert (SZ : forall a, In a (rows facts) ->
                 List.length a = List.length ks
                                 + List.length (List.concat (map snd todo))
                                 + List.length rest).
    { intros a Ha. unfold sized in S. rewrite Forall_forall in S.
      rewrite (S _ Ha), <- columns_length, C, !length_app. lia. }
    assert (R1 : rows facts'
                 = map (fun a => skipn (List.length ks) a
                                 ++ [surrogate_key (firstn (List.length ks) a)
                                                   (tb_rows t)])
                       (rows facts)).
    { rewrite R', <- flat_map_singleton. apply flat_map_ext_in. intros a Ha.
      rewrite Forall_forall in U. specialize (U _ Ha).
      cbn [single_partner] in U. destruct U as [U _]. rewrite DR in U.
      now rewrite (fk_values_single _ _ U). }
    rewrite (IH facts' (rest ++ [fk_column_name name]) out); auto.
    + rewrite R1, map_map. apply map_ext_in. intros a Ha.
      specialize (SZ _ Ha).
      cbn [resolved_keys].
      rewrite DR, resolved_keys_app
        by (rewrite length_skipn; unfold values; lia).
      rewrite skipn_app, skipn_skipn, length_skipn, length_app.
      assert (Z0 : List.length (List.concat (map snd todo))
                   - (List.length a - List.length ks) = 0) by lia.
      rewrite Z0. cbn [skipn]. rewrite <- !app_assoc. f_equal.
      f_equal. lia.
    + intros n k t' I. apply Sh. now right.
    + exact (names_distinct_tail _ _ _ _ N).
    + rewrite R1. apply Forall_forall. intros r Hr.
      apply in_map_iff in Hr as (a & <- & Ha).
      rewrite Forall_forall in U. specialize (U _ Ha).
      cbn [single_partner] in U. destruct U as [_ U].
      apply single_partner_app; [|assumption].
      rewrite length_skipn, (SZ _ Ha). unfold values. lia.
Qed.

(** ** Dimension frames *)

Lemma first_duplicate_None (names : list string) :
  first_duplicate names = None <-> NoDup names.
Proof.
  induction names as [|n names IH]; simpl.
  - split; [constructor | reflexivity].
  - destruct (mem n names) eqn:E.
    + split; [discriminate|]. intros N. inversion N; subst.
      apply mem_In in E. contradiction.
    + apply mem_false in E. rewrite IH. split.
      * now constructor.
      * intros N. now inversion N.
Qed.

Lemma distinct_names_NoDup (names : list string) :
  distinct_names names = true <-> NoDup names.
Proof.
  unfold distinct_names. rewrite <- first_duplicate_None.
  destruct (first_duplicate names); split; congruence.
Qed.

Lemma monotonically_increasing_id_length (hash : Row -> nat) (rs : list Row) :
  forall next, List.length (monotonically_increasing_id hash next rs) = List.length rs.
Proof.
  induction rs as [|r rs IH]; intros next; simpl; [reflexivity|].
  now rewrite IH.
Qed.

Lemma wrap64_small (z : Z) : (- 2 ^ 63 <= z < 2 ^ 63)%Z -> wrap64 z = z.
Proof. intros H. unfold wrap64. rewrite Z.mod_small; lia. Qed.

(** While a partition holds fewer than 2^33 rows, the generated ids are
    the partition index times 2^33 plus the row's rank in its partition. *)
Lemma monotonically_increasing_id_spec (hash : Row -> nat) (rs : list Row) :
  forall next,
    (forall p, 0 <= next p)%Z ->
    (forall p, next p + Z.of_nat (List.length rs) <= 2 ^ 33)%Z ->
    NoDup (monotonically_increasing_id hash next rs) /\
    forall id, In id (monotonically_increasing_id hash next rs) ->
               exists p c, p < SHUFFLE_PARTITIONS /\
                           (next p <= c < next p + Z.of_nat (List.length rs))%Z /\
                           id = (Z.of_nat p * 2 ^ 33 + c)%Z.
Proof.
  induction rs as [|r rs IH]; intros next P B.
  - split; [constructor | intros id []].
  - cbn [monotonically_increasing_id].
    set (p := hash r mod SHUFFLE_PARTITIONS).
    set (next' := fun q => if Nat.eqb q p then (next q + 1)%Z else next q).
    assert (Lp : p < SHUFFLE_PARTITIONS).
    { apply Nat.mod_upper_bound. discriminate. }
    assert (P' : forall q, (0 <= next' q)%Z).
    { intros q. unfold next'. specialize (P q). destruct (Nat.eqb q p); lia. }
    assert (B' : forall q, (next' q + Z.of_nat (List.length rs) <= 2 ^ 33)%Z).
    { intros q. unfold next'. specialize (B q). cbn [List.length] in B.
      destruct (Nat.eqb q p); lia. }
    destruct (IH next' P' B') as (N & S).
    assert (E : wrap64 (Z.shiftl (Z.of_nat p) 33 + next p)
                = (Z.of_nat p * 2 ^ 33 + next p)%Z).
    { rewrite Z.shiftl_mul_pow2 by lia. apply wrap64_small.
      specialize (P p). specialize (B p). unfold SHUFFLE_PARTITIONS in Lp.
      cbn [List.length] in B. lia. }
    rewrite E. split.
    + constructor; [|assumption]. intros I.
      destruct (S _ I) as (q & c & Lq & Hc & Hid).
      assert (Q : q = p).
      { specialize (P p). specialize (B p). specialize (P' q). specialize (B' q).
        cbn [List.length] in B. nia. }
      subst q. unfold next' in Hc. rewrite Nat.eqb_refl in Hc. lia.
    + intros id [<-|I].
      * exists p, (next p). specialize (P p). cbn [List.length]. repeat split; lia.
      * destruct (S _ I) as (q & c & Lq & Hc & Hid).
        exists q, c. split; [assumption|]. split; [|assumption].
        unfold next' in Hc. cbn [List.length]. specialize (P q).
        destruct (Nat.eqb q p); lia.
Qed.

Lemma with_column_fresh (name : string) (t : dtype) (vals : list value)
  (df : DataFrame) :
  ~ In name (columns df) ->
  with_column name t vals df
  = {| schema := schema df ++ [(name, t)];
       rows := map (fun rv => fst rv ++ [snd rv]) (combine (rows df) vals) |}.
Proof.
  intros N. unfold with_column.
  destruct (mem name (columns df)) eqn:E; [|reflexivity].
  apply mem_In in E. contradiction.
Qed.

Lemma combine_fst_length {A B : Type} (l : list A) (l' : list B) :
  List.length l = List.length l' -> map fst (combine l l') = l.
Proof.
  revert l'. induction l as [|x l IH]; intros [|y l'] H; simpl in *;
    try reflexivity; try discriminate.
  f_equal. apply IH. lia.
Qed.

Lemma map_combine_map_r {A B C D : Type} (f : A * C -> D) (g : B -> C)
  (l : list A) :
  forall l', map f (combine l (map g l'))
             = map (fun p => f (fst p, g (snd p))) (combine l l').
Proof.
  induction l as [|x l IH]; intros [|y l']; simpl; try reflexivity.
  f_equal. apply IH.
Qed.

(** What [dimension_frame] builds when no declared field is called [id]. *)
Lemma dimension_frame_spec (hash : Row -> nat) (config : table_config)
  (data frame : DataFrame) :
  dimension_frame hash config data = Some frame ->
  ~ In "id"%string (field_names config) ->
  exists idxs types,
    traverse (fun n => resolve_column n (columns data)) (field_names config)
    = Some idxs /\
    List.length types = List.length idxs /\
    select_cast (map (fun f => (field f, type f)) (fields config)) data
    = Some {| schema := combine (field_names config) types;
              rows := map (cast_row idxs types) (rows data) |} /\
    columns frame = field_names config ++ ["id"%string] /\
    rows frame
    = map (fun rv => fst rv ++ [VLong (snd rv)])
          (combine (nodup row_eq_dec (map (cast_row idxs types) (rows data)))
                   (monotonically_increasing_id hash (fun _ => 0%Z)
                      (nodup row_eq_dec (map (cast_row idxs types) (rows data))))).
Proof.
  unfold dimension_frame, select_cast, field_names. intros H Nid.
  assert (M : map fst (map (fun f => (field f, type f)) (fields config))
              = map field (fields config)).
  { rewrite map_map. reflexivity. }
  rewrite M in *.
  assert (T1 : traverse (fun f => resolve_column (fst f) (columns data))
                        (map (fun f => (field f, type f)) (fields config))
               = traverse (fun n => resolve_column n (columns data))
                          (map field (fields config))).
  { clear. induction (fields config) as [|f l IH]; simpl; [reflexivity|].
    now rewrite IH. }
  rewrite T1 in *.
  destruct (traverse (fun n => resolve_column n (columns data))
                     (map field (fields config))) as [idxs|] eqn:E1; [|discriminate].
  destruct (traverse (fun f => parse_data_type (snd f))
                     (map (fun f => (field f, type f)) (fields config)))
    as [types|] eqn:E2; [|discriminate].
  injection H as <-.
  assert (L1 : List.length idxs = List.length (fields config)).
  { rewrite (traverse_length _ _ _ E1). apply length_map. }
  assert (L2 : List.length types = List.length (fields config)).
  { rewrite (traverse_length _ _ _ E2). apply length_map. }
  exists idxs, types. split; [reflexivity|]. split; [lia|].
  split; [reflexivity|].
  rewrite with_column_fresh.
  - split.
    + unfold columns. cbn [schema distinct]. rewrite map_app.
      rewrite combine_fst_length by (rewrite length_map; lia). reflexivity.
    + cbn [rows distinct]. unfold cast_row.
      now rewrite map_combine_map_r.
  - unfold columns. cbn [schema distinct].
    rewrite combine_fst_length by (rewrite length_map; lia). exact Nid.
Qed.

(** ** A natural key has at most one partner in its dimension *)

Lemma keys_match_shift (x y : value) (a b : Row) (n : nat) :
  forall s,
    keys_match (seq (S s) n) (seq (S s) n) (x :: a) (y :: b)
    = keys_match (seq s n) (seq s n) a b.
Proof.
  induction n as [|n IH]; intros s; simpl; [reflexivity|].
  now rewrite IH.
Qed.

Lemma keys_match_all_join_eq (a : Row) :
  forall r extra,
    List.length r = List.length a ->
    keys_match (seq 0 (List.length a)) (seq 0 (List.length a)) a (r ++ extra)
    = all_join_eq a r.
Proof.
  induction a as [|x a IH]; intros [|y r] extra L; simpl in L; try discriminate.
  - reflexivity.
  - cbn [List.length seq keys_match all_join_eq app nth].
    rewrite keys_match_shift. f_equal. apply IH. lia.
Qed.

Lemma row_typed_nth (sch : list (string * dtype)) :
  forall r i, row_typed sch r = true -> i < List.length sch ->
              has_type (snd (nth i sch no_field)) (nth i r VNull) = true.
Proof.
  induction sch as [|c sch IH]; intros [|v r] i T L; simpl in *; try lia;
    try discriminate.
  apply andb_true_iff in T as [T1 T2].
  destruct i; [assumption|]. apply IH; [assumption | lia].
Qed.

Lemma all_join_eq_cast_rows (sch : list (string * dtype)) (d d1 d2 : Row) :
  row_typed sch d = true -> row_typed sch d1 = true -> row_typed sch d2 = true ->
  forall idxs types,
    (forall i, In i idxs -> i < List.length sch) ->
    all_join_eq (pick VNull idxs d) (cast_row idxs types d1) = true ->
    all_join_eq (pick VNull idxs d) (cast_row idxs types d2) = true ->
    cast_row idxs types d1 = cast_row idxs types d2.
Proof.
  intros T T1 T2. unfold cast_row, pick.
  induction idxs as [|i idxs IH]; intros [|t types] B; simpl; try reflexivity.
  intros E1 E2.
  apply andb_true_iff in E1 as [E1 E1']. apply andb_true_iff in E2 as [E2 E2'].
  assert (Li : i < List.length sch) by (apply B; now left).
  f_equal.
  - apply (join_eq_functional (snd (nth i sch no_field)) t (nth i d VNull));
      auto using row_typed_nth.
  - apply IH; auto. intros j Hj. apply B. now right.
Qed.

Lemma filter_unique {A : Type} (p : A -> bool) (l : list A) :
  NoDup l ->
  (forall x y, In x l -> In y l -> p x = true -> p y = true -> x = y) ->
  List.length (filter p l) <= 1.
Proof.
  induction l as [|x l IH]; simpl; intros N U; [lia|].
  inversion N as [|? ? N1 N2]; subst.
  destruct (p x) eqn:E.
  - assert (F : filter p l = []).
    { apply filter_none. intros y Hy. destruct (p y) eqn:Ey; [|reflexivity].
      exfalso. apply N1. rewrite (U x y); auto. }
    rewrite F. simpl. lia.
  - apply IH; [assumption|]. intros; apply U; auto.
Qed.

Lemma filter_combine_length {A B : Type} (q : A -> bool) (l : list A) :
  forall l' : list B,
    List.length (filter (fun rv => q (fst rv)) (combine l l'))
    <= List.length (filter q l).
Proof.
  induction l as [|x l IH]; intros [|y l']; cbn [combine filter fst List.length].
  - lia.
  - lia.
  - lia.
  - specialize (IH l'). destruct (q x); cbn [List.length]; lia.
Qed.

Lemma filter_map_length {A B : Type} (p : B -> bool) (f : A -> B) (l : list A) :
  List.length (filter p (map f l)) = List.length (filter (fun a => p (f a)) l).
Proof.
  induction l as [|x l IH]; simpl; [reflexivity|].
  destruct (p (f x)); simpl; now rewrite IH.
Qed.

Lemma traverse_resolve_bound (cols names : list string) :
  forall idxs, traverse (fun n => resolve_column n cols) names = Some idxs ->
               forall i, In i idxs -> i < List.length cols.
Proof.
  induction names as [|n names IH]; simpl; intros idxs E i Hi.
  - injection E as <-. destruct Hi.
  - destruct (resolve_column n cols) as [j|] eqn:R; [|discriminate].
    destruct (traverse _ names) as [js|]; [|discriminate].
    injection E as <-. destruct Hi as [<-|Hi].
    + now destruct (resolve_column_Some _ _ _ R).
    + now apply (IH js).
Qed.

(** A row of the dataset's schema meets at most one row of a dimension
    frame built from a dataset of that schema: the rows of the frame differ
    in their cast keys, and a key matches one cast key at most. *)
Lemma snapshot_partners_unique (hash : Row -> nat) (config : table_config)
  (snapshot frame : DataFrame) (idxs : list nat) :
  well_formed snapshot = true ->
  dimension_frame hash config snapshot = Some frame ->
  ~ In "id"%string (field_names config) ->
  traverse (fun n => resolve_column n (columns snapshot)) (field_names config)
  = Some idxs ->
  forall d, row_typed (schema snapshot) d = true ->
            List.length (partners (pick VNull idxs d) (rows frame)) <= 1.
Proof.
  intros W F Nid E d Hd.
  destruct (dimension_frame_spec _ _ _ _ F Nid)
    as (idxs' & types & E' & L & _ & _ & R).
  rewrite E in E'. injection E' as <-.
  rewrite R. unfold partners. rewrite pick_length.
  rewrite filter_map_length.
  set (casted := map (cast_row idxs types) (rows snapshot)).
  set (q := fun r : Row => all_join_eq (pick VNull idxs d) r).
  assert (LC : forall r, In r casted -> List.length r = List.length idxs).
  { intros r Hr. apply in_map_iff in Hr as (d0 & <- & _).
    unfold cast_row. rewrite length_map, length_combine. lia. }
  rewrite (filter_ext_in _ (fun rv => q (fst rv))).
  - etransitivity; [apply filter_combine_length|].
    apply filter_unique; [apply NoDup_nodup|].
    intros r1 r2 H1 H2. rewrite !nodup_In in *. unfold q.
    apply in_map_iff in H1 as (d1 & <- & Hd1).
    apply in_map_iff in H2 as (d2 & <- & Hd2).
    unfold well_formed in W. rewrite forallb_forall in W.
    apply (all_join_eq_cast_rows (schema snapshot)); auto.
    rewrite <- columns_length. exact (traverse_resolve_bound _ _ _ E).
  - intros [r v] Hrv. cbn [fst snd]. unfold q.
    apply in_combine_l in Hrv. apply nodup_In in Hrv.
    rewrite <- (pick_length VNull idxs d) at 1 2.
    apply keys_match_all_join_eq. rewrite pick_length. now apply LC.
Qed.

(** A row of the dataset meets at most one row of a dimension frame built
    from that dataset. *)
Lemma dimension_partners_unique (hash : Row -> nat) (config : table_config)
  (data frame : DataFrame) (idxs : list nat) :
  well_formed data = true ->
  dimension_frame hash config data = Some frame ->
  ~ In "id"%string (field_names config) ->
  traverse (fun n => resolve_column n (columns data)) (field_names config)
  = Some idxs ->
  forall d, In d (rows data) ->
            List.length (partners (pick VNull idxs d) (rows frame)) <= 1.
Proof.
  intros W F Nid E d Hd.
  apply (snapshot_partners_unique hash config data frame idxs W F Nid E).
  unfold well_formed in W. rewrite forallb_forall in W. exact (W d Hd).
Qed.

(** Projecting a dimension frame on its declared fields gives back the
    deduplicated projection of the dataset. *)
Lemma dimension_frame_deduplicated (hash : Row -> nat) (config : table_config)
  (data frame : DataFrame) :
  dimension_frame hash config data = Some frame ->
  NoDup (field_names config ++ ["id"%string]) ->
  exists casted projected,
    select_cast (map (fun f => (field f, type f)) (fields config)) data
    = Some casted /\
    select (field_names config) frame = Some projected /\
    rows projected = nodup row_eq_dec (rows casted) /\
    NoDup (rows projected).
Proof.
  intros F N.
  assert (Nid : ~ In "id"%string (field_names config)).
  { destruct (NoDup_app_inv _ _ N) as (_ & _ & D). intros H.
    apply (D _ H). now left. }
  destruct (dimension_frame_spec _ _ _ _ F Nid)
    as (idxs & types & E & L & SC & C & R).
  eexists. unfold select. rewrite C, traverse_resolve_prefix by assumption.
  eexists. split; [exact SC|]. split; [reflexivity|].
  cbn [rows].
  assert (X : map (pick VNull (seq 0 (List.length (field_names config)))) (rows frame)
              = nodup row_eq_dec (map (cast_row idxs types) (rows data))).
  { rewrite R, map_map.
    rewrite <- (combine_fst_length
                  (nodup row_eq_dec (map (cast_row idxs types) (rows data)))
                  (monotonically_increasing_id hash (fun _ => 0%Z)
                     (nodup row_eq_dec (map (cast_row idxs types) (rows data))))) at 3
      by (now rewrite monotonically_increasing_id_length).
    apply map_ext_in. intros [r v] Hrv. cbn [fst snd].
    apply in_combine_l in Hrv. apply nodup_In in Hrv.
    apply in_map_iff in Hrv as (d0 & <- & _).
    assert (LR : List.length (cast_row idxs types d0)
                 = List.length (field_names config)).
    { unfold cast_row. rewrite length_map, length_combine.
      pose proof (traverse_length _ _ _ E). lia. }
    rewrite <- LR. apply pick_seq_app_l. }
  rewrite X. split; [reflexivity | apply NoDup_nodup].
Qed.

(** ** The store *)

Lemma value_mem_In (v : value) (l : list value) : value_mem v l = true <-> In v l.
Proof.
  unfold value_mem. rewrite existsb_exists. split.
  - intros (x & Hx & E). apply value_eqb_eq in E. now subst.
  - intros H. exists v. split; [assumption | apply value_eqb_refl].
Qed.

Lemma values_distinct_NoDup (l : list value) :
  values_distinct l = true <-> NoDup l.
Proof.
  induction l as [|v l IH]; simpl.
  - split; [constructor | reflexivity].
  - rewrite andb_true_iff, negb_true_iff, IH. split.
    + intros [H1 H2]. constructor; [|assumption].
      intros I. apply value_mem_In in I. congruence.
    + intros N. inversion N; subst. split; [|assumption].
      destruct (value_mem v l) eqn:E; [|reflexivity].
      apply value_mem_In in E. contradiction.
Qed.

Lemma exec_statement_other (db db' : database) (st : statement) (name : string) :
  exec_statement db st = inr db' ->
  name <> statement_table st ->
  dict_get name db' = dict_get name db.
Proof.
  destruct st as [t cols|t col|t fks]; cbn [exec_statement statement_table];
    intros E N.
  - destruct (dict_get t db); [now injection E as <-|].
    destruct (first_duplicate _); [discriminate|].
    injection E as <-. now apply dict_get_set_other.
  - destruct (dict_get t db) as [tb|]; [|discriminate].
    destruct (tb_primary_key tb); [discriminate|].
    destruct (negb _); [discriminate|].
    destruct (value_mem _ _); [discriminate|].
    destruct (negb _); [discriminate|].
    injection E as <-. now apply dict_get_set_other.
  - destruct (dict_get t db) as [tb|]; [|discriminate].
    destruct (add_foreign_keys _ _ _ _); [discriminate|].
    injection E as <-. now apply dict_get_set_other.
Qed.

Lemma exec_script_other (script : list statement) (name : string) :
  forall db db',
    exec_script db script = inr db' ->
    (forall st, In st script -> name <> statement_table st) ->
    dict_get name db' = dict_get name db.
Proof.
  induction script as [|st script IH]; intros db db' E N; simpl in E.
  - now injection E as <-.
  - destruct (exec_statement db st) as [e|db1] eqn:E1; [discriminate|].
    rewrite (IH _ _ E) by (intros; apply N; now right).
    apply (exec_statement_other _ _ _ _ E1). apply N. now left.
Qed.

Lemma execute_store (conn conn' : connection) (script : list statement)
  (r : option pg_error) :
  execute conn script = (conn', r) -> store conn' = store conn.
Proof.
  unfold execute. destruct (txn conn).
  - destruct (negb (parses script)); [now intros [= <- _]|].
    destruct (exec_script _ _); now intros [= <- _].
  - destruct (negb (parses script)); [now intros [= <- _]|].
    destruct (exec_script _ _); now intros [= <- _].
  - now intros [= <- _].
Qed.

(** One iteration of the dimension loop that ends normally leaves the
    dimension's table in the store, with its primary key, and touches no
    other table. *)
Lemma write_dimension_spec (hash : Row -> nat) (data : DataFrame)
  (conn conn' : connection) (entry : string * table_config) :
  txn conn = Idle ->
  write_dimension hash data conn entry = Some conn' ->
  txn conn' = Idle /\
  (exists frame,
     dimension_frame hash (snd entry) data = Some frame /\
     dict_get (fst entry) (store conn') = Some (dimension_table frame) /\
     NoDup (column_values "id" (dimension_table frame))) /\
  (forall other, other <> fst entry ->
                 dict_get other (store conn') = dict_get other (store conn)).
Proof.
  intros I. unfold write_dimension.
  destruct (dimension_frame hash (snd entry) data) as [frame|]; [|discriminate].
  unfold write_jdbc_overwrite.
  destruct (first_duplicate (columns frame)); [discriminate|].
  destruct (referenced (fst entry) (store conn)); [discriminate|].
  unfold execute. cbn [txn store]. rewrite I. cbn [parses forallb negb andb].
  cbn [exec_script exec_statement]. rewrite dict_get_set_same.
  cbn [tb_primary_key].
  destruct (negb (mem "id" _)); [discriminate|].
  destruct (value_mem VNull _); [discriminate|].
  destruct (negb (values_distinct _)) eqn:D; [discriminate|].
  intros [= <-]. cbn [commit txn store]. split; [reflexivity|]. split.
  - exists frame. split; [reflexivity|]. split.
    + rewrite dict_get_set_same. reflexivity.
    + apply values_distinct_NoDup. apply negb_false_iff in D. exact D.
  - intros other N. now rewrite !dict_get_set_other.
Qed.

Lemma write_dimensions_spec (hash : Row -> nat) (data : DataFrame) :
  forall (config : dict table_config) (conn conn' : connection),
    txn conn = Idle ->
    NoDup (keys config) ->
    write_dimensions hash data conn config = Some conn' ->
    txn conn' = Idle /\
    (forall name c, In (name, c) config ->
       exists frame,
         dimension_frame hash c data = Some frame /\
         dict_get name (store conn') = Some (dimension_table frame) /\
         NoDup (column_values "id" (dimension_table frame))) /\
    (forall other, ~ In other (keys config) ->
                   dict_get other (store conn') = dict_get other (store conn)).
Proof.
  induction config as [|[name c] config IH]; intros conn conn' I N W.
  - cbn in W. injection W as <-. split; [assumption|]. split; [intros ? ? []|].
    reflexivity.
  - cbn [write_dimensions] in W.
    destruct (write_dimension hash data conn (name, c)) as [conn1|] eqn:W1;
      [|discriminate].
    destruct (write_dimension_spec _ _ _ _ _ I W1) as (I1 & (frame & F & G & D) & O1).
    unfold keys in N. cbn [map fst] in N. inversion N as [|? ? N1 N2]; subst.
    destruct (IH _ _ I1 N2 W) as (I' & A & O).
    split; [assumption|]. split.
    + intros n c' [H|H].
      * injection H as <- <-. exists frame. split; [assumption|].
        split; [|assumption]. rewrite O by assumption. exact G.
      * now apply A.
    + intros other No. unfold keys in No. cbn [map fst In] in No.
      rewrite O by (unfold keys; tauto). apply O1. cbn [fst]. intros ->. tauto.
Qed.

(** ** Building the fact table's schema *)

Lemma add_foreign_key_error (db : database) (name : string) (t : pg_table)
  (fk : foreign_key) (e : pg_error) :
  add_foreign_key db name t fk = inl e -> constraint_error name fk e.
Proof.
  unfold add_foreign_key, constraint_error.
  destruct (mem (fk_name fk) _); [intros [= <-]; tauto|].
  destruct (dict_get (fk_ref_table fk) db) as [ref|]; [|intros [= <-]; tauto].
  destruct (negb (mem (fk_column fk) _)); [intros [= <-]; tauto|].
  destruct (negb (mem (fk_ref_column fk) _)); [intros [= <-]; tauto|].
  destruct (tb_primary_key ref) as [pk|]; [|intros [= <-]; tauto].
  destruct (negb (String.eqb pk _)); [intros [= <-]; tauto|].
  destruct (forallb _ _); [discriminate | intros [= <-]; tauto].
Qed.

Lemma add_foreign_key_ok (db : database) (name : string) (t t' : pg_table)
  (fk : foreign_key) :
  add_foreign_key db name t fk = inr t' ->
  tb_foreign_keys t' = tb_foreign_keys t ++ [fk] /\
  tb_schema t' = tb_schema t /\ tb_rows t' = tb_rows t.
Proof.
  unfold add_foreign_key.
  destruct (mem (fk_name fk) _); [discriminate|].
  destruct (dict_get (fk_ref_table fk) db) as [ref|]; [|discriminate].
  destruct (negb (mem (fk_column fk) _)); [discriminate|].
  destruct (negb (mem (fk_ref_column fk) _)); [discriminate|].
  destruct (tb_primary_key ref) as [pk|]; [|discriminate].
  destruct (negb (String.eqb pk _)); [discriminate|].
  destruct (forallb _ _); [|discriminate].
  intros [= <-]. cbn. tauto.
Qed.

Lemma add_foreign_keys_error (db : database) (name : string)
  (fks : list foreign_key) (e : pg_error) :
  forall t, add_foreign_keys db name t fks = inl e ->
            exists fk, In fk fks /\ constraint_error name fk e.
Proof.
  induction fks as [|fk fks IH]; intros t; simpl; [discriminate|].
  destruct (add_foreign_key db name t fk) as [e'|t'] eqn:E.
  - intros [= <-]. exists fk. split; [now left|].
    now apply (add_foreign_key_error db name t).
  - intros H. destruct (IH _ H) as (fk' & I & C). exists fk'. split; [now right|].
    assumption.
Qed.

Lemma add_foreign_keys_ok (db : database) (name : string)
  (fks : list foreign_key) :
  forall t t', add_foreign_keys db name t fks = inr t' ->
               tb_foreign_keys t' = tb_foreign_keys t ++ fks.
Proof.
  induction fks as [|fk fks IH]; intros t t'; simpl.
  - intros [= <-]. now rewrite app_nil_r.
  - destruct (add_foreign_key db name t fk) as [e|t1] eqn:E; [discriminate|].
    intros H. rewrite (IH _ _ H).
    destruct (add_foreign_key_ok _ _ _ _ _ E) as (-> & _).
    now rewrite <- app_assoc.
Qed.

(** Whatever the connection's state, a failing build leaves the store as it
    was and the connection idle, and prints the store's error. *)
Lemma create_facts_table_with_failure (script : list statement)
  (conn : connection) (e : pg_error) :
  In (PrintedError e) (snd (create_facts_table_with script conn)) ->
  snd (execute conn script) = Some e /\
  create_facts_table_with script conn
  = ({| store := store conn; txn := Idle |}, [CreatingFactsTable; PrintedError e]).
Proof.
  unfold create_facts_table_with.
  destruct (execute conn script) as [conn' [e'|]] eqn:E; cbn [snd].
  - intros [H|[H|[]]]; [discriminate|]. injection H as <-.
    split; [reflexivity|]. unfold rollback.
    now rewrite (execute_store _ _ _ _ E).
  - intros [H|[H|[H|[]]]]; discriminate.
Qed.

Lemma execute_ok (conn conn' : connection) (script : list statement) :
  execute conn script = (conn', None) ->
  exists db',
    conn' = {| store := store conn; txn := Active db' |} /\
    exec_script (match txn conn with Active w => w | _ => store conn end) script
    = inr db'.
Proof.
  unfold execute. destruct (txn conn).
  - destruct (negb (parses script)); [discriminate|].
    destruct (exec_script _ _) as [e|db']; [discriminate|].
    intros [= <-]. eauto.
  - destruct (negb (parses script)); [discriminate|].
    destruct (exec_script _ _) as [e|db']; [discriminate|].
    intros [= <-]. eauto.
  - discriminate.
Qed.

Lemma execute_error (conn : connection) (script : list statement) (e : pg_error) :
  snd (execute conn script) = Some e ->
  e = InFailedSqlTransaction
  \/ e = SyntaxError /\ parses script = false
  \/ exists db, exec_script db script = inl e.
Proof.
  unfold execute. destruct (txn conn).
  - destruct (parses script); cbn [negb].
    + destruct (exec_script _ _) as [e'|db'] eqn:E; cbn [snd]; [|discriminate].
      intros [= <-]. eauto.
    + cbn [snd]. intros [= <-]. tauto.
  - destruct (parses script); cbn [negb].
    + destruct (exec_script _ _) as [e'|db'] eqn:E; cbn [snd]; [|discriminate].
      intros [= <-]. eauto.
    + cbn [snd]. intros [= <-]. tauto.
  - cbn [snd]. intros [= <-]. tauto.
Qed.

Lemma facts_table_script_run (table : string) (fact_columns : list string)
  (id_config : dict (list string)) (db : database) :
  exec_script db (facts_table_script table fact_columns id_config)
  = match dict_get table db with
    | Some t =>
        match add_foreign_keys db table t (fact_foreign_keys table id_config) with
        | inl e => inl e
        | inr t' => inr (dict_set table t' db)
        end
    | None =>
        match first_duplicate (map cd_name (fact_column_defs fact_columns id_config)) with
        | Some c => inl (DuplicateColumn c)
        | None =>
            let db1 := dict_set table
                         (create_table (fact_column_defs fact_columns id_config)) db in
            match add_foreign_keys db1 table
                    (create_table (fact_column_defs fact_columns id_config))
                    (fact_foreign_keys table id_config) with
            | inl e => inl e
            | inr t' => inr (dict_set table t' db1)
            end
        end
    end.
Proof.
  unfold facts_table_script. cbn [exec_script exec_statement].
  destruct (dict_get table db) as [t|] eqn:G.
  - rewrite G. now destruct (add_foreign_keys db table t _).
  - destruct (first_duplicate _); [reflexivity|].
    rewrite dict_get_set_same. cbn zeta.
    now destruct (add_foreign_keys _ table _ _).
Qed.

(** The errors the two-statement script of the fact table can end with. *)
Lemma facts_table_script_error (table : string) (fact_columns : list string)
  (id_config : dict (list string)) (conn : connection) (e : pg_error) :
  snd (execute conn (facts_table_script table fact_columns id_config)) = Some e ->
  e = InFailedSqlTransaction
  \/ e = SyntaxError /\ id_config = []
  \/ (exists c, e = DuplicateColumn c
                /\ first_duplicate (map cd_name (fact_column_defs fact_columns id_config))
                   = Some c)
  \/ exists fk, In fk (fact_foreign_keys table id_config)
                /\ constraint_error table fk e.
Proof.
  intros H. destruct (execute_error _ _ _ H) as [->|[[-> P]|[db E]]].
  - now left.
  - right. left. split; [reflexivity|].
    unfold facts_table_script, fact_foreign_keys, keys in P.
    destruct id_config; [reflexivity | discriminate].
  - right. right. rewrite facts_table_script_run in E.
    destruct (dict_get table db) as [t|].
    + destruct (add_foreign_keys db table t _) as [e0|t'] eqn:A; [|discriminate].
      injection E as <-. right. exact (add_foreign_keys_error _ _ _ _ _ A).
    + destruct (first_duplicate _) as [c|] eqn:FD.
      * injection E as <-. left. eauto.
      * cbn zeta in E.
        destruct (add_foreign_keys _ table _ _) as [e0|t'] eqn:A; [|discriminate].
        injection E as <-. right. exact (add_foreign_keys_error _ _ _ _ _ A).
Qed.

Lemma facts_table_script_ok (table : string) (fact_columns : list string)
  (id_config : dict (list string)) (db db' : database) :
  exec_script db (facts_table_script table fact_columns id_config) = inr db' ->
  exists t, dict_get table db' = Some t /\
            forall fk, In fk (fact_foreign_keys table id_config) ->
                       In fk (tb_foreign_keys t).
Proof.
  rewrite facts_table_script_run.
  destruct (dict_get table db) as [t|].
  - destruct (add_foreign_keys db table t _) as [e0|t'] eqn:A; [discriminate|].
    intros [= <-]. exists t'. split; [apply dict_get_set_same|].
    intros fk I. rewrite (add_foreign_keys_ok _ _ _ _ _ A).
    apply in_or_app. now right.
  - destruct (first_duplicate _); [discriminate|]. cbn zeta.
    destruct (add_foreign_keys _ table _ _) as [e0|t'] eqn:A; [discriminate|].
    intros [= <-]. exists t'. split; [apply dict_get_set_same|].
    intros fk I. rewrite (add_foreign_keys_ok _ _ _ _ _ A).
    apply in_or_app. now right.
Qed.

(** A second build after a successful one stops at the first constraint,
    which already exists, and changes nothing. *)
Lemma create_facts_table_with_twice (table : string) (fact_columns : list string)
  (id_config : dict (list string)) (conn conn1 : connection)
  (fk : foreign_key) (fks : list foreign_key) :
  fact_foreign_keys table id_config = fk :: fks ->
  create_facts_table_with (facts_table_script table fact_columns id_config) conn
  = (conn1, [CreatingFactsTable; CreatedFactsTable; Done]) ->
  snd (execute conn1 (facts_table_script table fact_columns id_config))
  = Some (DuplicateObject (fk_name fk) table) /\
  create_facts_table_with (facts_table_script table fact_columns id_config) conn1
  = (conn1, [CreatingFactsTable; PrintedError (DuplicateObject (fk_name fk) table)]).
Proof.
  intros EF. unfold create_facts_table_with at 1.
  destruct (execute conn _) as [conn' [e|]] eqn:E; [discriminate|].
  intros [= <-].
  destruct (execute_ok _ _ _ E) as (db' & -> & X).
  destruct (facts_table_script_ok _ _ _ _ _ X) as (t & G & I).
  assert (S1 : execute (commit {| store := store conn; txn := Active db' |})
                       (facts_table_script table fact_columns id_config)
               = ({| store := db'; txn := Failed |},
                  Some (DuplicateObject (fk_name fk) table))).
  { unfold commit, execute. cbn [txn store].
    assert (P : parses (facts_table_script table fact_columns id_config) = true).
    { unfold facts_table_script. cbn [parses forallb andb]. now rewrite EF. }
    rewrite P. cbn [negb]. rewrite facts_table_script_run, G, EF.
    cbn [add_foreign_keys]. unfold add_foreign_key.
    assert (M : mem (fk_name fk) (map fk_name (tb_foreign_keys t)) = true).
    { apply mem_In, in_map, I. rewrite EF. now left. }
    now rewrite M. }
  split; [now rewrite S1|].
  unfold create_facts_table_with. rewrite S1. reflexivity.
Qed.

(** *** The clause that fails *)

Lemma execute_error_at (conn : connection) (script : list statement)
  (e : pg_error) :
  snd (execute conn script) = Some e ->
  e = InFailedSqlTransaction
  \/ e = SyntaxError /\ parses script = false
  \/ exec_script (working conn) script = inl e.
Proof.
  unfold execute, working. destruct (txn conn).
  - destruct (parses script); cbn [negb].
    + destruct (exec_script _ _) as [e'|db'] eqn:E; cbn [snd]; [|discriminate].
      intros [= <-]. tauto.
    + cbn [snd]. intros [= <-]. tauto.
  - destruct (parses script); cbn [negb].
    + destruct (exec_script _ _) as [e'|db'] eqn:E; cbn [snd]; [|discriminate].
      intros [= <-]. tauto.
    + cbn [snd]. intros [= <-]. tauto.
  - cbn [snd]. intros [= <-]. tauto.
Qed.

Lemma failing_clause_spec (db : database) (name : string)
  (fks : list foreign_key) (e : pg_error) :
  forall t, add_foreign_keys db name t fks = inl e ->
            exists fk, failing_clause db name t fks = Some (fk, e) /\
                       In fk fks /\ constraint_error name fk e.
Proof.
  induction fks as [|fk fks IH]; intros t; simpl; [discriminate|].
  destruct (add_foreign_key db name t fk) as [e'|t'] eqn:E.
  - intros [= <-]. exists fk. split; [reflexivity|]. split; [now left|].
    now apply (add_foreign_key_error db name t).
  - intros H. destruct (IH _ H) as (fk' & F & I & C). exists fk'.
    split; [exact F|]. split; [now right | exact C].
Qed.

Lemma foreign_key_eqb_eq (a b : foreign_key) :
  foreign_key_eqb a b = true -> a = b.
Proof.
  unfold foreign_key_eqb. rewrite !andb_true_iff, !String.eqb_eq.
  destruct a, b. cbn. intros [[[-> ->] ->] ->]. reflexivity.
Qed.

(** Among the constraints of the fact table, the name, the column and the
    referenced table each determine the constraint; all of them reference
    the column [id]. *)
Lemma fact_foreign_keys_determined (fk fk' : foreign_key) :
  In fk (fact_foreign_keys FACT_TABLE_NAME DIMENSION_ID_CONFIG) ->
  In fk' (fact_foreign_keys FACT_TABLE_NAME DIMENSION_ID_CONFIG) ->
  fk_name fk = fk_name fk' \/ fk_column fk = fk_column fk'
  \/ fk_ref_table fk = fk_ref_table fk' ->
  fk = fk'.
Proof.
  intros I I' H.
  assert (A : forallb
                (fun a =>
                   forallb
                     (fun b =>
                        implb (String.eqb (fk_name a) (fk_name b)
                               || String.eqb (fk_column a) (fk_column b)
                               || String.eqb (fk_ref_table a) (fk_ref_table b))
                              (foreign_key_eqb a b))
                     (fact_foreign_keys FACT_TABLE_NAME DIMENSION_ID_CONFIG))
                (fact_foreign_keys FACT_TABLE_NAME DIMENSION_ID_CONFIG) = true)
    by (vm_compute; reflexivity).
  rewrite forallb_forall in A. specialize (A _ I).
  rewrite forallb_forall in A. specialize (A _ I').
  apply foreign_key_eqb_eq.
  destruct (foreign_key_eqb fk fk'); [reflexivity|].
  rewrite <- !String.eqb_eq in H.
  destruct H as [H|[H|H]]; rewrite H in A; cbn in A;
    rewrite ?orb_true_r in A; discriminate.
Qed.

Lemma fact_foreign_keys_reference_id (fk : foreign_key) :
  In fk (fact_foreign_keys FACT_TABLE_NAME DIMENSION_ID_CONFIG) ->
  fk_ref_column fk = "id"%string /\ fk_column fk <> "id"%string.
Proof.
  intros I.
  assert (A : forallb (fun a => String.eqb (fk_ref_column a) "id"
                                && negb (String.eqb (fk_column a) "id"))
                (fact_foreign_keys FACT_TABLE_NAME DIMENSION_ID_CONFIG) = true)
    by (vm_compute; reflexivity).
  rewrite forallb_forall in A. specialize (A _ I).
  apply andb_true_iff in A as [A B]. apply String.eqb_eq in A.
  apply negb_true_iff, String.eqb_neq in B. split; assumption.
Qed.

Lemma script_failing_clause (table : string) (fact_columns : list string)
  (id_config : dict (list string)) (db : database) (e : pg_error) :
  first_duplicate (map cd_name (fact_column_defs fact_columns id_config)) = None ->
  exec_script db (facts_table_script table fact_columns id_config) = inl e ->
  exists fk,
    match exec_statement db
            (CreateTableIfNotExists table
               (fact_column_defs fact_columns id_config)) with
    | inr db1 =>
        match dict_get table db1 with
        | Some t => failing_clause db1 table t (fact_foreign_keys table id_config)
        | None => None
        end
    | inl _ => None
    end = Some (fk, e) /\
    In fk (fact_foreign_keys table id_config) /\
    constraint_error table fk e.
Proof.
  intros FD E. rewrite facts_table_script_run in E. cbn [exec_statement].
  destruct (dict_get table db) as [t|] eqn:G.
  - rewrite G.
    destruct (add_foreign_keys db table t (fact_foreign_keys table id_config))
      as [e0|t'] eqn:A; [|discriminate].
    injection E as <-. exact (failing_clause_spec _ _ _ _ _ A).
  - rewrite FD in *. cbn zeta in E. rewrite dict_get_set_same.
    destruct (add_foreign_keys
                (dict_set table
                   (create_table (fact_column_defs fact_columns id_config)) db)
                table (create_table (fact_column_defs fact_columns id_config))
                (fact_foreign_keys table id_config))
      as [e0|t'] eqn:A; [|discriminate].
    injection E as <-. exact (failing_clause_spec _ _ _ _ _ A).
Qed.

(** When [cursor.execute] raises on the script of the fact table, either
    the transaction had failed before, or one constraint clause was
    refused. *)
Lemma facts_table_failure (conn : connection) (e : pg_error) :
  snd (execute conn facts_table_statements) = Some e ->
  e = InFailedSqlTransaction
  \/ exists fk, failed_constraint conn = Some (fk, e) /\
                In fk (fact_foreign_keys FACT_TABLE_NAME DIMENSION_ID_CONFIG) /\
                constraint_error FACT_TABLE_NAME fk e.
Proof.
  intros H. destruct (execute_error_at _ _ _ H) as [->|[[_ P]|E]].
  - now left.
  - vm_compute in P. discriminate.
  - right. unfold failed_constraint.
    apply (script_failing_clause FACT_TABLE_NAME FACT_COLUMNS DIMENSION_ID_CONFIG);
      [vm_compute; reflexivity | exact E].
Qed.

(** ** The resolver as a function of the dataset *)

Lemma natural_key_pick (data : DataFrame) (names : list string) (d : Row) :
  forall idxs,
    traverse (fun n => resolve_column n (columns data)) names = Some idxs ->
    pick VNull idxs d = natural_key names data d.
Proof.
  unfold pick, natural_key.
  induction names as [|n names IH]; simpl; intros idxs E.
  - now injection E as <-.
  - unfold resolve_column in E at 1.
    destruct (find_index n (columns data)) as [i|]; [|discriminate].
    destruct (mem n _); [discriminate|].
    destruct (traverse _ names) as [js|]; [|discriminate].
    injection E as <-. simpl. f_equal. now apply IH.
Qed.

Lemma has_columns_traverse (names : list string) (data : DataFrame) :
  has_columns names data = true <->
  exists idxs, traverse (fun n => resolve_column n (columns data)) names = Some idxs.
Proof.
  unfold has_columns. induction names as [|n names IH]; simpl.
  - split; eauto.
  - destruct (resolve_column n (columns data)) as [i|]; simpl.
    + rewrite IH. split.
      * intros (idxs & ->). eauto.
      * intros (idxs & E). destruct (traverse _ names); [eauto | discriminate].
    + split; [discriminate | intros (idxs & E); discriminate].
Qed.

Lemma has_columns_app (a b : list string) (data : DataFrame) :
  has_columns (a ++ b) data = has_columns a data && has_columns b data.
Proof. apply forallb_app. Qed.

Lemma select_natural_key (names : list string) (data out : DataFrame) :
  select names data = Some out ->
  rows out = map (natural_key names data) (rows data).
Proof.
  intros H. destruct (select_spec _ _ _ H) as (_ & idxs & T & R).
  rewrite R. apply map_ext. intros d. now apply natural_key_pick.
Qed.

Lemma select_has_columns (names : list string) (data : DataFrame) :
  has_columns names data = true -> exists out, select names data = Some out.
Proof.
  intros H. apply has_columns_traverse in H as (idxs & E).
  unfold select. rewrite E. eauto.
Qed.

Lemma natural_key_app (a b : list string) (data : DataFrame) (d : Row) :
  natural_key (a ++ b) data d = natural_key a data d ++ natural_key b data d.
Proof. apply map_app. Qed.

Lemma natural_key_length (names : list string) (data : DataFrame) (d : Row) :
  List.length (natural_key names data d) = List.length names.
Proof. apply length_map. Qed.

Lemma firstn_natural_key (a b : list string) (data : DataFrame) (d : Row) :
  firstn (List.length a) (natural_key (a ++ b) data d) = natural_key a data d.
Proof.
  rewrite natural_key_app, firstn_app, natural_key_length, Nat.sub_diag.
  cbn [firstn]. rewrite app_nil_r. apply firstn_all2.
  rewrite natural_key_length. lia.
Qed.

Lemma skipn_natural_key (a b : list string) (data : DataFrame) (d : Row) :
  skipn (List.length a) (natural_key (a ++ b) data d) = natural_key b data d.
Proof.
  rewrite natural_key_app, skipn_app, natural_key_length, Nat.sub_diag.
  cbn [skipn]. rewrite skipn_all2 by (rewrite natural_key_length; lia).
  reflexivity.
Qed.

Lemma names_distinct_no_id (todo : dict (list string)) (rest : list string)
  (name : string) (ks : list string) :
  names_distinct todo rest -> In (name, ks) todo -> ~ In "id"%string ks.
Proof.
  unfold names_distinct. intros N I H.
  destruct (NoDup_app_inv _ _ N) as (_ & _ & D).
  apply (D "id"%string).
  - apply in_concat. exists ks. split; [|assumption].
    unfold values. change ks with (snd (name, ks)). now apply in_map.
  - apply in_or_app. right. apply in_or_app. right. now left.
Qed.

Section Resolution.

Variable hash : Row -> nat.
Variable data : DataFrame.
Variable db : database.
Variable fact_columns : list string.

Hypothesis data_well_formed : well_formed data = true.

Lemma stored_shaped (config : dict table_config) :
  dimensions_stored hash config data db ->
  (forall name c, In (name, c) config -> ~ In "id"%string (field_names c)) ->
  dimensions_shaped db (id_items config).
Proof.
  intros St Nid name ks t I G.
  unfold id_items in I. apply in_map_iff in I as ([n c] & E & I).
  cbn [fst snd] in E. injection E as -> <-.
  destruct (St _ _ I) as (frame & t' & F & G' & S & _).
  rewrite G in G'. injection G' as <-.
  destruct (dimension_frame_spec _ _ _ _ F (Nid _ _ I)) as (_ & _ & _ & _ & _ & C & _).
  unfold table_columns. rewrite S. exact C.
Qed.

Lemma stored_has_columns (config : dict table_config) :
  dimensions_stored hash config data db ->
  (forall name c, In (name, c) config -> ~ In "id"%string (field_names c)) ->
  has_columns (List.concat (values (id_items config))) data = true.
Proof.
  induction config as [|[name c] config IH]; intros St Nid; [reflexivity|].
  unfold id_items, values. cbn [map List.concat fst snd].
  rewrite has_columns_app. apply andb_true_iff. split.
  - destruct (St name c) as (frame & t & F & _); [now left|].
    destruct (dimension_frame_spec _ _ _ _ F (Nid name c (or_introl eq_refl)))
      as (idxs & _ & E & _).
    apply has_columns_traverse. eauto.
  - apply IH.
    + intros n c' I. apply St. now right.
    + intros n c' I. apply (Nid n). now right.
Qed.

Lemma stored_single_partner (d : Row) (others : list string) :
  In d (rows data) ->
  forall config : dict table_config,
    dimensions_stored hash config data db ->
    (forall name c, In (name, c) config -> ~ In "id"%string (field_names c)) ->
    single_partner db (id_items config)
      (natural_key (List.concat (values (id_items config)) ++ others) data d).
Proof.
  intros Hd. induction config as [|[name c] config IH]; intros St Nid; [exact I|].
  unfold id_items, values. cbn [map List.concat fst snd single_partner].
  fold (field_names c). rewrite <- app_assoc.
  rewrite firstn_natural_key, skipn_natural_key. split.
  - destruct (St name c) as (frame & t & F & G & _ & R); [now left|].
    assert (N : ~ In "id"%string (field_names c)) by (apply (Nid name); now left).
    destruct (dimension_frame_spec _ _ _ _ F N) as (idxs & _ & E & _).
    unfold table_rows. rewrite G, R.
    rewrite <- (natural_key_pick _ _ _ _ E).
    now apply (dimension_partners_unique hash c data frame idxs).
  - apply IH.
    + intros n c' I. apply St. now right.
    + intros n c' I. apply (Nid n). now right.
Qed.

Lemma resolved_keys_natural (d : Row) (others : list string) :
  forall todo : dict (list string),
    resolved_keys db todo
      (natural_key (List.concat (values todo) ++ others) data d)
    = map (fun entry => surrogate_key (natural_key (snd entry) data d)
                                      (table_rows db (fst entry)))
          todo.
Proof.
  induction todo as [|[name ks] todo IH]; [reflexivity|].
  unfold values. cbn [map List.concat fst snd resolved_keys].
  rewrite <- app_assoc, firstn_natural_key, skipn_natural_key.
  f_equal. apply IH.
Qed.

(** The resolver, end to end: it returns, its frame has the measures and
    then the foreign keys, and it has one row per row of the dataset. *)
Theorem resolve_keys_spec (config : dict table_config) :
  dimensions_stored hash config data db ->
  (forall name ks, In (name, ks) (id_items config) -> ks <> []) ->
  names_distinct (id_items config) fact_columns ->
  has_columns fact_columns data = true ->
  exists facts_data out,
    select (List.concat (values (id_items config)) ++ fact_columns) data
    = Some facts_data /\
    join_dimensions db facts_data (id_items config) = Some out /\
    columns out = fact_columns ++ map fk_column_name (keys (id_items config)) /\
    sized out /\
    rows out = map (resolved_row db (id_items config) fact_columns data)
                   (rows data).
Proof.
  intros St NE N M.
  assert (Nid : forall name c, In (name, c) config ->
                               ~ In "id"%string (field_names c)).
  { intros name c I. apply (names_distinct_no_id _ _ name _ N).
    unfold id_items. apply in_map_iff. exists (name, c). now split. }
  assert (H : has_columns (List.concat (values (id_items config)) ++ fact_columns)
                          data = true).
  { rewrite has_columns_app, M, andb_true_r. now apply stored_has_columns. }
  destruct (select_has_columns _ _ H) as (facts_data & S).
  destruct (select_spec _ _ _ S) as (C & _).
  pose proof (select_natural_key _ _ _ S) as R.
  pose proof (select_sized _ _ _ S) as Z.
  pose proof (stored_shaped _ St Nid) as Sh.
  assert (J : exists out, join_dimensions db facts_data (id_items config) = Some out).
  { assert (Ex : forall name ks, In (name, ks) (id_items config) ->
                                 exists t, dict_get name db = Some t).
    { intros name ks I. unfold id_items in I.
      apply in_map_iff in I as ([n c] & E & I). cbn [fst snd] in E.
      injection E as -> <-. destruct (St _ _ I) as (frame & t & _ & G & _).
      eauto. }
    clear R H S M. revert facts_data C Z N Sh Ex NE.
    generalize fact_columns as rest.
    induction (id_items config) as [|[name ks] todo IH];
      intros rest facts C Z N Sh Ex NE; [cbn; eauto|].
    cbn [join_dimensions].
    destruct (names_distinct_head _ _ _ _ N) as (Nk & D & Ni & Nfk).
    unfold values in C. cbn [map List.concat snd] in C.
    rewrite <- app_assoc in C.
    assert (G : exists t, dict_get name db = Some t
                          /\ table_columns t = ks ++ ["id"%string]).
    { destruct (Ex name ks) as (t & G); [now left|]. exists t. split; [assumption|].
      apply (Sh name ks t); [now left | assumption]. }
    destruct G as (t & G & T).
    assert (NEk : ks <> []) by (apply (NE name); now left).
    destruct (join_dimension_step db facts name ks _ t NEk C Nk D Ni Nfk Z G T)
      as (out' & E' & C' & S' & _).
    rewrite E'. rewrite <- app_assoc in C'.
    apply (IH (rest ++ [fk_column_name name])); auto.
    - exact (names_distinct_tail _ _ _ _ N).
    - intros n k t' I0. apply Sh. now right.
    - intros n k I0. apply (Ex n k). now right.
    - intros n k I0. apply (NE n k). now right. }
  destruct J as (out & J).
  exists facts_data, out. split; [assumption|]. split; [assumption|].
  destruct (join_dimensions_columns db _ _ _ _ Sh N C Z J) as (CO & SO).
  split; [assumption|]. split; [assumption|].
  rewrite (join_dimensions_rows db _ _ fact_columns _ Sh N C Z) by
    (try assumption; rewrite R; apply Forall_forall; intros a Ha;
     apply in_map_iff in Ha as (d & <- & Hd);
     now apply stored_single_partner).
  rewrite R, map_map. apply map_ext. intros d.
  unfold resolved_row.
  rewrite <- (natural_key_length (List.concat (values (id_items config))) data d).
  rewrite natural_key_length.
  rewrite skipn_natural_key, resolved_keys_natural. reflexivity.
Qed.

End Resolution.

(** *** Resolving against the tables of a snapshot *)

(** The dimension tables may have been written from another extract than
    the one whose facts are resolved, as long as the two have the same
    columns. *)
Section Snapshot.

Variable hash : Row -> nat.
Variables snapshot data : DataFrame.
Variable db : database.
Variable fact_columns : list string.

Hypothesis snapshot_well_formed : well_formed snapshot = true.
Hypothesis data_well_formed : well_formed data = true.
Hypothesis same_columns : schema snapshot = schema data.

Lemma snapshot_has_columns (config : dict table_config) :
  dimensions_stored hash config snapshot db ->
  (forall name c, In (name, c) config -> ~ In "id"%string (field_names c)) ->
  has_columns (List.concat (values (id_items config))) data = true.
Proof.
  intros St Nid.
  pose proof (stored_has_columns hash snapshot db config St Nid) as H.
  unfold has_columns, columns in *. now rewrite <- same_columns.
Qed.

Lemma snapshot_single_partner (d : Row) (others : list string) :
  In d (rows data) ->
  forall config : dict table_config,
    dimensions_stored hash config snapshot db ->
    (forall name c, In (name, c) config -> ~ In "id"%string (field_names c)) ->
    single_partner db (id_items config)
      (natural_key (List.concat (values (id_items config)) ++ others) data d).
Proof.
  intros Hd. induction config as [|[name c] config IH]; intros St Nid; [exact I|].
  unfold id_items, values. cbn [map List.concat fst snd single_partner].
  fold (field_names c). rewrite <- app_assoc.
  rewrite firstn_natural_key, skipn_natural_key. split.
  - destruct (St name c) as (frame & t & F & G & _ & R); [now left|].
    assert (N : ~ In "id"%string (field_names c)) by (apply (Nid name); now left).
    destruct (dimension_frame_spec _ _ _ _ F N) as (idxs & _ & E & _).
    unfold table_rows. rewrite G, R.
    assert (E' : traverse (fun n => resolve_column n (columns data))
                          (field_names c) = Some idxs).
    { unfold columns in *. now rewrite <- same_columns. }
    rewrite <- (natural_key_pick _ _ _ _ E').
    apply (snapshot_partners_unique hash c snapshot frame idxs); auto.
    rewrite same_columns.
    unfold well_formed in data_well_formed.
    rewrite forallb_forall in data_well_formed. now apply data_well_formed.
  - apply IH.
    + intros n c' I. apply St. now right.
    + intros n c' I. apply (Nid n). now right.
Qed.

(** The resolver against the tables of a snapshot: it returns, its frame
    has the measures and then the foreign keys, and it has one row per row
    of the dataset. *)
Theorem resolve_keys_snapshot (config : dict table_config) :
  dimensions_stored hash config snapshot db ->
  (forall name ks, In (name, ks) (id_items config) -> ks <> []) ->
  names_distinct (id_items config) fact_columns ->
  has_columns fact_columns data = true ->
  exists facts_data out,
    select (List.concat (values (id_items config)) ++ fact_columns) data
    = Some facts_data /\
    join_dimensions db facts_data (id_items config) = Some out /\
    columns out = fact_columns ++ map fk_column_name (keys (id_items config)) /\
    sized out /\
    rows out = map (resolved_row db (id_items config) fact_columns data)
                   (rows data).
Proof.
  intros St NE N M.
  assert (Nid : forall name c, In (name, c) config ->
                               ~ In "id"%string (field_names c)).
  { intros name c I. apply (names_distinct_no_id _ _ name _ N).
    unfold id_items. apply in_map_iff. exists (name, c). now split. }
  assert (H : has_columns (List.concat (values (id_items config)) ++ fact_columns)
                          data = true).
  { rewrite has_columns_app, M, andb_true_r. now apply snapshot_has_columns. }
  destruct (select_has_columns _ _ H) as (facts_data & S).
  destruct (select_spec _ _ _ S) as (C & _).
  pose proof (select_natural_key _ _ _ S) as R.
  pose proof (select_sized _ _ _ S) as Z.
  pose proof (stored_shaped hash snapshot db config St Nid) as Sh.
  assert (J : exists out, join_dimensions db facts_data (id_items config) = Some out).
  { assert (Ex : forall name ks, In (name, ks) (id_items config) ->
                                 exists t, dict_get name db = Some t).
    { intros name ks I. unfold id_items in I.
      apply in_map_iff in I as ([n c] & E & I). cbn [fst snd] in E.
      injection E as -> <-. destruct (St _ _ I) as (frame & t & _ & G & _).
      eauto. }
    clear R H S M. revert facts_data C Z N Sh Ex NE.
    generalize fact_columns as rest.
    induction (id_items config) as [|[name ks] todo IH];
      intros rest facts C Z N Sh Ex NE; [cbn; eauto|].
    cbn [join_dimensions].
    destruct (names_distinct_head _ _ _ _ N) as (Nk & D & Ni & Nfk).
    unfold values in C. cbn [map List.concat snd] in C.
    rewrite <- app_assoc in C.
    assert (G : exists t, dict_get name db = Some t
                          /\ table_columns t = ks ++ ["id"%string]).
    { destruct (Ex name ks) as (t & G); [now left|]. exists t. split; [assumption|].
      apply (Sh name ks t); [now left | assumption]. }
    destruct G as (t & G & T).
    assert (NEk : ks <> []) by (apply (NE name); now left).
    destruct (join_dimension_step db facts name ks _ t NEk C Nk D Ni Nfk Z G T)
      as (out' & E' & C' & S' & _).
    rewrite E'. rewrite <- app_assoc in C'.
    apply (IH (rest ++ [fk_column_name name])); auto.
    - exact (names_distinct_tail _ _ _ _ N).
    - intros n k t' I0. apply Sh. now right.
    - intros n k I0. apply (Ex n k). now right.
    - intros n k I0. apply (NE n k). now right. }
  destruct J as (out & J).
  exists facts_data, out. split; [assumption|]. split; [assumption|].
  destruct (join_dimensions_columns db _ _ _ _ Sh N C Z J) as (CO & SO).
  split; [assumption|]. split; [assumption|].
  rewrite (join_dimensions_rows db _ _ fact_columns _ Sh N C Z) by
    (try assumption; rewrite R; apply Forall_forall; intros a Ha;
     apply in_map_iff in Ha as (d & <- & Hd);
     now apply snapshot_single_partner).
  rewrite R, map_map. apply map_ext. intros d.
  unfold resolved_row.
  rewrite <- (natural_key_length (List.concat (values (id_items config))) data d).
  rewrite natural_key_length.
  rewrite skipn_natural_key, resolved_keys_natural. reflexivity.
Qed.

End Snapshot.

(** ** Loading the facts *)

Lemma traverse_nth_error {A B : Type} (f : A -> option B) (l : list A) :
  forall out k x,
    traverse f l = Some out -> nth_error l k = Some x ->
    exists y, f x = Some y /\ nth_error out k = Some y.
Proof.
  induction l as [|a l IH]; intros out k x T N; [destruct k; discriminate|].
  simpl in T. destruct (f a) as [b|] eqn:E; [|discriminate].
  destruct (traverse f l) as [bs|]; [|discriminate]. injection T as <-.
  destruct k as [|k]; simpl in *.
  - injection N as <-. eauto.
  - now apply IH.
Qed.

Lemma insert_rows_nth (t : pg_table) (cols : list string) (rs : list Row) :
  forall serial new j r,
    insert_rows t cols serial rs = Some new -> nth_error rs j = Some r ->
    exists r', insert_row t cols (serial + Z.of_nat j)%Z r = Some r'
               /\ nth_error new j = Some r'.
Proof.
  induction rs as [|r0 rs IH]; intros serial new j r I N; [destruct j; discriminate|].
  simpl in I. destruct (insert_row t cols serial r0) as [r0'|] eqn:E; [|discriminate].
  destruct (insert_rows t cols (serial + 1)%Z rs) as [rest|] eqn:E'; [|discriminate].
  injection I as <-. destruct j as [|j]; simpl in N.
  - injection N as <-. exists r0'. rewrite Z.add_0_r. now split.
  - destruct (IH _ _ _ _ E' N) as (r' & I' & N'). exists r'. split; [|assumption].
    rewrite <- I'. f_equal. lia.
Qed.

Lemma insert_rows_length (t : pg_table) (cols : list string) (rs : list Row) :
  forall serial new,
    insert_rows t cols serial rs = Some new -> List.length new = List.length rs.
Proof.
  induction rs as [|r0 rs IH]; intros serial new; simpl.
  - now intros [= <-].
  - destruct (insert_row t cols serial r0); [|discriminate].
    destruct (insert_rows t cols (serial + 1)%Z rs) eqn:E; [|discriminate].
    intros [= <-]. simpl. now rewrite (IH _ _ E).
Qed.

Lemma column_values_nth (c : string) (t : pg_table) (k j : nat) (r : Row) :
  find_index c (table_columns t) = Some k ->
  nth_error (tb_rows t) j = Some r ->
  nth_error (column_values c t) j = Some (nth k r VNull).
Proof.
  unfold column_values. intros F N. rewrite F.
  rewrite nth_error_map, N. reflexivity.
Qed.

(** Appending a frame keeps the rows the table had and adds one row per
    row of the frame, in order; a null of the frame is stored as a null. *)
Lemma write_jdbc_append_null (db db' : database) (name : string)
  (df : DataFrame) (c : string) (i j : nat) (r : Row) :
  write_jdbc_append db name df = Some db' ->
  find_index c (columns df) = Some i ->
  nth_error (rows df) j = Some r ->
  nth i r VNull = VNull ->
  exists t',
    dict_get name db' = Some t' /\
    List.length (tb_rows t') = List.length (table_rows db name) + count df /\
    nth_error (column_values c t') (List.length (table_rows db name) + j)
    = Some VNull.
Proof.
  unfold write_jdbc_append, table_rows. intros W F N V.
  destruct (dict_get name db) as [t|] eqn:G.
  - destruct (forallb _ (columns df)) eqn:A; [|discriminate].
    destruct (insert_rows t (columns df) _ (rows df)) as [new|] eqn:I; [|discriminate].
    destruct (forallb _ new); [|discriminate].
    injection W as <-. eexists. split; [apply dict_get_set_same|].
    cbn [tb_rows]. rewrite length_app, (insert_rows_length _ _ _ _ _ I).
    split; [reflexivity|].
    rewrite forallb_forall in A.
    assert (Ic : In c (columns df)).
    { destruct (find_index_Some _ _ _ F) as [L <-]. now apply nth_In. }
    specialize (A _ Ic). apply mem_In in A.
    destruct (find_index c (table_columns t)) as [k|] eqn:Fk;
      [|apply find_index_None in Fk; contradiction].
    destruct (insert_rows_nth _ _ _ _ _ _ _ I N) as (r' & IR & N').
    erewrite column_values_nth; [| exact Fk |].
    2:{ cbn [tb_rows]. rewrite nth_error_app2 by lia.
        replace (_ + j - _) with j by lia. exact N'. }
    f_equal. unfold insert_row in IR.
    destruct (find_index_Some _ _ _ Fk) as [Lk Xk].
    unfold table_columns in Lk, Xk. rewrite length_map in Lk.
    destruct (nth_error (tb_schema t) k) as [col|] eqn:Nk;
      [|apply nth_error_None in Nk; lia].
    destruct (traverse_nth_error _ _ _ _ _ IR Nk) as (y & Y & Ny).
    assert (Ec : fst col = c).
    { rewrite <- Xk. change (@EmptyString) with (fst no_field).
      rewrite map_nth. now rewrite (nth_error_nth _ _ _ Nk). }
    rewrite Ec, F, V in Y. destruct (snd col); injection Y as <-;
      now rewrite (nth_error_nth _ _ _ Ny).
  - unfold write_jdbc_overwrite in W.
    destruct (first_duplicate (columns df)); [discriminate|].
    destruct (referenced name db); [discriminate|].
    injection W as <-. eexists. split; [apply dict_get_set_same|].
    cbn [tb_rows List.length]. split; [reflexivity|].
    erewrite column_values_nth; [| exact F | exact N]. now rewrite V.
Qed.

Lemma find_index_nth_error (l : list string) :
  NoDup l ->
  forall k x, nth_error l k = Some x -> find_index x l = Some k.
Proof.
  induction l as [|y l IH]; intros N k x E; [destruct k; discriminate|].
  inversion N as [|? ? N1 N2]; subst. destruct k as [|k]; simpl in E.
  - injection E as <-. apply find_index_head.
  - simpl. destruct (String.eqb y x) eqn:Q.
    + apply String.eqb_eq in Q. subst. exfalso. apply N1.
      now apply nth_error_In in E.
    + now rewrite (IH N2 _ _ E).
Qed.

Lemma combine_snd_length {A B : Type} (l : list A) :
  forall l' : list B,
    List.length l = List.length l' -> map snd (combine l l') = l'.
Proof.
  induction l as [|x l IH]; intros [|y l'] H; simpl in *;
    try reflexivity; try discriminate.
  f_equal. apply IH. lia.
Qed.

(** ** The notebook's configuration *)

Lemma DIMENSION_ID_CONFIG_items :
  DIMENSION_ID_CONFIG = id_items DIMENSION_TABLES_CONFIG.
Proof. vm_compute. reflexivity. Qed.

Lemma FACT_CONFIG_keys : keys FACT_CONFIG = FACT_COLUMNS.
Proof. vm_compute. reflexivity. Qed.

Lemma registry_keys_distinct : NoDup (keys DIMENSION_TABLES_CONFIG).
Proof. apply dict_update_NoDup, dict_of_items_NoDup. Qed.

Lemma registry_names_distinct :
  names_distinct (id_items DIMENSION_TABLES_CONFIG) FACT_COLUMNS.
Proof. apply distinct_names_NoDup. vm_compute. reflexivity. Qed.

Lemma registry_keys_nonempty (name : string) (ks : list string) :
  In (name, ks) (id_items DIMENSION_TABLES_CONFIG) -> ks <> [].
Proof.
  intros I.
  assert (A : forallb (fun e => match snd e with [] => false | _ => true end)
                      (id_items DIMENSION_TABLES_CONFIG) = true)
    by (vm_compute; reflexivity).
  rewrite forallb_forall in A. specialize (A _ I). cbn [snd] in A.
  intros ->. discriminate A.
Qed.

Lemma fact_table_is_no_dimension :
  ~ In FACT_TABLE_NAME (keys DIMENSION_TABLES_CONFIG).
Proof. apply mem_false. vm_compute. reflexivity. Qed.

Lemma ordered_columns_distinct : NoDup FACT_TABLE_ALL_COLUMNS_ORDERED.
Proof. apply distinct_names_NoDup. vm_compute. reflexivity. Qed.

Lemma names_eqb_eq (a b : list string) : names_eqb a b = true <-> a = b.
Proof.
  revert b. induction a as [|x a IH]; intros [|y b]; simpl;
    try (split; [discriminate | discriminate]); [tauto|].
  rewrite andb_true_iff, String.eqb_eq, IH. split.
  - intros [-> ->]. reflexivity.
  - intros [= -> ->]. now split.
Qed.


Lemma create_facts_table_with_other (script : list statement)
  (conn : connection) (name : string) :
  txn conn = Idle ->
  (forall st, In st script -> name <> statement_table st) ->
  dict_get name (store (fst (create_facts_table_with script conn)))
  = dict_get name (store conn).
Proof.
  intros I N. unfold create_facts_table_with.
  destruct (execute conn script) as [conn' [e|]] eqn:E; cbn [fst].
  - unfold rollback. cbn [store]. now rewrite (execute_store _ _ _ _ E).
  - destruct (execute_ok _ _ _ E) as (db' & -> & X). rewrite I in X.
    cbn [commit txn store]. now apply (exec_script_other script).
Qed.

Lemma create_facts_table_other (conn : connection) (name : string) :
  txn conn = Idle -> name <> FACT_TABLE_NAME ->
  dict_get name (store (fst (create_facts_table conn)))
  = dict_get name (store conn).
Proof.
  intros I N. apply create_facts_table_with_other; [assumption|].
  intros st [<-|[<-|[]]]; exact N.
Qed.

(** After the dimension loop and the schema build, the store holds the
    frame of every dimension. *)
Lemma notebook_dimensions_stored (hash : Row -> nat) (data : DataFrame)
  (conn conn1 : connection) :
  txn conn = Idle ->
  write_dimensions hash data conn DIMENSION_TABLES_CONFIG = Some conn1 ->
  dimensions_stored hash DIMENSION_TABLES_CONFIG data
    (store (fst (create_facts_table conn1))).
Proof.
  intros I W name c In_c.
  destruct (write_dimensions_spec hash data _ _ _ I registry_keys_distinct W)
    as (I1 & A & _).
  destruct (A _ _ In_c) as (frame & F & G & _).
  exists frame, (dimension_table frame). split; [assumption|].
  split; [|split; reflexivity].
  rewrite create_facts_table_other; [assumption | assumption |].
  intros ->. apply fact_table_is_no_dimension.
  unfold keys. change FACT_TABLE_NAME with (fst (FACT_TABLE_NAME, c)).
  now apply in_map.
Qed.

(** The frame handed to the writer, as a function of the dataset. *)
Lemma resolved_facts_spec (hash : Row -> nat) (data : DataFrame) (db : database) :
  well_formed data = true ->
  has_columns FACT_COLUMNS data = true ->
  dimensions_stored hash DIMENSION_TABLES_CONFIG data db ->
  exists facts_data out,
    resolve_keys DIMENSION_ID_CONFIG FACT_CONFIG db data = Some facts_data /\
    ordered_facts FACT_TABLE_ALL_COLUMNS_ORDERED facts_data = Some out /\
    columns out = FACT_TABLE_ALL_COLUMNS_ORDERED /\
    rows out = map (resolved_row db DIMENSION_ID_CONFIG FACT_COLUMNS data)
                   (rows data).
Proof.
  intros W M St.
  destruct (resolve_keys_spec hash data db FACT_COLUMNS W DIMENSION_TABLES_CONFIG
              St registry_keys_nonempty registry_names_distinct M)
    as (facts0 & out' & S & J & C & Z & R).
  unfold resolve_keys, select_facts.
  rewrite FACT_CONFIG_keys, DIMENSION_ID_CONFIG_items, S, J.
  assert (E : FACT_TABLE_ALL_COLUMNS_ORDERED = columns out').
  { rewrite C. unfold FACT_TABLE_ALL_COLUMNS_ORDERED, fact_table_all_columns_ordered.
    now rewrite DIMENSION_ID_CONFIG_items. }
  assert (N : NoDup (columns out')).
  { rewrite <- E. apply ordered_columns_distinct. }
  destruct (select_all_Some out' N) as (out & O).
  exists out', out. split; [reflexivity|]. unfold ordered_facts.
  rewrite E. split; [assumption|]. split.
  - now destruct (select_spec _ _ _ O).
  - rewrite (select_all_rows _ _ N Z O). exact R.
Qed.

Lemma registry_fields_distinct (name : string) (c : table_config) :
  In (name, c) DIMENSION_TABLES_CONFIG ->
  NoDup (field_names c ++ ["id"%string]).
Proof.
  intros I.
  assert (A : forallb (fun e => distinct_names (field_names (snd e) ++ ["id"%string]))
                      DIMENSION_TABLES_CONFIG = true)
    by (vm_compute; reflexivity).
  rewrite forallb_forall in A. apply distinct_names_NoDup. exact (A _ I).
Qed.

(** The resolver of the notebook against the tables of a snapshot. *)
Lemma resolved_facts_snapshot (hash : Row -> nat) (snapshot data : DataFrame)
  (db : database) :
  well_formed snapshot = true ->
  well_formed data = true ->
  schema snapshot = schema data ->
  has_columns FACT_COLUMNS data = true ->
  dimensions_stored hash DIMENSION_TABLES_CONFIG snapshot db ->
  exists facts_data out,
    resolve_keys DIMENSION_ID_CONFIG FACT_CONFIG db data = Some facts_data /\
    ordered_facts FACT_TABLE_ALL_COLUMNS_ORDERED facts_data = Some out /\
    columns out = FACT_TABLE_ALL_COLUMNS_ORDERED /\
    rows out = map (resolved_row db DIMENSION_ID_CONFIG FACT_COLUMNS data)
                   (rows data).
Proof.
  intros Ws W Sc M St.
  destruct (resolve_keys_snapshot hash snapshot data db FACT_COLUMNS Ws W Sc
              DIMENSION_TABLES_CONFIG
              St registry_keys_nonempty registry_names_distinct M)
    as (facts0 & out' & S & J & C & Z & R).
  unfold resolve_keys, select_facts.
  rewrite FACT_CONFIG_keys, DIMENSION_ID_CONFIG_items, S, J.
  assert (E : FACT_TABLE_ALL_COLUMNS_ORDERED = columns out').
  { rewrite C. unfold FACT_TABLE_ALL_COLUMNS_ORDERED, fact_table_all_columns_ordered.
    now rewrite DIMENSION_ID_CONFIG_items. }
  assert (N : NoDup (columns out')).
  { rewrite <- E. apply ordered_columns_distinct. }
  destruct (select_all_Some out' N) as (out & O).
  exists out', out. split; [reflexivity|]. unfold ordered_facts.
  rewrite E. split; [assumption|]. split.
  - now destruct (select_spec _ _ _ O).
  - rewrite (select_all_rows _ _ N Z O). exact R.
Qed.

(** ** Appending the resolved rows *)

Lemma frames_stored (hash : Row -> nat) (config : dict table_config)
  (data : DataFrame) (db : database) :
  forallb (frame_stored hash data db) config = true ->
  dimensions_stored hash config data db.
Proof.
  rewrite forallb_forall. intros H name c I. specialize (H _ I).
  unfold frame_stored in H. cbn [fst snd] in H.
  destruct (dimension_frame hash c data) as [frame|]; [|discriminate].
  destruct (dict_get name db) as [t|]; [|discriminate].
  destruct (schema_eq_dec _ _) as [S|]; [|discriminate].
  destruct (list_eq_dec _ _ _) as [R|]; [|discriminate].
  exists frame, t. tauto.
Qed.

Lemma resolved_row_ext (db db' : database) (data : DataFrame) (d : Row) :
  (forall name, In name (keys DIMENSION_ID_CONFIG) ->
                dict_get name db' = dict_get name db) ->
  resolved_row db' DIMENSION_ID_CONFIG FACT_COLUMNS data d
  = resolved_row db DIMENSION_ID_CONFIG FACT_COLUMNS data d.
Proof.
  intros H. unfold resolved_row. f_equal. apply map_ext_in.
  intros [name ks] I. cbn [fst snd]. unfold table_rows.
  rewrite H; [reflexivity|]. unfold keys.
  change name with (fst (name, ks)). now apply in_map.
Qed.

Lemma id_config_keys : keys DIMENSION_ID_CONFIG = keys DIMENSION_TABLES_CONFIG.
Proof. vm_compute. reflexivity. Qed.

Lemma fact_table_set_other (db : database) (t : pg_table) (name : string) :
  In name (keys DIMENSION_TABLES_CONFIG) ->
  dict_get name (dict_set FACT_TABLE_NAME t db) = dict_get name db.
Proof.
  intros I. apply dict_get_set_other. intros ->.
  exact (fact_table_is_no_dimension I).
Qed.

Lemma dimensions_stored_fact_table (hash : Row -> nat) (data : DataFrame)
  (db : database) (t : pg_table) :
  dimensions_stored hash DIMENSION_TABLES_CONFIG data db ->
  dimensions_stored hash DIMENSION_TABLES_CONFIG data
    (dict_set FACT_TABLE_NAME t db).
Proof.
  intros St name c I. destruct (St _ _ I) as (frame & t0 & F & G & S).
  exists frame, t0. split; [exact F|]. split; [|exact S].
  rewrite fact_table_set_other; [exact G|].
  unfold keys. change name with (fst (name, c)). now apply in_map.
Qed.

Lemma resolved_rows_fact_table (db : database) (t : pg_table)
  (data : DataFrame) :
  resolved_rows (dict_set FACT_TABLE_NAME t db) data = resolved_rows db data.
Proof.
  unfold resolved_rows. apply map_ext. intros d.
  apply resolved_row_ext. intros name I. apply fact_table_set_other.
  rewrite <- id_config_keys. exact I.
Qed.


Lemma numbered_length (next : Z) (arrival : list Row) :
  List.length (numbered next arrival) = List.length arrival.
Proof.
  unfold numbered. rewrite length_map, length_combine, length_seq. lia.
Qed.





Lemma traverse_pointwise {A B : Type} (f : A -> option B) (da : A) (db : B) :
  forall (l : list A) (out : list B),
    List.length out = List.length l ->
    (forall k, k < List.length l -> f (nth k l da) = Some (nth k out db)) ->
    traverse f l = Some out.
Proof.
  induction l as [|a l IH]; intros [|b out] L H; try discriminate; [reflexivity|].
  assert (H0 : f a = Some b) by (apply (H 0); simpl; lia).
  cbn [traverse]. rewrite H0.
  rewrite (IH out); [reflexivity | simpl in L; lia |].
  intros k Hk. apply (H (S k)). simpl. lia.
Qed.

Lemma Forall2_nth {A B : Type} (P : A -> B -> Prop) (da : A) (db : B) :
  forall (l : list A) (l' : list B),
    Forall2 P l l' ->
    forall k, k < List.length l -> P (nth k l da) (nth k l' db).
Proof.
  induction 1 as [|x y l l' H F IH]; intros k Hk; [simpl in Hk; lia|].
  destruct k as [|k]; [exact H|]. apply IH. simpl in Hk. lia.
Qed.

Lemma Forall2_map_same {A B C : Type} (P : B -> C -> Prop)
  (f : A -> B) (g : A -> C) (l : list A) :
  (forall x, In x l -> P (f x) (g x)) -> Forall2 P (map f l) (map g l).
Proof.
  induction l as [|x l IH]; intros H; constructor.
  - apply H. now left.
  - apply IH. intros y Hy. apply H. now right.
Qed.

(** A row whose values the table's columns take as they are is stored
    behind the next id. *)
Lemma insert_row_assignable (t : pg_table) (cols : list string)
  (types : list dtype) (serial next : Z) (r : Row) :
  tb_schema t = ("id"%string, IntegerType) :: combine cols types ->
  tb_serial t = Some ("id"%string, next) ->
  NoDup ("id"%string :: cols) ->
  List.length cols = List.length types ->
  Forall2 (fun ty v => assign ty v = Some v) types r ->
  insert_row t cols serial r = Some (VInt serial :: r).
Proof.
  intros S Se N L F. unfold insert_row. rewrite S, Se. cbn [traverse fst snd].
  inversion N as [|? ? Nid Nc]; subst.
  apply find_index_None in Nid. rewrite Nid, String.eqb_refl.
  rewrite (traverse_pointwise _ (""%string, StringType) VNull _ r).
  - reflexivity.
  - rewrite length_combine. pose proof (Forall2_length F). lia.
  - intros k Hk. rewrite length_combine in Hk.
    rewrite combine_nth by assumption. cbn [fst snd].
    rewrite (find_index_nth_error cols Nc k (nth k cols ""%string))
      by (apply nth_error_nth'; lia).
    apply (Forall2_nth _ StringType VNull _ _ F). lia.
Qed.

Lemma combine_map_fst {A B C : Type} (f : A -> B) (l : list A) :
  forall l' : list C,
    combine (map f l) l' = map (fun p => (f (fst p), snd p)) (combine l l').
Proof.
  induction l as [|x l IH]; intros [|y l']; simpl; try reflexivity.
  now rewrite IH.
Qed.

Lemma insert_rows_assignable (t : pg_table) (cols : list string) (rs : list Row) :
  (forall r serial, In r rs -> insert_row t cols serial r = Some (VInt serial :: r)) ->
  forall next, insert_rows t cols next rs = Some (numbered next rs).
Proof.
  unfold numbered.
  induction rs as [|r rs IH]; intros H next; [reflexivity|].
  cbn [insert_rows]. rewrite (H r next) by now left.
  rewrite IH by (intros; apply H; now right).
  cbn [List.length seq combine map fst snd]. rewrite Z.add_0_r. do 2 f_equal.
  rewrite <- seq_shift, combine_map_fst, map_map.
  apply map_ext. intros [k r']. cbn [fst snd]. do 2 f_equal. lia.
Qed.

Lemma resolve_column_find_index (n : string) (cols : list string) (i : nat) :
  resolve_column n cols = Some i -> find_index n cols = Some i.
Proof.
  unfold resolve_column. destruct (find_index n cols) as [j|]; [|discriminate].
  destruct (mem n _); [discriminate|]. exact (fun H => H).
Qed.

Lemma columns_typed_has_columns (t : dtype) (names : list string)
  (df : DataFrame) :
  columns_typed t names df = true -> has_columns names df = true.
Proof.
  unfold columns_typed, has_columns. rewrite !forallb_forall. intros H n I.
  specialize (H n I). now destruct (resolve_column n (columns df)).
Qed.

(** The values of integer columns are stored in integer columns as they
    are. *)
Lemma natural_key_integers (names : list string) (data : DataFrame) (d : Row) :
  columns_typed IntegerType names data = true ->
  row_typed (schema data) d = true ->
  Forall2 (fun ty v => assign ty v = Some v)
          (map (fun _ => IntegerType) names) (natural_key names data d).
Proof.
  intros T R. unfold natural_key. apply Forall2_map_same. intros n I.
  unfold columns_typed in T. rewrite forallb_forall in T. specialize (T n I).
  destruct (resolve_column n (columns data)) as [i|] eqn:E; [|discriminate].
  destruct (dtype_eq_dec _ _) as [Ty|]; [|discriminate].
  rewrite (resolve_column_find_index _ _ _ E).
  destruct (resolve_column_Some _ _ _ E) as [L _].
  rewrite columns_length in L.
  pose proof (row_typed_nth _ _ _ R L) as H. rewrite Ty in H.
  destruct (nth i d VNull); try discriminate; reflexivity.
Qed.

Lemma surrogate_key_in (key : list value) (dim_rows : list Row) :
  surrogate_key key dim_rows = VNull \/
  exists p, In p dim_rows /\ keys_match (seq 0 (List.length key))
                                        (seq 0 (List.length key)) key p = true
            /\ surrogate_key key dim_rows = nth (List.length key) p VNull.
Proof.
  unfold surrogate_key, fk_values, partners.
  destruct (filter _ dim_rows) as [|p ps] eqn:E; [now left|].
  right. exists p. cbn [map hd].
  assert (I : In p (filter (keys_match (seq 0 (List.length key))
                                       (seq 0 (List.length key)) key) dim_rows))
    by (rewrite E; now left).
  apply filter_In in I. tauto.
Qed.

(** The rows of a stored dimension: the cast key of some row of the
    dataset, then a generated id. *)
Lemma stored_rows (hash : Row -> nat) (config : dict table_config)
  (data : DataFrame) (db : database) (name : string) (c : table_config) :
  dimensions_stored hash config data db ->
  In (name, c) config ->
  ~ In "id"%string (field_names c) ->
  exists t idxs types,
    dict_get name db = Some t /\
    table_columns t = field_names c ++ ["id"%string] /\
    traverse (fun n => resolve_column n (columns data)) (field_names c) = Some idxs /\
    List.length types = List.length idxs /\
    forall p, In p (tb_rows t) ->
              exists d id, In d (rows data) /\
                           p = cast_row idxs types d ++ [VLong id].
Proof.
  intros St I Nid. destruct (St _ _ I) as (frame & t & F & G & Sc & Rw).
  destruct (dimension_frame_spec _ _ _ _ F Nid)
    as (idxs & types & E & L & _ & C & R).
  exists t, idxs, types. split; [exact G|]. split.
  - unfold table_columns. rewrite Sc. exact C.
  - split; [exact E|]. split; [exact L|]. intros p Ip. rewrite Rw, R in Ip.
    apply in_map_iff in Ip as ([r id] & <- & Irv). cbn [fst snd].
    apply in_combine_l in Irv. apply nodup_In in Irv.
    apply in_map_iff in Irv as (d & <- & Id). eauto.
Qed.

Lemma cast_row_length (idxs : list nat) (types : list dtype) (d : Row) :
  List.length types = List.length idxs ->
  List.length (cast_row idxs types d) = List.length idxs.
Proof.
  intros L. unfold cast_row. rewrite length_map, length_combine. lia.
Qed.

(** A resolved key is null or the id of a row of the dimension's table. *)
Lemma surrogate_key_stored (hash : Row -> nat) (config : dict table_config)
  (snapshot data : DataFrame) (db : database) (name : string) (c : table_config)
  (d : Row) :
  dimensions_stored hash config snapshot db ->
  In (name, c) config ->
  ~ In "id"%string (field_names c) ->
  surrogate_key (natural_key (field_names c) data d) (table_rows db name) = VNull
  \/ exists t id,
       dict_get name db = Some t /\
       surrogate_key (natural_key (field_names c) data d) (table_rows db name)
       = VLong id /\
       In (VLong id) (column_values "id" t).
Proof.
  intros St I Nid.
  destruct (stored_rows _ _ _ _ _ _ St I Nid)
    as (t & idxs & types & G & C & E & L & Rows).
  destruct (surrogate_key_in (natural_key (field_names c) data d)
                             (table_rows db name)) as [N|(p & Ip & _ & S)];
    [now left|].
  right. unfold table_rows in *. rewrite G in *.
  destruct (Rows p Ip) as (d0 & id & _ & ->).
  assert (Lk : List.length (natural_key (field_names c) data d)
               = List.length (cast_row idxs types d0)).
  { rewrite natural_key_length, cast_row_length by assumption.
    symmetry. exact (traverse_length _ _ _ E). }
  rewrite Lk, nth_middle in S. exists t, id. split; [reflexivity|].
  split; [exact S|].
  unfold column_values. rewrite C.
  rewrite find_index_skip, find_index_head by assumption. cbn [option_map].
  apply in_map_iff. exists (cast_row idxs types d0 ++ [VLong id]).
  split; [|exact Ip].
  assert (Lf : List.length (field_names c)
               = List.length (cast_row idxs types d0)).
  { rewrite cast_row_length by assumption.
    symmetry. exact (traverse_length _ _ _ E). }
  rewrite Nat.add_0_r, Lf. apply nth_middle.
Qed.

Lemma registry_no_id (name : string) (c : table_config) :
  In (name, c) DIMENSION_TABLES_CONFIG -> ~ In "id"%string (field_names c).
Proof.
  intros I X. pose proof (registry_fields_distinct name c I) as N.
  apply NoDup_app_inv in N as (_ & _ & D). apply (D _ X). now left.
Qed.

Lemma id_config_entry (name : string) (ks : list string) :
  In (name, ks) DIMENSION_ID_CONFIG ->
  exists c, In (name, c) DIMENSION_TABLES_CONFIG /\ ks = field_names c.
Proof.
  rewrite DIMENSION_ID_CONFIG_items. unfold id_items. intros I.
  apply in_map_iff in I as ([n c] & E & I). cbn [fst snd] in E.
  injection E as <- <-. eauto.
Qed.


Lemma resolved_row_key (db : database) (data : DataFrame) (d : Row)
  (i : nat) (name : string) (ks : list string) :
  nth_error DIMENSION_ID_CONFIG i = Some (name, ks) ->
  nth_error (resolved_row db DIMENSION_ID_CONFIG FACT_COLUMNS data d)
            (List.length FACT_COLUMNS + i)
  = Some (surrogate_key (natural_key ks data d) (table_rows db name)).
Proof.
  intros H. unfold resolved_row.
  rewrite nth_error_app2 by (rewrite natural_key_length; lia).
  rewrite natural_key_length.
  replace (List.length FACT_COLUMNS + i - List.length FACT_COLUMNS) with i by lia.
  now rewrite nth_error_map, H.
Qed.

Lemma fact_table_columns (stored : list Row) (next : Z) :
  table_columns (fact_table stored next)
  = "id"%string :: FACT_TABLE_ALL_COLUMNS_ORDERED.
Proof. reflexivity. Qed.

Lemma fact_table_columns_distinct :
  NoDup ("id"%string :: FACT_TABLE_ALL_COLUMNS_ORDERED).
Proof. apply distinct_names_NoDup. vm_compute. reflexivity. Qed.

Lemma fk_column_position (i : nat) (name : string) (ks : list string) :
  nth_error DIMENSION_ID_CONFIG i = Some (name, ks) ->
  find_index (fk_column_name name) ("id"%string :: FACT_TABLE_ALL_COLUMNS_ORDERED)
  = Some (S (List.length FACT_COLUMNS + i)).
Proof.
  intros H. apply (find_index_nth_error _ fact_table_columns_distinct).
  cbn [nth_error].
  unfold FACT_TABLE_ALL_COLUMNS_ORDERED, fact_table_all_columns_ordered.
  rewrite nth_error_app2 by lia.
  replace (List.length FACT_COLUMNS + i - List.length FACT_COLUMNS) with i by lia.
  unfold keys. now rewrite !nth_error_map, H.
Qed.

(** The values of a resolved row are stored in the fact table's columns as
    they are. *)
Lemma resolved_row_assignable (hash : Row -> nat) (snapshot data : DataFrame)
  (db : database) (d : Row) :
  columns_typed IntegerType FACT_COLUMNS data = true ->
  row_typed (schema data) d = true ->
  dimensions_stored hash DIMENSION_TABLES_CONFIG snapshot db ->
  Forall2 (fun ty v => assign ty v = Some v)
          (map (fun _ => IntegerType) FACT_COLUMNS
           ++ map (fun _ => LongType) DIMENSION_ID_CONFIG)
          (resolved_row db DIMENSION_ID_CONFIG FACT_COLUMNS data d).
Proof.
  intros T R St. unfold resolved_row. apply Forall2_app.
  - now apply natural_key_integers.
  - apply Forall2_map_same. intros [name ks] I. cbn [fst snd].
    destruct (id_config_entry _ _ I) as (c & Ic & ->).
    destruct (surrogate_key_stored hash _ snapshot data db name c d St Ic
                (registry_no_id _ _ Ic)) as [->|(t & id & _ & -> & _)];
      reflexivity.
Qed.

(** Every resolved key satisfies the foreign key of its column. *)
Lemma resolved_row_references (hash : Row -> nat) (snapshot data : DataFrame)
  (db : database) (d : Row) (stored : list Row) (next serial : Z) :
  dimensions_stored hash DIMENSION_TABLES_CONFIG snapshot db ->
  forallb (foreign_key_holds db (fact_table stored next)
             (VInt serial :: resolved_row db DIMENSION_ID_CONFIG FACT_COLUMNS data d))
          (fact_foreign_keys FACT_TABLE_NAME DIMENSION_ID_CONFIG) = true.
Proof.
  intros St. apply forallb_forall. intros fk I.
  unfold fact_foreign_keys in I. apply in_map_iff in I as (name & <- & I).
  unfold keys in I. apply in_map_iff in I as ([n ks] & E & I).
  cbn [fst] in E. subst n.
  destruct (In_nth_error _ _ I) as (i & Ni).
  destruct (id_config_entry _ _ I) as (c & Ic & ->).
  unfold foreign_key_holds. cbn [fk_column fk_ref_table fk_ref_column].
  rewrite fact_table_columns, (fk_column_position _ _ _ Ni).
  cbn [nth].
  rewrite (nth_error_nth _ _ VNull (resolved_row_key db data d _ _ _ Ni)).
  destruct (surrogate_key_stored hash _ snapshot data db name c d St Ic
              (registry_no_id _ _ Ic)) as [->|(t & id & G & -> & V)].
  - destruct (St _ _ Ic) as (_ & t & _ & -> & _). reflexivity.
  - rewrite G. apply existsb_exists. exists (VLong id). split; [exact V|].
    unfold join_eq. cbn [type_of common_type cast]. apply value_eqb_refl.
Qed.

(** With the dimension tables stored from a snapshot of the dataset's
    schema and integer measure columns, the resolver returns a frame that
    the writer can append to the fact table in whatever order its rows
    arrive: the table keeps its rows and takes each arriving row behind the
    next value of the sequence. *)
Lemma append_in_any_order (hash : Row -> nat) (snapshot data : DataFrame)
  (db : database) (stored : list Row) (next : Z) :
  well_formed snapshot = true ->
  well_formed data = true ->
  schema snapshot = schema data ->
  columns_typed IntegerType FACT_COLUMNS data = true ->
  dimensions_stored hash DIMENSION_TABLES_CONFIG snapshot db ->
  dict_get FACT_TABLE_NAME db = Some (fact_table stored next) ->
  exists frame,
    resolved_facts db data = Some frame /\
    columns frame = FACT_TABLE_ALL_COLUMNS_ORDERED /\
    rows frame = resolved_rows db data /\
    forall arrival,
      Permutation arrival (rows frame) ->
      write_jdbc_append db FACT_TABLE_NAME (reordered arrival frame)
      = Some (dict_set FACT_TABLE_NAME
                (fact_table (stored ++ numbered next arrival)
                            (next + Z.of_nat (count data))) db).
Proof.
  intros Ws W Sc T St G.
  destruct (resolved_facts_snapshot hash snapshot data db Ws W Sc
              (columns_typed_has_columns _ _ _ T) St)
    as (facts_data & out & R & O & C & Rows).
  exists out. split; [unfold resolved_facts; now rewrite R|].
  split; [exact C|]. split; [exact Rows|]. intros arrival P.
  unfold write_jdbc_append. rewrite G, fact_table_columns.
  change (columns (reordered arrival out)) with (columns out). rewrite C.
  assert (A : forallb (fun c => mem c ("id"%string :: FACT_TABLE_ALL_COLUMNS_ORDERED))
                      FACT_TABLE_ALL_COLUMNS_ORDERED = true)
    by (vm_compute; reflexivity).
  rewrite A. cbn [fact_table tb_serial reordered rows].
  change {| tb_schema :=
              map (fun c => (cd_name c, data_type_of_sql (cd_type c)))
                  (fact_column_defs FACT_COLUMNS DIMENSION_ID_CONFIG);
            tb_rows := stored;
            tb_primary_key := Some "id"%string;
            tb_foreign_keys := fact_foreign_keys FACT_TABLE_NAME DIMENSION_ID_CONFIG;
            tb_serial := Some ("id"%string, next) |}
    with (fact_table stored next).
  assert (Typed : forall d, In d (rows data) -> row_typed (schema data) d = true).
  { unfold well_formed in W. rewrite forallb_forall in W. exact W. }
  assert (Arrived : forall r, In r arrival ->
             exists d, In d (rows data) /\
                       r = resolved_row db DIMENSION_ID_CONFIG FACT_COLUMNS data d).
  { intros r Ir. apply (Permutation_in _ P) in Ir. rewrite Rows in Ir.
    apply in_map_iff in Ir as (d & <- & Id). eauto. }
  assert (Ins : forall r serial,
             In r arrival ->
             insert_row (fact_table stored next) FACT_TABLE_ALL_COLUMNS_ORDERED
                        serial r = Some (VInt serial :: r)).
  { intros r serial Ir. destruct (Arrived r Ir) as (d & Id & ->).
    apply (insert_row_assignable _ _
             (map (fun _ => IntegerType) FACT_COLUMNS
              ++ map (fun _ => LongType) DIMENSION_ID_CONFIG) _ next).
    - vm_compute. reflexivity.
    - reflexivity.
    - exact fact_table_columns_distinct.
    - vm_compute. reflexivity.
    - apply (resolved_row_assignable hash snapshot); auto. }
  rewrite (insert_rows_assignable _ _ _ Ins).
  assert (K : forallb
                (fun r => forallb (foreign_key_holds db (fact_table stored next) r)
                                  (tb_foreign_keys (fact_table stored next)))
                (numbered next arrival) = true).
  { apply forallb_forall. intros r Ir. unfold numbered in Ir.
    apply in_map_iff in Ir as ([k r0] & <- & Ik). cbn [fst snd].
    apply in_combine_r in Ik. destruct (Arrived r0 Ik) as (d & _ & ->).
    apply (resolved_row_references hash snapshot). exact St. }
  rewrite K. do 2 f_equal. unfold fact_table.
  cbn [tb_schema tb_rows tb_primary_key tb_foreign_keys tb_serial option_map fst snd].
  assert (Len : List.length (numbered next arrival) = count data).
  { rewrite numbered_length, (Permutation_length P), Rows.
    unfold resolved_rows, count. apply length_map. }
  rewrite Len. reflexivity.
Qed.

(** [load_fact_table] is the write of the resolved frame with its rows in
    the order in which the frame lists them. *)
Lemma load_fact_table_writes (db : database) (data frame : DataFrame) :
  resolved_facts db data = Some frame ->
  load_fact_table db data
  = write_jdbc_append db FACT_TABLE_NAME (reordered (rows frame) frame).
Proof.
  unfold resolved_facts, load_fact_table, load_facts.
  destruct (resolve_keys _ _ db data) as [facts_data|]; [|discriminate].
  intros ->. now destruct frame.
Qed.


(* ================================================================= *)
(** * The claims *)

(** C1.  For every well-formed dataset that carries the measure columns,
    once the dimension loop has written the dimension tables from it, the
    key-resolution loop returns, and its frame has exactly one row per row
    of the dataset; so has the frame handed to the writer.  The empty
    dataset is included, and so are rows that find no partner in a
    dimension table. *)
Theorem C1_resolution_preserves_row_count (hash : Row -> nat)
  (data : DataFrame) (conn conn1 : connection) :
  txn conn = Idle ->
  well_formed data = true ->
  has_columns FACT_COLUMNS data = true ->
  write_dimensions hash data conn DIMENSION_TABLES_CONFIG = Some conn1 ->
  exists facts_data out,
    resolve_keys DIMENSION_ID_CONFIG FACT_CONFIG
      (store (fst (create_facts_table conn1))) data = Some facts_data /\
    count facts_data = count data /\
    resolved_facts (store (fst (create_facts_table conn1))) data = Some out /\
    count out = count data.
Proof.
  intros I W M D.
  destruct (resolved_facts_spec hash data _ W M
              (notebook_dimensions_stored hash data conn conn1 I D))
    as (facts_data & out & R & O & _ & Rows).
  assert (C : count out = count data).
  { unfold count. rewrite Rows. apply length_map. }
  exists facts_data, out. split; [assumption|]. split.
  - rewrite <- C. symmetry. exact (select_count _ _ _ O).
  - split; [|assumption]. unfold resolved_facts. now rewrite R.
Qed.

Lemma C1_witness :
  txn fresh_connection = Idle /\
  well_formed sample_census = true /\
  has_columns FACT_COLUMNS sample_census = true /\
  exists facts_data out,
    resolve_keys DIMENSION_ID_CONFIG FACT_CONFIG
      (store (fst (create_facts_table (dimensions_written sample_census))))
      sample_census = Some facts_data /\
    count facts_data = count sample_census /\
    resolved_facts
      (store (fst (create_facts_table (dimensions_written sample_census))))
      sample_census = Some out /\
    count out = count sample_census.
Proof.
  split; [reflexivity|]. split; [vm_compute; reflexivity|].
  split; [vm_compute; reflexivity|].
  apply (C1_resolution_preserves_row_count sample_hash sample_census
           fresh_connection (dimensions_written sample_census));
    vm_compute; reflexivity.
Defined.

(** C2.  For every dimension of the registry, the frame the dimension loop
    builds holds no two rows that agree on all the declared fields: its
    projection on those fields is the projected-and-cast dataset with
    duplicates removed, rows being compared as whole rows and null being
    equal to null. *)
Theorem C2_dimension_rows_deduplicated (hash : Row -> nat) (data : DataFrame)
  (name : string) (c : table_config) (frame : DataFrame) :
  In (name, c) DIMENSION_TABLES_CONFIG ->
  dimension_frame hash c data = Some frame ->
  exists casted projected,
    select_cast (map (fun f => (field f, type f)) (fields c)) data = Some casted /\
    select (field_names c) frame = Some projected /\
    rows projected = nodup row_eq_dec (rows casted) /\
    NoDup (rows projected).
Proof.
  intros I F.
  exact (dimension_frame_deduplicated hash c data frame F
           (registry_fields_distinct name c I)).
Qed.

Lemma C2_witness :
  In ("DIM_TP_DEPENDENCIA"%string, dependencia_config) DIMENSION_TABLES_CONFIG /\
  exists frame,
    dimension_frame sample_hash dependencia_config sample_census = Some frame /\
    exists casted projected,
      select_cast (map (fun f => (field f, type f)) (fields dependencia_config))
                  sample_census = Some casted /\
      select (field_names dependencia_config) frame = Some projected /\
      rows projected = nodup row_eq_dec (rows casted) /\
      NoDup (rows projected).
Proof.
  split; [vm_compute; tauto|].
  destruct (dimension_frame sample_hash dependencia_config sample_census)
    as [frame|] eqn:F; [|vm_compute in F; discriminate].
  exists frame. split; [reflexivity|].
  apply (C2_dimension_rows_deduplicated sample_hash sample_census
           "DIM_TP_DEPENDENCIA" dependencia_config frame);
    [vm_compute; tauto | exact F].
Defined.



(** The dimension of the school administration as the loop wrote it from
    the sample holds the codes 1 and 2 and the missing code; loading the
    larger extract against it leaves the school with code 3 without a key
    for that dimension, and every school in the fact table. *)
Example unmatched_code_in_the_fact_table :
  column_values "TP_DEPENDENCIA"
    (match dict_get "DIM_TP_DEPENDENCIA" (prepared_store sample_census) with
     | Some t => t
     | None => fact_table [] 0
     end)
  = [VInt 1; VNull; VInt 2] /\
  option_map
    (fun db' => column_values "ID_DIM_TP_DEPENDENCIA"
                  (match dict_get FACT_TABLE_NAME db' with
                   | Some t => t
                   | None => fact_table [] 0
                   end))
    (load_fact_table (prepared_store sample_census) olap_census)
  = Some [VLong 8589934594; VLong 8589934592; VLong 8589934592; VNull;
          VLong 8589934594; VLong 8589934594; VLong 8589934594].
Proof. vm_compute. split; reflexivity. Qed.

(** In the sample, the load goes through and the fact table ends up with
    the three rows, the second one with a null administration key. *)
Example sample_load :
  exists db' t',
    load_fact_table (prepared_store sample_census) sample_census = Some db' /\
    dict_get FACT_TABLE_NAME db' = Some t' /\
    column_values "QT_DOC_BAS" t' = [VInt 100; VInt 50; VInt 7] /\
    column_values "ID_DIM_TP_DEPENDENCIA" t'
    = [VLong 8589934592; VNull; VLong 8589934594].
Proof.
  eexists. eexists. split; [vm_compute; reflexivity|].
  split; [vm_compute; reflexivity|].
  vm_compute. split; reflexivity.
Qed.

(** C4.  The frame handed to the writer has its columns in the order the
    create-table statement declares them after the serial [id]: the
    measures in [FACT_COLUMNS] order, then one foreign key per dimension in
    registry order, each named [ID_] followed by the dimension's name. *)
Theorem C4_loaded_columns_follow_schema (db : database) (data out : DataFrame) :
  resolved_facts db data = Some out ->
  columns out = FACT_COLUMNS ++ map fk_column_name (keys DIMENSION_TABLES_CONFIG) /\
  map cd_name (fact_column_defs FACT_COLUMNS DIMENSION_ID_CONFIG)
  = "id"%string :: columns out /\
  map render_column (tl (fact_column_defs FACT_COLUMNS DIMENSION_ID_CONFIG))
  = fact_column_lines FACT_COLUMNS DIMENSION_ID_CONFIG /\
  facts_table_statements
  = [ CreateTableIfNotExists FACT_TABLE_NAME
        (fact_column_defs FACT_COLUMNS DIMENSION_ID_CONFIG);
      AlterTableAddForeignKeys FACT_TABLE_NAME
        (fact_foreign_keys FACT_TABLE_NAME DIMENSION_ID_CONFIG) ].
Proof.
  unfold resolved_facts, ordered_facts.
  destruct (resolve_keys _ _ db data) as [facts_data|]; [|discriminate].
  intros S. destruct (select_spec _ _ _ S) as (-> & _).
  repeat split; vm_compute; reflexivity.
Qed.

Lemma C4_witness :
  exists out,
    resolved_facts (prepared_store sample_census) sample_census = Some out /\
    columns out = FACT_COLUMNS ++ map fk_column_name (keys DIMENSION_TABLES_CONFIG) /\
    map cd_name (fact_column_defs FACT_COLUMNS DIMENSION_ID_CONFIG)
    = "id"%string :: columns out /\
    map render_column (tl (fact_column_defs FACT_COLUMNS DIMENSION_ID_CONFIG))
    = fact_column_lines FACT_COLUMNS DIMENSION_ID_CONFIG /\
    facts_table_statements
    = [ CreateTableIfNotExists FACT_TABLE_NAME
          (fact_column_defs FACT_COLUMNS DIMENSION_ID_CONFIG);
        AlterTableAddForeignKeys FACT_TABLE_NAME
          (fact_foreign_keys FACT_TABLE_NAME DIMENSION_ID_CONFIG) ].
Proof.
  destruct (resolved_facts (prepared_store sample_census) sample_census)
    as [out|] eqn:R; [|vm_compute in R; discriminate].
  exists out. split; [reflexivity|].
  exact (C4_loaded_columns_follow_schema (prepared_store sample_census)
           sample_census out R).
Defined.

(** C5, as stated, fails: on a store where the schema was built, running
    the same statements again makes the store raise, because the first
    constraint already exists. *)
Lemma C5_second_build_raises :
  snd (create_facts_table (dimensions_written sample_census))
  = [CreatingFactsTable; CreatedFactsTable; Done] /\
  snd (execute (fst (create_facts_table (dimensions_written sample_census)))
               facts_table_statements)
  = Some (DuplicateObject "FACT_CENSO_ESCOLAR_DIM_LOCAL_fk" "FACT_CENSO_ESCOLAR").
Proof. vm_compute. split; reflexivity. Qed.

(** C5, amended.  On a store where the schema was built, the second run of
    the statements raises a duplicate-constraint error in the store (only
    the create-table statement is guarded); the cell catches it, prints it
    and rolls back, so that the connection and the schema are left exactly
    as they were. *)
Theorem C5_second_build_is_caught (conn conn1 : connection) :
  create_facts_table conn = (conn1, [CreatingFactsTable; CreatedFactsTable; Done]) ->
  snd (execute conn1 facts_table_statements)
  = Some (DuplicateObject "FACT_CENSO_ESCOLAR_DIM_LOCAL_fk" FACT_TABLE_NAME) /\
  create_facts_table conn1
  = (conn1,
     [CreatingFactsTable;
      PrintedError (DuplicateObject "FACT_CENSO_ESCOLAR_DIM_LOCAL_fk" FACT_TABLE_NAME)]).
Proof.
  intros H.
  exact (create_facts_table_with_twice FACT_TABLE_NAME FACT_COLUMNS
           DIMENSION_ID_CONFIG conn conn1 _ _ eq_refl H).
Qed.

Lemma C5_witness :
  create_facts_table (dimensions_written sample_census)
  = (fst (create_facts_table (dimensions_written sample_census)),
     [CreatingFactsTable; CreatedFactsTable; Done]) /\
  snd (execute (fst (create_facts_table (dimensions_written sample_census)))
               facts_table_statements)
  = Some (DuplicateObject "FACT_CENSO_ESCOLAR_DIM_LOCAL_fk" FACT_TABLE_NAME) /\
  create_facts_table (fst (create_facts_table (dimensions_written sample_census)))
  = (fst (create_facts_table (dimensions_written sample_census)),
     [CreatingFactsTable;
      PrintedError (DuplicateObject "FACT_CENSO_ESCOLAR_DIM_LOCAL_fk" FACT_TABLE_NAME)]).
Proof.
  split; [vm_compute; reflexivity|].
  apply (C5_second_build_is_caught (dimensions_written sample_census)).
  vm_compute. reflexivity.
Defined.

(** C6, as stated, fails: a flag column called [local] synthesizes the name
    [DIM_LOCAL], which the hand-written registry already holds, and the
    build returns a registry all the same, the hand-written specification
    gone. *)
Lemma C6_collision_is_silent :
  In (fst (integer_dimension "local")) (keys (dict_of_items HAND_WRITTEN_DIMENSIONS)) /\
  build_dimension_config HAND_WRITTEN_DIMENSIONS ["local"%string]
  = [ ("DIM_LOCAL",
       {| fields := [ {| field := "local"; type := "integer" |} ] |}) ]%string.
Proof. vm_compute. split; [tauto | reflexivity]. Qed.

Lemma keys_In_value {V : Type} (k : string) (d : dict V) :
  In k (keys d) -> exists v, In (k, v) d.
Proof.
  unfold keys. intros H. apply in_map_iff in H as ([k' v] & E & I).
  cbn [fst] in E. subst. eauto.
Qed.

(** C6, amended.  Building the registry never fails.  The names of the
    registry are pairwise different, and every name synthesized from a flag
    column holds a synthesized single-field integer specification: when the
    name collides with a hand-written one, the hand-written specification is
    replaced. *)
Theorem C6_registry_names_distinct_after_replacement
  (hand_written : list (string * table_config)) (flags : list string) :
  NoDup (keys (build_dimension_config hand_written flags)) /\
  Forall (fun dimension =>
            exists d, In d flags /\ upper d = upper dimension /\
                      dict_get ("DIM_" ++ upper dimension)%string
                               (build_dimension_config hand_written flags)
                      = Some {| fields := [ {| field := d; type := "integer" |} ] |})
         flags.
Proof.
  unfold build_dimension_config. split.
  - apply dict_update_NoDup, dict_of_items_NoDup.
  - apply Forall_forall. intros dimension I.
    set (synthesized := dict_of_items (map integer_dimension flags)).
    assert (K : In ("DIM_" ++ upper dimension)%string (keys synthesized)).
    { apply dict_update_keys_incl. right.
      rewrite map_map. apply in_map_iff. exists dimension. now split. }
    destruct (keys_In_value _ _ K) as (v & Iv).
    destruct (dict_update_In _ _ _ Iv) as [[]|Iv'].
    apply in_map_iff in Iv' as (d & E & Id). unfold integer_dimension in E.
    injection E as E1 E2. exists d. split; [assumption|]. split.
    + cbn in E1. first [exact E1 | now injection E1].
    + subst v. apply dict_get_update_in; [|assumption].
      apply (dict_of_items_NoDup (map integer_dimension flags)).
Qed.

(** C7 fails on a dataset whose administration code is a 64-bit column.
    The dimension is built from the code cast to [integer], which is 1 for
    the code 4294967297, and holds a row for 1; the fact side is selected
    without the cast, the join compares 4294967297 with 1, and the fact row
    gets a null foreign key although its key, in the representation the
    dimension was built with, is in the dimension. *)
Theorem C7_uncast_fact_key_misses_its_dimension :
  well_formed wide_census = true /\
  natural_key ["TP_DEPENDENCIA"%string] wide_census
    (census_row "Acre" "AC" 12 "Rio Branco" 1200401 (VLong 4294967297) 100)
  = [VLong 4294967297] /\
  cast IntegerType (VLong 4294967297) = VInt 1 /\
  table_rows (prepared_store wide_census) "DIM_TP_DEPENDENCIA"
  = [[VInt 1; VLong 8589934592]] /\
  partners [cast IntegerType (VLong 4294967297)]
           (table_rows (prepared_store wide_census) "DIM_TP_DEPENDENCIA")
  = [[VInt 1; VLong 8589934592]] /\
  partners [VLong 4294967297]
           (table_rows (prepared_store wide_census) "DIM_TP_DEPENDENCIA") = [] /\
  option_map (fun out => map (fun r => nth 16 r (VInt 0)) (rows out))
             (resolved_facts (prepared_store wide_census) wide_census)
  = Some [VNull] /\
  nth_error FACT_TABLE_ALL_COLUMNS_ORDERED 16 = Some "ID_DIM_TP_DEPENDENCIA"%string.
Proof. vm_compute. repeat split; reflexivity. Qed.

(** C8, as stated, fails in its last part.  When the table of a dimension
    has no column [id], the clause of that dimension is refused with a
    message that names the column [id] only; it is the same message
    whichever dimension it is, the first of the registry or the last.  And
    when the transaction had failed before the cell ran, the message names
    nothing of the build.  In neither case is the caller told which
    constraint failed. *)
Lemma C8_error_names_no_constraint :
  option_map (fun ce => fk_name (fst ce))
             (failed_constraint (connection_without_id "DIM_LOCAL"))
  = Some "FACT_CENSO_ESCOLAR_DIM_LOCAL_fk"%string /\
  option_map (fun ce => fk_name (fst ce))
             (failed_constraint (connection_without_id "DIM_IN_EQUIP_NENHUM"))
  = Some "FACT_CENSO_ESCOLAR_DIM_IN_EQUIP_NENHUM_fk"%string /\
  snd (create_facts_table (connection_without_id "DIM_LOCAL"))
  = [CreatingFactsTable; PrintedError (UndefinedColumn "id")] /\
  snd (create_facts_table (connection_without_id "DIM_IN_EQUIP_NENHUM"))
  = [CreatingFactsTable; PrintedError (UndefinedColumn "id")] /\
  snd (create_facts_table failed_connection)
  = [CreatingFactsTable; PrintedError InFailedSqlTransaction].
Proof. vm_compute. repeat split; reflexivity. Qed.

(** C8, amended.  When [cursor.execute] raises in the schema build, the
    cell prints the store's error and rolls the transaction back: the store
    is what it was before the cell ran and the connection is idle, whatever
    the script had already done inside the transaction.  Unless the
    transaction had failed before, the error is that of the one constraint
    clause that was refused; unless it says that the column [id] is
    missing, it carries the name of that constraint, of its column or of
    the table it references, and fits no other constraint of the fact
    table. *)
Theorem C8_failed_build_is_rolled_back (conn : connection) (e : pg_error) :
  snd (execute conn facts_table_statements) = Some e ->
  create_facts_table conn
  = ({| store := store conn; txn := Idle |}, [CreatingFactsTable; PrintedError e]) /\
  (e = InFailedSqlTransaction
   \/ exists fk,
        failed_constraint conn = Some (fk, e) /\
        In fk (fact_foreign_keys FACT_TABLE_NAME DIMENSION_ID_CONFIG) /\
        (e = UndefinedColumn "id"
         \/ names_constraint FACT_TABLE_NAME fk e /\
            forall fk',
              In fk' (fact_foreign_keys FACT_TABLE_NAME DIMENSION_ID_CONFIG) ->
              names_constraint FACT_TABLE_NAME fk' e -> fk' = fk)).
Proof.
  intros H. split.
  - unfold create_facts_table, create_facts_table_with.
    destruct (execute conn facts_table_statements) as [conn' [e'|]] eqn:E;
      cbn [snd] in H; [|discriminate].
    injection H as ->. unfold rollback. now rewrite (execute_store _ _ _ _ E).
  - destruct (facts_table_failure _ _ H) as [->|(fk & F & I & C)]; [now left|].
    right. exists fk. split; [exact F|]. split; [exact I|].
    destruct (fact_foreign_keys_reference_id fk I) as [Rid Nid].
    assert (U : forall fk',
               In fk' (fact_foreign_keys FACT_TABLE_NAME DIMENSION_ID_CONFIG) ->
               names_constraint FACT_TABLE_NAME fk e ->
               names_constraint FACT_TABLE_NAME fk' e -> fk' = fk).
    { intros fk' I' N N'. apply (fact_foreign_keys_determined fk' fk I' I).
      destruct N as [-> | [-> | [-> | [-> | ->]]]];
        destruct N' as [X|[X|[X|[X|X]]]]; try discriminate X;
        injection X as X; rewrite X; tauto. }
    destruct C as [C|[C|[C|[C|[C|C]]]]];
      try (right;
           assert (N : names_constraint FACT_TABLE_NAME fk e)
             by (unfold names_constraint; tauto);
           split; [exact N | intros fk' I' N'; exact (U fk' I' N N')]).
    left. rewrite C, Rid. reflexivity.
Qed.

Lemma C8_witness :
  snd (execute incomplete_connection facts_table_statements)
  = Some (UndefinedTable "DIM_IN_EQUIP_NENHUM") /\
  create_facts_table incomplete_connection
  = ({| store := store incomplete_connection; txn := Idle |},
     [CreatingFactsTable; PrintedError (UndefinedTable "DIM_IN_EQUIP_NENHUM")]) /\
  (UndefinedTable "DIM_IN_EQUIP_NENHUM" = InFailedSqlTransaction
   \/ exists fk,
        failed_constraint incomplete_connection
        = Some (fk, UndefinedTable "DIM_IN_EQUIP_NENHUM") /\
        In fk (fact_foreign_keys FACT_TABLE_NAME DIMENSION_ID_CONFIG) /\
        (UndefinedTable "DIM_IN_EQUIP_NENHUM" = UndefinedColumn "id"
         \/ names_constraint FACT_TABLE_NAME fk
              (UndefinedTable "DIM_IN_EQUIP_NENHUM") /\
            forall fk',
              In fk' (fact_foreign_keys FACT_TABLE_NAME DIMENSION_ID_CONFIG) ->
              names_constraint FACT_TABLE_NAME fk'
                (UndefinedTable "DIM_IN_EQUIP_NENHUM") -> fk' = fk)).
Proof.
  split; [vm_compute; reflexivity|].
  apply (C8_failed_build_is_rolled_back incomplete_connection).
  vm_compute. reflexivity.
Defined.

(** In that run the create-table statement and eleven constraints had been
    executed inside the transaction when the twelfth failed; nothing of it
    reached the store. *)
Example incomplete_build_leaves_no_table :
  dict_get FACT_TABLE_NAME (store (fst (create_facts_table incomplete_connection)))
  = None.
Proof. vm_compute. reflexivity. Qed.

Lemma NoDup_map_injective {A B : Type} (f : A -> B) (l : list A) :
  (forall x y, f x = f y -> x = y) -> NoDup l -> NoDup (map f l).
Proof.
  intros Inj. induction 1 as [|x l N1 N2 IH]; simpl; constructor; [|assumption].
  intros I. apply in_map_iff in I as (y & E & Iy). apply Inj in E. now subst.
Qed.

(** The ids of a dimension frame are the generated ones; they are pairwise
    different as long as the frame has at most 2^33 rows. *)
Lemma dimension_frame_ids_distinct (hash : Row -> nat) (c : table_config)
  (data frame : DataFrame) :
  dimension_frame hash c data = Some frame ->
  NoDup (field_names c ++ ["id"%string]) ->
  (Z.of_nat (count frame) <= 2 ^ 33)%Z ->
  NoDup (column_values "id" (dimension_table frame)).
Proof.
  intros F N B.
  assert (Nid : ~ In "id"%string (field_names c)).
  { destruct (NoDup_app_inv _ _ N) as (_ & _ & D). intros H.
    apply (D _ H). now left. }
  destruct (dimension_frame_spec _ _ _ _ F Nid)
    as (idxs & types & E & L & _ & C & R).
  set (deduplicated := nodup row_eq_dec (map (cast_row idxs types) (rows data))) in *.
  set (ids := monotonically_increasing_id hash (fun _ => 0%Z) deduplicated) in *.
  assert (Li : List.length deduplicated = List.length ids).
  { unfold ids. now rewrite monotonically_increasing_id_length. }
  assert (Lc : count frame = List.length deduplicated).
  { unfold count. rewrite R, length_map, length_combine. lia. }
  assert (V : column_values "id" (dimension_table frame) = map VLong ids).
  { unfold column_values, table_columns. cbn [dimension_table tb_schema tb_rows].
    change (map fst (schema frame)) with (columns frame). rewrite C.
    rewrite find_index_skip, find_index_head by assumption. cbn [option_map].
    rewrite R, map_map.
    rewrite <- (combine_snd_length deduplicated ids Li) at 2.
    rewrite map_map. apply map_ext_in. intros [r v] Hrv. cbn [fst snd].
    apply in_combine_l in Hrv. apply nodup_In in Hrv.
    apply in_map_iff in Hrv as (d0 & <- & _).
    assert (LR : List.length (cast_row idxs types d0)
                 = List.length (field_names c)).
    { unfold cast_row. rewrite length_map, length_combine.
      pose proof (traverse_length _ _ _ E). lia. }
    rewrite Nat.add_0_r, app_nth2 by lia.
    now rewrite LR, Nat.sub_diag. }
  rewrite V. apply NoDup_map_injective; [intros x y [= ->]; reflexivity|].
  apply (monotonically_increasing_id_spec hash deduplicated (fun _ => 0%Z)).
  - intros _. lia.
  - intros _. lia.
Qed.

(** C9.  Every dimension table the dimension loop leaves behind holds the
    frame built for it, with [id] as its primary key and pairwise different
    values in [id].  The ids the frame is given are pairwise different by
    themselves as long as the frame has at most 2^33 rows (they are the
    partition index times 2^33 plus a rank: neither contiguous nor ordered
    across partitions); beyond that, it is the primary-key step that stops
    the loop. *)
Theorem C9_surrogate_keys_distinct (hash : Row -> nat) (data : DataFrame)
  (name : string) (c : table_config) :
  In (name, c) DIMENSION_TABLES_CONFIG ->
  (forall conn conn1,
     txn conn = Idle ->
     write_dimensions hash data conn DIMENSION_TABLES_CONFIG = Some conn1 ->
     exists frame,
       dimension_frame hash c data = Some frame /\
       dict_get name (store conn1) = Some (dimension_table frame) /\
       NoDup (column_values "id" (dimension_table frame))) /\
  (forall frame,
     dimension_frame hash c data = Some frame ->
     (Z.of_nat (count frame) <= 2 ^ 33)%Z ->
     NoDup (column_values "id" (dimension_table frame))).
Proof.
  intros I. split.
  - intros conn conn1 T W.
    destruct (write_dimensions_spec hash data _ _ _ T registry_keys_distinct W)
      as (_ & A & _).
    exact (A _ _ I).
  - intros frame F B.
    exact (dimension_frame_ids_distinct hash c data frame F
             (registry_fields_distinct name c I) B).
Qed.

Lemma C9_witness :
  In ("DIM_TP_DEPENDENCIA"%string, dependencia_config) DIMENSION_TABLES_CONFIG /\
  txn fresh_connection = Idle /\
  write_dimensions sample_hash sample_census fresh_connection DIMENSION_TABLES_CONFIG
  = Some (dimensions_written sample_census) /\
  exists frame,
    dimension_frame sample_hash dependencia_config sample_census = Some frame /\
    dict_get "DIM_TP_DEPENDENCIA" (store (dimensions_written sample_census))
    = Some (dimension_table frame) /\
    (Z.of_nat (count frame) <= 2 ^ 33)%Z /\
    NoDup (column_values "id" (dimension_table frame)).
Proof.
  assert (I : In ("DIM_TP_DEPENDENCIA"%string, dependencia_config)
                 DIMENSION_TABLES_CONFIG) by (vm_compute; tauto).
  assert (W : write_dimensions sample_hash sample_census fresh_connection
                DIMENSION_TABLES_CONFIG
              = Some (dimensions_written sample_census))
    by (vm_compute; reflexivity).
  split; [exact I|]. split; [reflexivity|]. split; [exact W|].
  destruct (C9_surrogate_keys_distinct sample_hash sample_census
              "DIM_TP_DEPENDENCIA" dependencia_config I) as [Stored Generated].
  destruct (Stored fresh_connection (dimensions_written sample_census) eq_refl W)
    as (frame & F & G & _).
  exists frame. split; [exact F|]. split; [exact G|].
  assert (B : (Z.of_nat (count frame) <= 2 ^ 33)%Z).
  { vm_compute in F. injection F as <-. vm_compute. discriminate. }
  split; [exact B|]. exact (Generated frame F B).
Defined.

(** The ids of the sample's administration dimension: three rows in one
    partition, numbered from that partition's base. *)
Example sample_ids :
  column_values "id"
    (dimension_table
       (match dimension_frame sample_hash dependencia_config sample_census with
        | Some frame => frame
        | None => {| schema := []; rows := [] |}
        end))
  = [VLong 8589934592; VLong 8589934593; VLong 8589934594].
Proof. vm_compute. reflexivity. Qed.


Lemma join_dimensions_app (db : database) (first : dict (list string)) :
  forall (facts_data : DataFrame) (second : dict (list string)),
    join_dimensions db facts_data (first ++ second)
    = match join_dimensions db facts_data first with
      | Some frame => join_dimensions db frame second
      | None => None
      end.
Proof.
  induction first as [|entry first IH]; intros facts_data second; [reflexivity|].
  cbn [app join_dimensions].
  destruct (join_dimension db facts_data entry); [apply IH | reflexivity].
Qed.




(** After two iterations on the sample: the location and the
    administration keys are resolved, the other flags still to come. *)
Example sample_columns_after_two_iterations :
  option_map columns
    (match select_facts DIMENSION_ID_CONFIG FACT_CONFIG sample_census with
     | Some facts_data =>
         join_dimensions (prepared_store sample_census) facts_data
           (firstn 2 DIMENSION_ID_CONFIG)
     | None => None
     end)
  = Some ([ "TP_LOCALIZACAO"; "IN_AGUA_POTAVEL"; "IN_ENERGIA_INEXISTENTE";
            "IN_ESGOTO_INEXISTENTE"; "IN_BANHEIRO"; "IN_BIBLIOTECA";
            "IN_REFEITORIO"; "IN_COMPUTADOR"; "IN_INTERNET";
            "IN_EQUIP_NENHUM" ]%string
          ++ FACT_COLUMNS
          ++ [ "ID_DIM_LOCAL"; "ID_DIM_TP_DEPENDENCIA" ]%string).
Proof. vm_compute. reflexivity. Qed.

(* ================================================================= *)
(** * Further properties *)

(** ** The dimension loop runs through *)

Lemma nodup_length_le {A : Type} (dec : forall x y : A, {x = y} + {x <> y})
  (l : list A) : List.length (nodup dec l) <= List.length l.
Proof.
  induction l as [|x l IH]; simpl; [lia|].
  destruct (in_dec dec x l); simpl; lia.
Qed.

Lemma dict_set_twice {V : Type} (k : string) (v w : V) (d : dict V) :
  dict_set k w (dict_set k v d) = dict_set k w d.
Proof.
  induction d as [|[k' v'] d IH]; simpl.
  - now rewrite String.eqb_refl.
  - destruct (String.eqb k' k) eqn:E; simpl; rewrite E; [reflexivity|].
    now rewrite IH.
Qed.

Lemma select_cast_Some (fields : list (string * string)) (data : DataFrame) :
  has_columns (map fst fields) data = true ->
  forallb (fun f => match parse_data_type (snd f) with
                    | Some _ => true
                    | None => false
                    end) fields = true ->
  exists out, select_cast fields data = Some out.
Proof.
  intros H T. unfold select_cast.
  assert (E1 : exists idxs,
             traverse (fun f => resolve_column (fst f) (columns data)) fields
             = Some idxs).
  { clear T. unfold has_columns in H.
    induction fields as [|f l IH]; [now exists []|].
    cbn [map forallb] in H. apply andb_true_iff in H as [H1 H2].
    destruct (IH H2) as (idxs & E). cbn [traverse]. rewrite E.
    destruct (resolve_column (fst f) (columns data)); [eauto | discriminate]. }
  assert (E2 : exists types,
             traverse (fun f => parse_data_type (snd f)) fields = Some types).
  { clear H E1. induction fields as [|f l IH]; [now exists []|].
    cbn [forallb] in T. apply andb_true_iff in T as [T1 T2].
    destruct (IH T2) as (types & E). cbn [traverse]. rewrite E.
    destruct (parse_data_type (snd f)); [eauto | discriminate]. }
  destruct E1 as (idxs & ->), E2 as (types & ->). eauto.
Qed.

Lemma dimension_frame_Some (hash : Row -> nat) (config : table_config)
  (data : DataFrame) :
  has_columns (field_names config) data = true ->
  types_known config = true ->
  exists frame, dimension_frame hash config data = Some frame.
Proof.
  intros H T. unfold dimension_frame.
  destruct (select_cast_Some (map (fun f => (field f, type f)) (fields config)) data)
    as (out & ->); [| |eauto].
  - rewrite map_map. exact H.
  - unfold types_known in T. rewrite forallb_forall in *.
    intros f I. apply in_map_iff in I as (f0 & <- & I0). exact (T _ I0).
Qed.

(** The [id] column of a dimension frame holds the generated ids. *)
Lemma dimension_frame_id_values (hash : Row -> nat) (c : table_config)
  (data frame : DataFrame) :
  dimension_frame hash c data = Some frame ->
  ~ In "id"%string (field_names c) ->
  exists ids : list Z,
    column_values "id" (dimension_table frame) = map VLong ids /\
    count frame = List.length ids /\
    count frame <= count data.
Proof.
  intros F Nid.
  destruct (dimension_frame_spec _ _ _ _ F Nid)
    as (idxs & types & E & L & _ & C & R).
  set (deduplicated := nodup row_eq_dec (map (cast_row idxs types) (rows data))) in *.
  set (ids := monotonically_increasing_id hash (fun _ => 0%Z) deduplicated) in *.
  assert (Li : List.length deduplicated = List.length ids).
  { unfold ids. now rewrite monotonically_increasing_id_length. }
  assert (Lc : count frame = List.length deduplicated).
  { unfold count. rewrite R, length_map, length_combine. lia. }
  exists ids. split; [|split; [lia|]].
  - unfold column_values, table_columns. cbn [dimension_table tb_schema tb_rows].
    change (map fst (schema frame)) with (columns frame). rewrite C.
    rewrite find_index_skip, find_index_head by assumption. cbn [option_map].
    rewrite R, map_map.
    rewrite <- (combine_snd_length deduplicated ids Li) at 2.
    rewrite map_map. apply map_ext_in. intros [r v] Hrv. cbn [fst snd].
    apply in_combine_l in Hrv. apply nodup_In in Hrv.
    apply in_map_iff in Hrv as (d0 & <- & _).
    assert (LR : List.length (cast_row idxs types d0)
                 = List.length (field_names c)).
    { unfold cast_row. rewrite length_map, length_combine.
      pose proof (traverse_length _ _ _ E). lia. }
    rewrite Nat.add_0_r, app_nth2 by lia.
    now rewrite LR, Nat.sub_diag.
  - rewrite Lc. unfold deduplicated, count.
    etransitivity; [apply nodup_length_le|]. now rewrite length_map.
Qed.

Lemma dimension_ready_spec (data : DataFrame) (db : database)
  (entry : string * table_config) :
  dimension_ready data db entry = true ->
  NoDup (field_names (snd entry) ++ ["id"%string]) /\
  types_known (snd entry) = true /\
  has_columns (field_names (snd entry)) data = true /\
  referenced (fst entry) db = false.
Proof.
  unfold dimension_ready. rewrite !andb_true_iff, negb_true_iff.
  intros [[[A B] C] D]. apply distinct_names_NoDup in A. tauto.
Qed.

(** One iteration of the dimension loop that has what it needs ends
    normally, and leaves the store with the dimension's table set. *)
Lemma write_dimension_succeeds (hash : Row -> nat) (data : DataFrame)
  (conn : connection) (entry : string * table_config) :
  txn conn = Idle ->
  dimension_ready data (store conn) entry = true ->
  (Z.of_nat (count data) <= 2 ^ 33)%Z ->
  exists frame,
    dimension_frame hash (snd entry) data = Some frame /\
    write_dimension hash data conn entry
    = Some {| store := dict_set (fst entry) (dimension_table frame) (store conn);
              txn := Idle |}.
Proof.
  intros I R B. destruct (dimension_ready_spec _ _ _ R) as (N & T & H & Rf).
  destruct (dimension_frame_Some hash _ _ H T) as (frame & F).
  exists frame. split; [exact F|].
  assert (Nid : ~ In "id"%string (field_names (snd entry))).
  { destruct (NoDup_app_inv _ _ N) as (_ & _ & D). intros X.
    apply (D _ X). now left. }
  destruct (dimension_frame_spec _ _ _ _ F Nid) as (idxs & types & _ & _ & _ & C & _).
  destruct (dimension_frame_id_values _ _ _ _ F Nid) as (ids & V & Lc & Le).
  assert (D : NoDup (column_values "id" (dimension_table frame))).
  { apply (dimension_frame_ids_distinct hash (snd entry) data frame F N). lia. }
  unfold write_dimension. rewrite F. unfold write_jdbc_overwrite.
  assert (FD : first_duplicate (columns frame) = None).
  { apply first_duplicate_None. now rewrite C. }
  rewrite FD, Rf. unfold execute. cbn [txn store]. rewrite I.
  cbn [parses forallb negb andb exec_script exec_statement].
  rewrite dict_get_set_same. cbn [tb_primary_key].
  assert (M : mem "id" (table_columns
                          {| tb_schema := schema frame; tb_rows := rows frame;
                             tb_primary_key := None; tb_foreign_keys := [];
                             tb_serial := None |}) = true).
  { apply mem_In. unfold table_columns. cbn [tb_schema].
    change (map fst (schema frame)) with (columns frame). rewrite C.
    apply in_or_app. right. now left. }
  rewrite M. cbn [negb].
  change (column_values "id"
            {| tb_schema := schema frame; tb_rows := rows frame;
               tb_primary_key := None; tb_foreign_keys := [];
               tb_serial := None |})
    with (column_values "id" (dimension_table frame)).
  assert (Nn : value_mem VNull (column_values "id" (dimension_table frame)) = false).
  { destruct (value_mem VNull _) eqn:X; [|reflexivity].
    apply value_mem_In in X. rewrite V in X.
    apply in_map_iff in X as (z & Z & _). discriminate. }
  rewrite Nn. apply values_distinct_NoDup in D. rewrite D. cbn [negb].
  cbn [commit txn store tb_schema tb_rows tb_foreign_keys tb_serial].
  rewrite dict_set_twice. reflexivity.
Qed.

Lemma referenced_dict_set (name k : string) (t : pg_table) (db : database) :
  tb_foreign_keys t = [] ->
  referenced name (dict_set k t db) = true -> referenced name db = true.
Proof.
  intros E. unfold referenced.
  induction db as [|[k' t'] db IH]; cbn [dict_set existsb snd].
  - rewrite E. cbn. discriminate.
  - destruct (String.eqb k' k); cbn [existsb snd].
    + rewrite E. cbn [existsb orb]. intros ->. apply orb_true_r.
    + rewrite !orb_true_iff. intros [H|H]; [now left | right; now apply IH].
Qed.

Lemma dimension_ready_dict_set (data : DataFrame) (db : database)
  (k : string) (t : pg_table) (entry : string * table_config) :
  tb_foreign_keys t = [] ->
  dimension_ready data db entry = true ->
  dimension_ready data (dict_set k t db) entry = true.
Proof.
  intros E. unfold dimension_ready. rewrite !andb_true_iff, !negb_true_iff.
  intros [H R]. split; [exact H|].
  destruct (referenced (fst entry) (dict_set k t db)) eqn:X; [|reflexivity].
  apply (referenced_dict_set _ _ _ _ E) in X. congruence.
Qed.

(** The dimension loop ends normally when every iteration has what it
    needs at the start and the dataset has at most 2^33 rows. *)
Lemma write_dimensions_succeeds (hash : Row -> nat) (data : DataFrame) :
  forall (config : dict table_config) (conn : connection),
    txn conn = Idle ->
    forallb (dimension_ready data (store conn)) config = true ->
    (Z.of_nat (count data) <= 2 ^ 33)%Z ->
    exists conn',
      write_dimensions hash data conn config = Some conn' /\ txn conn' = Idle.
Proof.
  induction config as [|entry config IH]; intros conn I R B.
  - exists conn. now split.
  - cbn [forallb] in R. apply andb_true_iff in R as [R1 R2].
    destruct (write_dimension_succeeds hash data conn entry I R1 B)
      as (frame & F & W).
    cbn [write_dimensions]. rewrite W. apply IH; [reflexivity| |exact B].
    cbn [store]. rewrite forallb_forall in *. intros e Ie.
    apply dimension_ready_dict_set; [reflexivity | now apply R2].
Qed.

(** In the notebook's registry every dimension declares distinct fields of
    known types, none of them called [id]: an iteration of the loop needs
    only the dataset's columns and a table that no foreign key references. *)
Lemma registry_ready (data : DataFrame) (db : database) :
  has_columns (List.concat (values DIMENSION_ID_CONFIG)) data = true ->
  existsb (fun name => referenced name db) (keys DIMENSION_TABLES_CONFIG) = false ->
  forallb (dimension_ready data db) DIMENSION_TABLES_CONFIG = true.
Proof.
  intros H R. apply forallb_forall. intros [name c] I.
  unfold dimension_ready. cbn [fst snd]. rewrite !andb_true_iff. repeat split.
  - apply distinct_names_NoDup. exact (registry_fields_distinct name c I).
  - assert (T : forallb (fun entry => types_known (snd entry))
                        DIMENSION_TABLES_CONFIG = true)
      by (vm_compute; reflexivity).
    rewrite forallb_forall in T. exact (T _ I).
  - unfold has_columns in *. rewrite forallb_forall in *. intros n In_n.
    apply H. apply in_concat. exists (field_names c). split; [|exact In_n].
    rewrite DIMENSION_ID_CONFIG_items. unfold values, id_items.
    rewrite map_map. cbn [snd]. apply in_map_iff. exists (name, c). now split.
  - apply negb_true_iff. destruct (referenced name db) eqn:X; [|reflexivity].
    assert (E : existsb (fun name => referenced name db)
                        (keys DIMENSION_TABLES_CONFIG) = true).
    { apply existsb_exists. exists name. split; [|exact X].
      unfold keys. change name with (fst (name, c)). now apply in_map. }
    congruence.
Qed.

(** ** The schema build runs through *)

Lemma column_values_empty (c : string) (t : pg_table) :
  tb_rows t = [] -> column_values c t = [].
Proof.
  intros E. unfold column_values. rewrite E. now destruct (find_index _ _).
Qed.

Lemma add_foreign_keys_succeeds (db : database) (name : string) :
  forall (fks : list foreign_key) (t : pg_table),
    tb_rows t = [] ->
    NoDup (map fk_name (tb_foreign_keys t) ++ map fk_name fks) ->
    (forall fk, In fk fks ->
       In (fk_column fk) (table_columns t) /\
       exists ref, dict_get (fk_ref_table fk) db = Some ref /\
                   tb_primary_key ref = Some (fk_ref_column fk) /\
                   In (fk_ref_column fk) (table_columns ref)) ->
    add_foreign_keys db name t fks
    = inr {| tb_schema := tb_schema t;
             tb_rows := tb_rows t;
             tb_primary_key := tb_primary_key t;
             tb_foreign_keys := tb_foreign_keys t ++ fks;
             tb_serial := tb_serial t |}.
Proof.
  induction fks as [|fk fks IH]; intros t E N H.
  - cbn [add_foreign_keys]. rewrite app_nil_r. now destruct t.
  - cbn [add_foreign_keys]. unfold add_foreign_key.
    destruct (H fk (or_introl eq_refl)) as (Ic & ref & G & P & Ir).
    assert (M : mem (fk_name fk) (map fk_name (tb_foreign_keys t)) = false).
    { apply mem_false. intros X. cbn [map] in N.
      apply NoDup_app_inv in N as (_ & _ & D). apply (D _ X). now left. }
    rewrite M, G. apply mem_In in Ic, Ir. rewrite Ic, Ir, P. cbn [negb].
    rewrite String.eqb_refl. cbn [negb].
    rewrite (column_values_empty _ _ E). cbn [forallb].
    rewrite IH; cbn [tb_schema tb_rows tb_primary_key tb_foreign_keys tb_serial].
    + now rewrite <- app_assoc.
    + exact E.
    + rewrite map_app, <- app_assoc. exact N.
    + intros fk' I'. exact (H fk' (or_intror I')).
Qed.

Lemma dimensions_keyed_spec (db : database) (name : string) :
  dimensions_keyed db = true ->
  In name (keys DIMENSION_TABLES_CONFIG) ->
  exists t, dict_get name db = Some t /\
            tb_primary_key t = Some "id"%string /\
            In "id"%string (table_columns t).
Proof.
  unfold dimensions_keyed. rewrite forallb_forall. intros H I.
  specialize (H _ I). destruct (dict_get name db) as [t|]; [|discriminate].
  apply andb_true_iff in H as [M P]. exists t. split; [reflexivity|].
  apply mem_In in M. split; [|exact M].
  destruct (tb_primary_key t) as [pk|]; [|discriminate].
  apply String.eqb_eq in P. now subst.
Qed.

(** On a store that holds every dimension table with its primary key and
    no fact table, the script of the fact table runs through. *)
Lemma facts_table_script_succeeds (db : database) :
  dict_get FACT_TABLE_NAME db = None ->
  dimensions_keyed db = true ->
  exec_script db facts_table_statements
  = inr (dict_set FACT_TABLE_NAME (fact_table [] 1) db).
Proof.
  intros G K. unfold facts_table_statements.
  rewrite facts_table_script_run, G.
  assert (FD : first_duplicate
                 (map cd_name (fact_column_defs FACT_COLUMNS DIMENSION_ID_CONFIG))
               = None) by (vm_compute; reflexivity).
  rewrite FD. cbn zeta.
  rewrite add_foreign_keys_succeeds.
  - rewrite dict_set_twice. reflexivity.
  - reflexivity.
  - apply distinct_names_NoDup. vm_compute. reflexivity.
  - intros fk I.
    assert (A : forallb
                  (fun fk => mem (fk_column fk)
                                 (table_columns
                                    (create_table
                                       (fact_column_defs FACT_COLUMNS DIMENSION_ID_CONFIG)))
                             && String.eqb (fk_ref_column fk) "id"
                             && mem (fk_ref_table fk) (keys DIMENSION_TABLES_CONFIG))
                  (fact_foreign_keys FACT_TABLE_NAME DIMENSION_ID_CONFIG) = true)
      by (vm_compute; reflexivity).
    rewrite forallb_forall in A. specialize (A _ I).
    apply andb_true_iff in A as [A Ref]. apply andb_true_iff in A as [Col Id].
    apply mem_In in Col, Ref. apply String.eqb_eq in Id. split; [exact Col|].
    destruct (dimensions_keyed_spec db _ K Ref) as (t & Gt & P & Ic).
    exists t. rewrite Id. split; [|split; assumption].
    rewrite dict_get_set_other; [exact Gt|].
    intros E. apply fact_table_is_no_dimension. rewrite <- E. exact Ref.
Qed.

(** ** Running cells again *)

(** After a successful schema build the first table of the dimension loop
    is referenced by the fact table. *)
Lemma built_schema_references (conn conn1 : connection) :
  create_facts_table conn = (conn1, [CreatingFactsTable; CreatedFactsTable; Done]) ->
  referenced "DIM_LOCAL" (store conn1) = true.
Proof.
  unfold create_facts_table, create_facts_table_with.
  destruct (execute conn facts_table_statements) as [conn' [e|]] eqn:E;
    [discriminate|].
  intros [= <-]. destruct (execute_ok _ _ _ E) as (db' & -> & X).
  cbn [commit txn store].
  destruct (facts_table_script_ok _ _ _ _ _ X) as (t & G & I).
  unfold referenced. apply existsb_exists. exists (FACT_TABLE_NAME, t).
  split; [now apply dict_get_In|]. cbn [snd]. apply existsb_exists.
  eexists. split; [apply I; vm_compute; left; reflexivity|]. reflexivity.
Qed.

Lemma write_dimension_referenced (hash : Row -> nat) (data : DataFrame)
  (conn : connection) (entry : string * table_config) :
  referenced (fst entry) (store conn) = true ->
  write_dimension hash data conn entry = None.
Proof.
  intros R. unfold write_dimension.
  destruct (dimension_frame hash (snd entry) data); [|reflexivity].
  unfold write_jdbc_overwrite. rewrite R.
  now destruct (first_duplicate _).
Qed.

Lemma create_facts_table_succeeds (conn : connection) :
  txn conn = Idle ->
  dict_get FACT_TABLE_NAME (store conn) = None ->
  dimensions_keyed (store conn) = true ->
  create_facts_table conn
  = ({| store := dict_set FACT_TABLE_NAME (fact_table [] 1) (store conn);
        txn := Idle |},
     [CreatingFactsTable; CreatedFactsTable; Done]).
Proof.
  intros I G K. unfold create_facts_table, create_facts_table_with, execute.
  rewrite I.
  assert (P : parses facts_table_statements = true) by (vm_compute; reflexivity).
  rewrite P. cbn [negb]. rewrite (facts_table_script_succeeds _ G K).
  reflexivity.
Qed.

(** What the dimension loop leaves behind is what the schema build and the
    load need. *)
Lemma dimension_loop_prepares (hash : Row -> nat) (data : DataFrame)
  (conn conn1 : connection) :
  txn conn = Idle ->
  write_dimensions hash data conn DIMENSION_TABLES_CONFIG = Some conn1 ->
  txn conn1 = Idle /\
  dimensions_keyed (store conn1) = true /\
  dimensions_stored hash DIMENSION_TABLES_CONFIG data (store conn1) /\
  dict_get FACT_TABLE_NAME (store conn1) = dict_get FACT_TABLE_NAME (store conn).
Proof.
  intros I W.
  destruct (write_dimensions_spec hash data _ _ _ I registry_keys_distinct W)
    as (I1 & A & O).
  split; [exact I1|]. split; [|split].
  - unfold dimensions_keyed. apply forallb_forall. intros name In_n.
    destruct (keys_In_value _ _ In_n) as (c & Ic).
    destruct (A _ _ Ic) as (frame & F & G & _). rewrite G.
    destruct (dimension_frame_spec _ _ _ _ F (registry_no_id _ _ Ic))
      as (_ & _ & _ & _ & _ & C & _).
    cbn [dimension_table tb_primary_key]. rewrite String.eqb_refl, andb_true_r.
    apply mem_In. unfold table_columns. cbn [dimension_table tb_schema].
    change (map fst (schema frame)) with (columns frame). rewrite C.
    apply in_or_app. right. now left.
  - intros name c Ic. destruct (A _ _ Ic) as (frame & F & G & _).
    exists frame, (dimension_table frame). tauto.
  - apply O. exact fact_table_is_no_dimension.
Qed.

(** ** What a natural key resolves to *)

Lemma keys_match_null (key : list value) :
  In VNull key ->
  forall b, keys_match (seq 0 (List.length key)) (seq 0 (List.length key)) key b
            = false.
Proof.
  induction key as [|x key IH]; intros I b; [destruct I|].
  cbn [List.length seq keys_match nth].
  destruct I as [->|I]; [reflexivity|].
  apply andb_false_iff. right.
  destruct b as [|y b].
  - destruct key as [|x' key]; [destruct I|].
    cbn [List.length seq keys_match nth].
    assert (N : forall v, join_eq v VNull = false).
    { intros v. unfold join_eq. now destruct (type_of v). }
    now rewrite N.
  - rewrite keys_match_shift. now apply IH.
Qed.

Lemma In_combine_exists {A B : Type} (x : A) (l : list A) :
  forall l' : list B,
    In x l -> List.length l = List.length l' -> exists y, In (x, y) (combine l l').
Proof.
  induction l as [|a l IH]; intros [|b l'] I L; try destruct I; try discriminate.
  - subst. exists b. now left.
  - destruct (IH l' H) as (y & Hy); [simpl in L; lia|].
    exists y. now right.
Qed.

Lemma traverse_declared_types (c : table_config) (types : list dtype) :
  traverse (fun f => parse_data_type (snd f))
           (map (fun f => (field f, type f)) (fields c)) = Some types ->
  types = declared_types c.
Proof.
  unfold declared_types. revert types.
  induction (fields c) as [|f l IH]; intros types; cbn [map traverse snd].
  - now intros [= <-].
  - destruct (parse_data_type (type f)) as [t|]; [|discriminate].
    destruct (traverse _ _) as [ts|]; [|discriminate].
    intros [= <-]. now rewrite (IH ts).
Qed.

(** The rows of a dimension frame, with the types the configuration
    declares. *)
Lemma dimension_frame_rows (hash : Row -> nat) (c : table_config)
  (data frame : DataFrame) :
  dimension_frame hash c data = Some frame ->
  ~ In "id"%string (field_names c) ->
  exists idxs,
    traverse (fun n => resolve_column n (columns data)) (field_names c)
    = Some idxs /\
    List.length (declared_types c) = List.length idxs /\
    rows frame
    = map (fun rv => fst rv ++ [VLong (snd rv)])
          (combine (nodup row_eq_dec
                      (map (cast_row idxs (declared_types c)) (rows data)))
                   (monotonically_increasing_id hash (fun _ => 0%Z)
                      (nodup row_eq_dec
                         (map (cast_row idxs (declared_types c)) (rows data))))).
Proof.
  intros F Nid.
  destruct (dimension_frame_spec _ _ _ _ F Nid)
    as (idxs & types & E & L & SC & _ & R).
  assert (T : types = declared_types c).
  { unfold select_cast in SC.
    destruct (traverse (fun f => resolve_column (fst f) (columns data)) _)
      as [idxs'|]; [|discriminate].
    destruct (traverse (fun f => parse_data_type (snd f)) _) as [types'|] eqn:P;
      [|discriminate].
    injection SC as Sc _. rewrite map_map in Sc. cbn [fst] in Sc.
    pose proof (traverse_length _ _ _ P) as L'. rewrite length_map in L'.
    pose proof (traverse_length _ _ _ E) as Li. unfold field_names in *.
    rewrite length_map in Li.
    pose proof (f_equal (map snd) Sc) as Sn.
    rewrite !combine_snd_length in Sn by (rewrite length_map; lia).
    subst types'. now apply traverse_declared_types. }
  subst types. exists idxs. split; [exact E|]. split; [exact L | exact R].
Qed.

(** The dimension table holds, for every row of the dataset, a row with
    the row's cast key. *)
Lemma stored_row_exists (hash : Row -> nat) (config : dict table_config)
  (data : DataFrame) (db : database) (name : string) (c : table_config)
  (d : Row) :
  dimensions_stored hash config data db ->
  In (name, c) config ->
  ~ In "id"%string (field_names c) ->
  In d (rows data) ->
  exists idxs id,
    traverse (fun n => resolve_column n (columns data)) (field_names c)
    = Some idxs /\
    List.length (declared_types c) = List.length idxs /\
    In (cast_row idxs (declared_types c) d ++ [VLong id]) (table_rows db name).
Proof.
  intros St I Nid Id. destruct (St _ _ I) as (frame & t & F & G & _ & Rw).
  destruct (dimension_frame_rows _ _ _ _ F Nid) as (idxs & E & L & R).
  set (deduplicated :=
         nodup row_eq_dec (map (cast_row idxs (declared_types c)) (rows data))) in *.
  assert (Ic : In (cast_row idxs (declared_types c) d) deduplicated).
  { apply nodup_In, in_map, Id. }
  destruct (In_combine_exists _ _
              (monotonically_increasing_id hash (fun _ => 0%Z) deduplicated) Ic)
    as (id & Hid); [now rewrite monotonically_increasing_id_length|].
  exists idxs, id. split; [exact E|]. split; [exact L|].
  unfold table_rows. rewrite G, Rw, R.
  apply in_map_iff. exists (cast_row idxs (declared_types c) d, id). now split.
Qed.

Lemma cast_row_key (idxs : list nat) (d : Row) :
  forall types,
    cast_row idxs types d = cast_key types (pick VNull idxs d).
Proof.
  unfold cast_row, cast_key, pick.
  induction idxs as [|i idxs IH]; intros [|t types]; cbn; try reflexivity.
  now rewrite IH.
Qed.

Lemma key_castable_all_join_eq (types : list dtype) :
  forall key,
    List.length types = List.length key ->
    key_castable types key = true ->
    all_join_eq key (cast_key types key) = true.
Proof.
  unfold key_castable, cast_key, matches_own_cast.
  induction types as [|t types IH]; intros [|v key] L H; try discriminate;
    [reflexivity|].
  cbn [combine forallb map all_join_eq fst snd] in *.
  apply andb_true_iff in H as [H1 H2]. rewrite H1. cbn [andb].
  apply IH; [simpl in L; lia | exact H2].
Qed.

Lemma length_le_one {A : Type} (x : A) (l : list A) :
  In x l -> List.length l <= 1 -> l = [x].
Proof.
  destruct l as [|y [|z l]]; simpl; intros I L; try lia; try contradiction.
  destruct I as [->|[]]. reflexivity.
Qed.

Lemma wrap32_fixed (z : Z) : wrap32 z = z <-> in_int32 z = true.
Proof.
  unfold wrap32, in_int32, int32_min, int32_max.
  rewrite andb_true_iff, !Z.leb_le. split.
  - intros E. pose proof (Z.mod_pos_bound (z + 2 ^ 31) (2 ^ 32) ltac:(lia)). lia.
  - intros H. rewrite Z.mod_small by lia. lia.
Qed.

Lemma join_eq_null_r (v : value) : join_eq v VNull = false.
Proof. unfold join_eq. now destruct (type_of v). Qed.

Lemma null_key_unresolved (key : list value) (dim_rows : list Row) :
  In VNull key -> surrogate_key key dim_rows = VNull.
Proof.
  intros I. unfold surrogate_key, fk_values, partners.
  rewrite filter_none; [reflexivity|].
  intros b _. now apply keys_match_null.
Qed.

(** A key whose values match their own casts finds its dimension row, and
    resolves to that row's id. *)
Lemma castable_key_resolves (hash : Row -> nat) (config : dict table_config)
  (data : DataFrame) (db : database) (name : string) (c : table_config)
  (d : Row) :
  well_formed data = true ->
  dimensions_stored hash config data db ->
  In (name, c) config ->
  ~ In "id"%string (field_names c) ->
  In d (rows data) ->
  key_castable (declared_types c) (natural_key (field_names c) data d) = true ->
  exists id,
    In (cast_key (declared_types c) (natural_key (field_names c) data d)
        ++ [VLong id]) (table_rows db name) /\
    surrogate_key (natural_key (field_names c) data d) (table_rows db name)
    = VLong id.
Proof.
  intros W St I Nid Id K.
  destruct (stored_row_exists _ _ _ _ _ _ d St I Nid Id)
    as (idxs & id & E & L & Ip).
  rewrite cast_row_key, (natural_key_pick _ _ _ _ E) in Ip.
  exists id. split; [exact Ip|].
  set (key := natural_key (field_names c) data d) in *.
  assert (Lk : List.length (cast_key (declared_types c) key) = List.length key).
  { unfold cast_key. rewrite length_map, length_combine.
    unfold key. rewrite natural_key_length.
    pose proof (traverse_length _ _ _ E). lia. }
  assert (M : keys_match (seq 0 (List.length key)) (seq 0 (List.length key)) key
                (cast_key (declared_types c) key ++ [VLong id]) = true).
  { rewrite keys_match_all_join_eq by exact Lk.
    apply key_castable_all_join_eq; [|exact K].
    unfold key. rewrite natural_key_length.
    pose proof (traverse_length _ _ _ E). lia. }
  assert (U : List.length (partners key (table_rows db name)) <= 1).
  { destruct (St _ _ I) as (frame & t & F & G & _ & Rw).
    unfold table_rows. rewrite G, Rw. unfold key.
    rewrite <- (natural_key_pick _ _ _ _ E).
    exact (dimension_partners_unique hash c data frame idxs W F Nid E d Id). }
  assert (P : partners key (table_rows db name)
              = [cast_key (declared_types c) key ++ [VLong id]]).
  { apply length_le_one; [|exact U]. unfold partners. apply filter_In.
    now split. }
  unfold surrogate_key, fk_values. rewrite P. cbn [map hd].
  rewrite <- Lk. apply nth_middle.
Qed.

Lemma registry_entry_position (i : nat) (name : string) (c : table_config) :
  nth_error DIMENSION_TABLES_CONFIG i = Some (name, c) ->
  nth_error DIMENSION_ID_CONFIG i = Some (name, field_names c).
Proof.
  intros H. rewrite DIMENSION_ID_CONFIG_items. unfold id_items.
  now rewrite nth_error_map, H.
Qed.

(** ** The order of [ORDER BY] *)

Lemma ascii_compare_refl (c : ascii) : Ascii.compare c c = Eq.
Proof. unfold Ascii.compare. apply N.compare_refl. Qed.

Lemma ascii_compare_lt_trans (a b c : ascii) :
  Ascii.compare a b = Lt -> Ascii.compare b c = Lt -> Ascii.compare a c = Lt.
Proof.
  unfold Ascii.compare. rewrite !N.compare_lt_iff. apply N.lt_trans.
Qed.

Lemma string_compare_refl (s : string) : String.compare s s = Eq.
Proof.
  induction s as [|c s IH]; simpl; [reflexivity|].
  now rewrite ascii_compare_refl.
Qed.

Lemma string_compare_lt_trans (a : string) :
  forall b c, String.compare a b = Lt -> String.compare b c = Lt ->
              String.compare a c = Lt.
Proof.
  induction a as [|x a IH]; intros [|y b] [|z c]; simpl; try discriminate;
    try reflexivity.
  destruct (Ascii.compare x y) eqn:Exy; try discriminate;
    destruct (Ascii.compare y z) eqn:Eyz; try discriminate; intros H1 H2.
  - apply Ascii.compare_eq_iff in Exy, Eyz. subst.
    rewrite ascii_compare_refl. now apply (IH b).
  - apply Ascii.compare_eq_iff in Exy. subst. now rewrite Eyz.
  - apply Ascii.compare_eq_iff in Eyz. subst. now rewrite Exy.
  - now rewrite (ascii_compare_lt_trans _ _ _ Exy Eyz).
Qed.

Lemma value_compare_refl (v : value) : value_compare v v = Eq.
Proof.
  destruct v; simpl; [reflexivity | apply Z.compare_refl | apply Z.compare_refl |].
  apply string_compare_refl.
Qed.

Lemma value_compare_eq (a b : value) : value_compare a b = Eq -> a = b.
Proof.
  destruct a, b; simpl; try discriminate; try reflexivity; intros H.
  - apply Z.compare_eq in H. now subst.
  - apply Z.compare_eq in H. now subst.
  - apply String.compare_eq_iff in H. now subst.
Qed.

Lemma value_compare_antisym (a b : value) :
  value_compare b a = CompOpp (value_compare a b).
Proof.
  destruct a, b; simpl; try reflexivity.
  - apply Z.compare_antisym.
  - apply Z.compare_antisym.
  - apply String.compare_antisym.
Qed.

Lemma value_compare_lt_trans (a b c : value) :
  value_compare a b = Lt -> value_compare b c = Lt -> value_compare a c = Lt.
Proof.
  destruct a, b, c; simpl; try discriminate; try reflexivity.
  - rewrite !Z.compare_lt_iff. apply Z.lt_trans.
  - rewrite !Z.compare_lt_iff. apply Z.lt_trans.
  - apply string_compare_lt_trans.
Qed.

Lemma key_compare_refl (a : list value) : key_compare a a = Eq.
Proof.
  induction a as [|x a IH]; simpl; [reflexivity|].
  now rewrite value_compare_refl.
Qed.

Lemma key_compare_eq (a : list value) :
  forall b, key_compare a b = Eq -> a = b.
Proof.
  induction a as [|x a IH]; intros [|y b]; simpl; try discriminate;
    [reflexivity|].
  destruct (value_compare x y) eqn:E; try discriminate.
  intros H. apply value_compare_eq in E. subst. now rewrite (IH b H).
Qed.

Lemma key_compare_antisym (a : list value) :
  forall b, key_compare b a = CompOpp (key_compare a b).
Proof.
  induction a as [|x a IH]; intros [|y b]; simpl; try reflexivity.
  rewrite (value_compare_antisym x y).
  destruct (value_compare x y); simpl; [apply IH | reflexivity | reflexivity].
Qed.

Lemma key_compare_lt_trans (a : list value) :
  forall b c, key_compare a b = Lt -> key_compare b c = Lt ->
              key_compare a c = Lt.
Proof.
  induction a as [|x a IH]; intros [|y b] [|z c]; simpl; try discriminate;
    try reflexivity.
  destruct (value_compare x y) eqn:Exy; try discriminate;
    destruct (value_compare y z) eqn:Eyz; try discriminate; intros H1 H2.
  - apply value_compare_eq in Exy, Eyz. subst.
    rewrite value_compare_refl. now apply (IH b).
  - apply value_compare_eq in Exy. subst. now rewrite Eyz.
  - apply value_compare_eq in Eyz. subst. now rewrite Exy.
  - now rewrite (value_compare_lt_trans _ _ _ Exy Eyz).
Qed.

Lemma row_leb_refl (by_columns : list nat) (a : Row) :
  row_leb by_columns a a = true.
Proof. unfold row_leb. now rewrite key_compare_refl. Qed.

Lemma row_leb_total (by_columns : list nat) (a b : Row) :
  row_leb by_columns a b = false -> row_leb by_columns b a = true.
Proof.
  unfold row_leb. rewrite (key_compare_antisym (pick VNull by_columns a)).
  now destruct (key_compare _ _).
Qed.

Lemma row_leb_trans (by_columns : list nat) (a b c : Row) :
  row_leb by_columns a b = true -> row_leb by_columns b c = true ->
  row_leb by_columns a c = true.
Proof.
  unfold row_leb.
  destruct (key_compare (pick VNull by_columns a) (pick VNull by_columns b)) eqn:Eab;
    try discriminate;
    destruct (key_compare (pick VNull by_columns b) (pick VNull by_columns c)) eqn:Ebc;
    try discriminate; intros _ _.
  - apply key_compare_eq in Eab. rewrite Eab. now rewrite Ebc.
  - apply key_compare_eq in Eab. rewrite Eab. now rewrite Ebc.
  - apply key_compare_eq in Ebc. rewrite <- Ebc. now rewrite Eab.
  - now rewrite (key_compare_lt_trans _ _ _ Eab Ebc).
Qed.

(** Two rows neither of which comes after the other have the same sort
    key. *)
Lemma row_leb_antisym (by_columns : list nat) (a b : Row) :
  row_leb by_columns a b = true -> row_leb by_columns b a = true ->
  pick VNull by_columns a = pick VNull by_columns b.
Proof.
  unfold row_leb. rewrite (key_compare_antisym (pick VNull by_columns a)).
  destruct (key_compare (pick VNull by_columns a) (pick VNull by_columns b)) eqn:E;
    simpl; try discriminate.
  intros _ _. now apply key_compare_eq.
Qed.

Section Sorting.

Variable by_columns : list nat.

Lemma insert_sorted_perm (r : Row) (l : list Row) :
  Permutation (insert_sorted by_columns r l) (r :: l).
Proof.
  induction l as [|s l IH]; simpl; [reflexivity|].
  destruct (row_leb by_columns r s); [reflexivity|].
  rewrite IH. apply perm_swap.
Qed.

Lemma order_by_perm (l : list Row) : Permutation (order_by by_columns l) l.
Proof.
  induction l as [|r l IH]; simpl; [reflexivity|].
  rewrite insert_sorted_perm. now constructor.
Qed.

Lemma insert_sorted_sorted (r : Row) (l : list Row) :
  StronglySorted (before by_columns) l -> StronglySorted (before by_columns) (insert_sorted by_columns r l).
Proof.
  induction 1 as [|s l S IH F]; simpl; [repeat constructor|].
  destruct (row_leb by_columns r s) eqn:E.
  - constructor; [now constructor|]. constructor; [exact E|].
    rewrite Forall_forall in *. intros x Hx.
    exact (row_leb_trans _ _ _ _ E (F x Hx)).
  - constructor; [exact IH|]. apply row_leb_total in E.
    rewrite Forall_forall in *. intros x Hx.
    apply (Permutation_in _ (insert_sorted_perm r l)) in Hx.
    destruct Hx as [<-|Hx]; [exact E | now apply F].
Qed.

Lemma order_by_sorted (l : list Row) :
  StronglySorted (before by_columns) (order_by by_columns l).
Proof.
  induction l as [|r l IH]; simpl; [constructor|].
  now apply insert_sorted_sorted.
Qed.

(** Selecting rows before or after sorting is the same. *)
Lemma filter_insert_sorted (p : Row -> bool) (r : Row) (l : list Row) :
  StronglySorted (before by_columns) l ->
  filter p (insert_sorted by_columns r l)
  = if p r then insert_sorted by_columns r (filter p l) else filter p l.
Proof.
  induction 1 as [|s l S IH F]; simpl.
  - now destruct (p r).
  - destruct (row_leb by_columns r s) eqn:E; simpl.
    + destruct (p r) eqn:Pr; [|reflexivity].
      destruct (p s) eqn:Ps; simpl; [now rewrite E|].
      destruct (filter p l) as [|s' rest] eqn:Fl; [reflexivity|].
      simpl.
      assert (I : In s' (filter p l)) by (rewrite Fl; now left).
      apply filter_In in I as [I _]. rewrite Forall_forall in F.
      now rewrite (row_leb_trans _ _ _ _ E (F _ I)).
    + rewrite IH. destruct (p s) eqn:Ps; simpl.
      * destruct (p r); [now rewrite E | reflexivity].
      * reflexivity.
Qed.

Lemma filter_order_by (p : Row -> bool) (l : list Row) :
  filter p (order_by by_columns l) = order_by by_columns (filter p l).
Proof.
  induction l as [|r l IH]; simpl; [reflexivity|].
  rewrite filter_insert_sorted by apply order_by_sorted.
  rewrite IH. now destruct (p r).
Qed.

(** Two sorted arrangements of the same rows coincide when no two of
    the rows share their sort key. *)
Lemma sorted_unique (l : list Row) :
  forall l',
    StronglySorted (before by_columns) l -> StronglySorted (before by_columns) l' ->
    Permutation l l' ->
    (forall x y, In x l -> In y l ->
                 pick VNull by_columns x = pick VNull by_columns y -> x = y) ->
    l = l'.
Proof.
  induction l as [|x l IH]; intros l' S S' P U.
  - apply Permutation_nil in P. now subst.
  - destruct l' as [|y l']; [apply Permutation_sym, Permutation_nil in P; discriminate|].
    apply StronglySorted_inv in S as [S F], S' as [S' F'].
    rewrite Forall_forall in F, F'.
    assert (E : x = y).
    { assert (Iy : In y (x :: l)).
      { apply (Permutation_in _ (Permutation_sym P)). now left. }
      assert (Ix : In x (y :: l')).
      { apply (Permutation_in _ P). now left. }
      destruct Iy as [Iy|Iy]; [exact Iy|].
      destruct Ix as [Ix|Ix]; [now symmetry|].
      apply U; [now left | now right |].
      apply row_leb_antisym; [now apply F | now apply F']. }
    subst y. f_equal. apply IH; try assumption.
    + now apply Permutation_cons_inv in P.
    + intros a b Ia Ib. apply U; now right.
Qed.

End Sorting.

(** ** Sums *)

Lemma wrap64_add_l (a b : Z) : wrap64 (wrap64 a + b) = wrap64 (a + b).
Proof.
  unfold wrap64. f_equal.
  replace ((a + 2 ^ 63) mod 2 ^ 64 - 2 ^ 63 + b + 2 ^ 63)%Z
    with ((a + 2 ^ 63) mod 2 ^ 64 + b)%Z by lia.
  rewrite Zplus_mod_idemp_l. f_equal. lia.
Qed.

Lemma wrap64_add_r (a b : Z) : wrap64 (a + wrap64 b) = wrap64 (a + b).
Proof. now rewrite Z.add_comm, wrap64_add_l, Z.add_comm. Qed.

Lemma wrap64_idem (a : Z) : wrap64 (wrap64 a) = wrap64 a.
Proof.
  pose proof (wrap64_add_l a 0) as H. rewrite !Z.add_0_r in H. exact H.
Qed.

Lemma fold_wrap64 (zs : list Z) :
  forall acc,
    fold_left (fun acc z => wrap64 (acc + z)) zs (wrap64 acc)
    = wrap64 (acc + fold_right Z.add 0%Z zs)%Z.
Proof.
  induction zs as [|z zs IH]; intros acc; simpl.
  - now rewrite Z.add_0_r.
  - rewrite wrap64_add_l, IH. f_equal. lia.
Qed.

(** The wrapping accumulator yields the wrapped sum. *)
Lemma sum_canonical (vs : list value) :
  sum vs = match numbers vs with
           | [] => VNull
           | _ :: _ => VLong (wrap64 (fold_right Z.add 0%Z (numbers vs))%Z)
           end.
Proof.
  unfold sum. destruct (numbers vs) as [|z zs]; [reflexivity|].
  f_equal. change 0%Z with (wrap64 0) at 1. now rewrite fold_wrap64.
Qed.

Lemma numbers_app (a b : list value) :
  numbers (a ++ b) = numbers a ++ numbers b.
Proof.
  induction a as [|x a IH]; simpl; [reflexivity|].
  destruct (number x); simpl; now rewrite IH.
Qed.

Lemma fold_right_add_app (a b : list Z) :
  (fold_right Z.add 0%Z (a ++ b) = fold_right Z.add 0%Z a + fold_right Z.add 0%Z b)%Z.
Proof. induction a as [|x a IH]; simpl; lia. Qed.

Lemma numbers_sum (vs : list value) :
  numbers [sum vs]
  = match numbers vs with
    | [] => []
    | _ :: _ => [wrap64 (fold_right Z.add 0%Z (numbers vs))]
    end.
Proof.
  rewrite sum_canonical. now destruct (numbers vs).
Qed.

(** The sum of a concatenation from the sums of its parts. *)
Lemma sum_app (a b : list value) : sum (a ++ b) = sum [sum a; sum b].
Proof.
  rewrite (sum_canonical (a ++ b)), (sum_canonical [sum a; sum b]).
  change [sum a; sum b] with ([sum a] ++ [sum b]).
  rewrite !numbers_app, !numbers_sum.
  destruct (numbers a) as [|x na], (numbers b) as [|y nb]; cbn [app].
  - reflexivity.
  - cbn [fold_right]. f_equal. now rewrite Z.add_0_r, wrap64_idem.
  - rewrite app_nil_r. cbn [fold_right]. f_equal.
    now rewrite Z.add_0_r, wrap64_idem.
  - cbn [fold_right]. rewrite fold_right_add_app. cbn [fold_right].
    rewrite Z.add_0_r, wrap64_add_l, wrap64_add_r. do 2 f_equal. lia.
Qed.

Lemma sum_sum (vs : list value) : sum [sum vs] = sum vs.
Proof.
  rewrite (sum_canonical [sum vs]), numbers_sum, (sum_canonical vs).
  destruct (numbers vs); [reflexivity|].
  cbn [fold_right]. now rewrite Z.add_0_r, wrap64_idem.
Qed.

(** Summing the sums of groups is summing all their values. *)
Lemma sum_concat (groups : list (list value)) :
  sum (map sum groups) = sum (List.concat groups).
Proof.
  induction groups as [|g groups IH]; [reflexivity|].
  cbn [map List.concat].
  change (sum g :: map sum groups) with ([sum g] ++ map sum groups).
  now rewrite sum_app, sum_sum, IH, <- sum_app.
Qed.

Lemma numbers_perm (a b : list value) :
  Permutation a b -> Permutation (numbers a) (numbers b).
Proof.
  induction 1 as [|x a b P IH|x y a|a b c P1 IH1 P2 IH2]; simpl.
  - constructor.
  - destruct (number x); [now constructor | exact IH].
  - destruct (number x), (number y); try reflexivity. apply perm_swap.
  - now transitivity (numbers b).
Qed.

Lemma fold_right_add_perm (a b : list Z) :
  Permutation a b -> fold_right Z.add 0%Z a = fold_right Z.add 0%Z b.
Proof.
  induction 1 as [|x a b P IH|x y a|a b c P1 IH1 P2 IH2]; simpl; lia.
Qed.

(** A sum does not depend on the order of the rows. *)
Lemma sum_perm (a b : list value) : Permutation a b -> sum a = sum b.
Proof.
  intros P. apply numbers_perm in P. rewrite !sum_canonical.
  rewrite (fold_right_add_perm _ _ P).
  destruct (numbers a) as [|x na], (numbers b) as [|y nb]; try reflexivity.
  - apply Permutation_nil in P. discriminate.
  - apply Permutation_sym, Permutation_nil in P. discriminate.
Qed.

(** ** Groups *)

Lemma row_eqb_eq (a b : Row) : row_eqb a b = true <-> a = b.
Proof.
  unfold row_eqb. destruct (row_eq_dec a b); split; congruence.
Qed.

Lemma row_eqb_refl (a : Row) : row_eqb a a = true.
Proof. now apply row_eqb_eq. Qed.

(** The groups of a list, taken over keys that occur once each and
    include every key of the list, hold every element once. *)
Lemma groups_partition {A : Type} (f : A -> Row) (keys : list Row) :
  NoDup keys ->
  forall l : list A,
    (forall x, In x l -> In (f x) keys) ->
    Permutation (List.concat (map (fun k => filter (fun x => row_eqb (f x) k) l) keys)) l.
Proof.
  intros N l. induction l as [|x l IH]; intros C.
  - clear. induction keys as [|k keys IH]; simpl; [constructor | exact IH].
  - assert (Ix : In (f x) keys) by (apply C; now left).
    assert (IHl := IH (fun y Hy => C y (or_intror Hy))). clear IH C.
    transitivity
      (x :: List.concat (map (fun k => filter (fun y => row_eqb (f y) k) l) keys));
      [|now constructor].
    clear IHl.
    assert (G : forall k,
               filter (fun y => row_eqb (f y) k) (x :: l)
               = if row_eqb (f x) k
                 then x :: filter (fun y => row_eqb (f y) k) l
                 else filter (fun y => row_eqb (f y) k) l) by reflexivity.
    induction keys as [|k keys IHk]; [destruct Ix|].
    inversion N as [|? ? Nk Nks]; subst.
    cbn [map List.concat]. rewrite (G k).
    destruct (row_eqb (f x) k) eqn:E.
    + apply row_eqb_eq in E. subst k.
      assert (Z : map (fun k => filter (fun y => row_eqb (f y) k) (x :: l)) keys
                  = map (fun k => filter (fun y => row_eqb (f y) k) l) keys).
      { apply map_ext_in. intros k Ik. rewrite (G k).
        destruct (row_eqb (f x) k) eqn:E; [|reflexivity].
        apply row_eqb_eq in E. subst k. contradiction. }
      rewrite Z. reflexivity.
    + destruct Ix as [Ix|Ix]; [subst k; rewrite row_eqb_refl in E; discriminate|].
      rewrite (IHk Nks Ix).
      apply Permutation_sym, Permutation_middle.
Qed.

(** ** Queries *)

Lemma pick_nth {A : Type} (d : A) (idxs : list nat) (l : list A) (p i : nat) :
  nth_error idxs p = Some i -> nth p (pick d idxs l) d = nth i l d.
Proof.
  intros H. unfold pick.
  apply nth_error_nth. now rewrite nth_error_map, H.
Qed.

Lemma filter_andb {A : Type} (p q : A -> bool) (l : list A) :
  filter (fun x => p x && q x) l = filter q (filter p l).
Proof.
  induction l as [|x l IH]; simpl; [reflexivity|].
  destruct (p x); simpl; [destruct (q x); now rewrite IH | exact IH].
Qed.

Lemma filter_map_comm {A B : Type} (f : A -> B) (p : B -> bool) (l : list A) :
  filter p (map f l) = map f (filter (fun x => p (f x)) l).
Proof.
  induction l as [|x l IH]; simpl; [reflexivity|].
  destruct (p (f x)); simpl; now rewrite IH.
Qed.

Lemma nodup_filter {A : Type} (dec : forall x y : A, {x = y} + {x <> y})
  (p : A -> bool) (l : list A) :
  nodup dec (filter p l) = filter p (nodup dec l).
Proof.
  induction l as [|x l IH]; simpl; [reflexivity|].
  destruct (p x) eqn:P; simpl.
  - destruct (in_dec dec x (filter p l)) as [I|I], (in_dec dec x l) as [I'|I'];
      simpl; rewrite ?P; try (now rewrite IH).
    + exfalso. apply filter_In in I. tauto.
    + exfalso. apply I, filter_In. tauto.
  - destruct (in_dec dec x l); simpl; rewrite ?P; exact IH.
Qed.

Lemma flat_map_filter {A B : Type} (f : A -> list B) (p : A -> bool) (l : list A) :
  (forall a, In a l -> p a = false -> f a = []) ->
  flat_map f (filter p l) = flat_map f l.
Proof.
  induction l as [|a l IH]; intros H; simpl; [reflexivity|].
  destruct (p a) eqn:P; simpl.
  - f_equal. apply IH. intros b Hb. apply H. now right.
  - rewrite (H a (or_introl eq_refl) P). apply IH.
    intros b Hb. apply H. now right.
Qed.

(** What [spark_sql] computes when the query is accepted. *)
Lemma spark_sql_Some (views : catalog) (q : query) (out : DataFrame) :
  spark_sql views q = Some out ->
  exists from_view join_view i j conditions group selected measure by_columns,
    dict_get (q_from q) views = Some from_view /\
    dict_get (q_join q) views = Some join_view /\
    qualified (q_from q) (q_join q) (columns from_view) (columns join_view)
              (fst (q_on q)) = Some i /\
    qualified (q_from q) (q_join q) (columns from_view) (columns join_view)
              (snd (q_on q)) = Some j /\
    traverse (fun w => option_map (fun k => (k, snd w))
                         (qualified (q_from q) (q_join q) (columns from_view)
                                    (columns join_view) (fst w)))
             (q_where q) = Some conditions /\
    traverse (fun c => resolve_column c (columns from_view ++ columns join_view))
             (q_group_by q) = Some group /\
    traverse (fun c => find_index c (q_group_by q)) (q_select q) = Some selected /\
    resolve_column (q_sum q) (columns from_view ++ columns join_view)
    = Some measure /\
    traverse (fun c => resolve_column c (q_select q ++ [q_alias q]))
             (q_order_by q) = Some by_columns /\
    summable (snd (nth measure (schema (inner_join from_view join_view i j))
                       no_field)) = true /\
    out = {| schema :=
               pick no_field selected
                    (pick no_field group
                          (schema (inner_join from_view join_view i j)))
               ++ [(q_alias q, LongType)];
             rows :=
               order_by by_columns
                 (aggregate group selected measure
                    (filter (where_holds conditions)
                            (rows (inner_join from_view join_view i j)))) |}.
Proof.
  unfold spark_sql.
  destruct (dict_get (q_from q) views) as [from_view|] eqn:E1; [|discriminate].
  destruct (dict_get (q_join q) views) as [join_view|] eqn:E2; [|discriminate].
  cbv zeta.
  destruct (qualified _ _ _ _ (fst (q_on q))) as [i|] eqn:E3; [|discriminate].
  destruct (qualified _ _ _ _ (snd (q_on q))) as [j|] eqn:E4; [|discriminate].
  destruct (traverse _ (q_where q)) as [conditions|] eqn:E5; [|discriminate].
  destruct (traverse _ (q_group_by q)) as [group|] eqn:E6; [|discriminate].
  destruct (traverse _ (q_select q)) as [selected|] eqn:E7; [|discriminate].
  destruct (resolve_column (q_sum q) _) as [measure|] eqn:E8; [|discriminate].
  destruct (traverse _ (q_order_by q)) as [by_columns|] eqn:E9; [|discriminate].
  destruct (summable _) eqn:E10; [|discriminate].
  intros [= <-].
  exists from_view, join_view, i, j, conditions, group, selected, measure,
         by_columns.
  repeat (split; [first [assumption | reflexivity]|]). reflexivity.
Qed.

(** The converse: the parts of an accepted query give its result. *)
Lemma spark_sql_run (views : catalog) (q : query)
  (from_view join_view : DataFrame) (i j : nat) (conditions : list (nat * string))
  (group selected : list nat) (measure : nat) (by_columns : list nat) :
  dict_get (q_from q) views = Some from_view ->
  dict_get (q_join q) views = Some join_view ->
  qualified (q_from q) (q_join q) (columns from_view) (columns join_view)
            (fst (q_on q)) = Some i ->
  qualified (q_from q) (q_join q) (columns from_view) (columns join_view)
            (snd (q_on q)) = Some j ->
  traverse (fun w => option_map (fun k => (k, snd w))
                       (qualified (q_from q) (q_join q) (columns from_view)
                                  (columns join_view) (fst w)))
           (q_where q) = Some conditions ->
  traverse (fun c => resolve_column c (columns from_view ++ columns join_view))
           (q_group_by q) = Some group ->
  traverse (fun c => find_index c (q_group_by q)) (q_select q) = Some selected ->
  resolve_column (q_sum q) (columns from_view ++ columns join_view)
  = Some measure ->
  traverse (fun c => resolve_column c (q_select q ++ [q_alias q]))
           (q_order_by q) = Some by_columns ->
  summable (snd (nth measure (schema (inner_join from_view join_view i j))
                     no_field)) = true ->
  spark_sql views q
  = Some {| schema :=
              pick no_field selected
                   (pick no_field group
                         (schema (inner_join from_view join_view i j)))
              ++ [(q_alias q, LongType)];
            rows :=
              order_by by_columns
                (aggregate group selected measure
                   (filter (where_holds conditions)
                           (rows (inner_join from_view join_view i j)))) |}.
Proof.
  intros E1 E2 E3 E4 E5 E6 E7 E8 E9 E10. unfold spark_sql.
  rewrite E1, E2. cbv zeta. rewrite E3, E4, E5, E6, E7, E8, E9, E10.
  reflexivity.
Qed.

(** Grouping the rows that satisfy a condition on the grouping key is
    keeping the groups whose key satisfies it. *)
Lemma aggregate_filter (group selected : list nat) (measure : nat)
  (holds : Row -> bool) (key_holds : list value -> bool) (out_holds : Row -> bool)
  (rs : list Row) :
  (forall r, holds r = key_holds (pick VNull group r)) ->
  (forall key s, out_holds (pick VNull selected key ++ [s]) = key_holds key) ->
  aggregate group selected measure (filter holds rs)
  = filter out_holds (aggregate group selected measure rs).
Proof.
  intros H O. unfold aggregate.
  rewrite filter_map_comm.
  assert (K : nodup row_eq_dec (map (pick VNull group) (filter holds rs))
              = filter key_holds (nodup row_eq_dec (map (pick VNull group) rs))).
  { rewrite <- nodup_filter, filter_map_comm. do 2 f_equal.
    apply filter_ext. intros r. apply H. }
  rewrite K.
  rewrite (filter_ext (fun key => out_holds (pick VNull selected key ++ [_]))
                      key_holds) by (intros key; apply O).
  apply map_ext_in. intros key Ik. apply filter_In in Ik as [_ Hk].
  do 3 f_equal. rewrite <- filter_andb. f_equal. apply filter_ext.
  intros r. rewrite H.
  destruct (row_eqb (pick VNull group r) key) eqn:E; [|apply andb_false_r].
  apply row_eqb_eq in E. rewrite E, Hk. reflexivity.
Qed.

Lemma find_index_app_l (c : string) (l r : list string) (k : nat) :
  find_index c l = Some k -> find_index c (l ++ r) = Some k.
Proof.
  revert k. induction l as [|x l IH]; intros k; simpl; [discriminate|].
  destruct (String.eqb x c); [exact (fun H => H)|].
  destruct (find_index c l) as [k0|]; [|discriminate].
  intros [= <-]. now rewrite (IH k0 eq_refl).
Qed.

Lemma resolve_column_In (c : string) (l : list string) (k : nat) :
  resolve_column c l = Some k -> In c l.
Proof.
  intros H. destruct (resolve_column_Some _ _ _ H) as [L <-]. now apply nth_In.
Qed.

(** A qualified reference and the unqualified name denote the same column
    when both are accepted. *)
Lemma qualified_unqualified (from join : string) (l r : list string)
  (ref : string * string) (k k' : nat) :
  qualified from join l r ref = Some k ->
  resolve_column (snd ref) (l ++ r) = Some k' ->
  k = k'.
Proof.
  unfold qualified. intros Q U.
  pose proof (resolve_column_find_index _ _ _ U) as Fu.
  destruct (String.eqb (fst ref) from).
  - destruct (String.eqb (fst ref) join); [discriminate|].
    apply resolve_column_find_index in Q.
    rewrite (find_index_app_l _ _ r _ Q) in Fu. congruence.
  - destruct (String.eqb (fst ref) join); [|discriminate].
    destruct (resolve_column (snd ref) r) as [k0|] eqn:R; [|discriminate].
    injection Q as <-.
    destruct (find_index (snd ref) l) as [i|] eqn:Fl.
    + exfalso. rewrite (find_index_app_l _ _ r _ Fl) in Fu. injection Fu as <-.
      unfold resolve_column in U. rewrite (find_index_app_l _ _ r _ Fl) in U.
      destruct (mem (snd ref) (skipn (S i) (l ++ r))) eqn:M; [discriminate|].
      apply mem_false in M. apply M.
      destruct (find_index_Some _ _ _ Fl) as [Li _].
      rewrite skipn_app. apply in_or_app. right.
      replace (S i - List.length l) with 0 by lia.
      exact (resolve_column_In _ _ _ R).
    + apply find_index_None in Fl.
      rewrite (find_index_skip _ l r Fl) in Fu.
      rewrite (resolve_column_find_index _ _ _ R) in Fu.
      cbn [option_map] in Fu. congruence.
Qed.

Lemma where_holds_app (a b : list (nat * string)) (r : Row) :
  where_holds (a ++ b) r = where_holds a r && where_holds b r.
Proof. unfold where_holds. apply forallb_app. Qed.

(** The slice law: a condition [t.c = 'lit'] on a selected column can be
    applied to the rows of the result instead. *)
Lemma slice_law (views : catalog) (q : query)
  (condition : (string * string) * string) (p : nat) (sliced : DataFrame) :
  find_index (snd (fst condition)) (q_select q) = Some p ->
  spark_sql views (and_where condition q) = Some sliced ->
  exists out,
    spark_sql views q = Some out /\
    schema sliced = schema out /\
    rows sliced
    = filter (fun r => join_eq (nth p r VNull) (VStr (snd condition))) (rows out).
Proof.
  intros Fp S.
  destruct (spark_sql_Some _ _ _ S)
    as (from_view & join_view & i & j & conditions & group & selected & measure
        & by_columns & E1 & E2 & E3 & E4 & E5 & E6 & E7 & E8 & E9 & E10 & ->).
  cbn [and_where q_select q_sum q_alias q_from q_join q_on q_where q_group_by
       q_order_by] in *.
  rewrite traverse_app in E5.
  destruct (traverse _ (q_where q)) as [conds|] eqn:W; [|discriminate].
  cbn [traverse] in E5.
  destruct (qualified _ _ _ _ (fst condition)) as [k|] eqn:Q; [|discriminate].
  cbn [option_map] in E5. injection E5 as <-.
  eexists. split; [|split].
  - exact (spark_sql_run views q from_view join_view i j conds group selected
             measure by_columns E1 E2 E3 E4 W E6 E7 E8 E9 E10).
  - reflexivity.
  - cbn [rows schema].
    (* the positions of the column in the output, the key and the joined row *)
    destruct (find_index_Some _ _ _ Fp) as [Lp Np].
    assert (Ns : nth_error (q_select q) p = Some (snd (fst condition))).
    { rewrite <- Np. now apply nth_error_nth'. }
    destruct (traverse_nth_error _ _ _ _ _ E7 Ns) as (g & Fg & Ng).
    destruct (find_index_Some _ _ _ Fg) as [Lg Xg].
    assert (Ngr : nth_error (q_group_by q) g = Some (snd (fst condition))).
    { rewrite <- Xg. now apply nth_error_nth'. }
    destruct (traverse_nth_error _ _ _ _ _ E6 Ngr) as (k' & Rk & Nk).
    pose proof (qualified_unqualified _ _ _ _ _ _ _ Q Rk) as <-.
    rewrite filter_order_by. f_equal.
    rewrite (filter_ext _ (fun r => where_holds conds r
                                    && join_eq (nth k r VNull) (VStr (snd condition)))).
    2:{ intros r. rewrite where_holds_app. f_equal.
        unfold where_holds. cbn [forallb fst snd]. apply andb_true_r. }
    rewrite filter_andb.
    apply (aggregate_filter group selected measure
             (fun r => join_eq (nth k r VNull) (VStr (snd condition)))
             (fun key => join_eq (nth g key VNull) (VStr (snd condition)))).
    + intros r. now rewrite (pick_nth VNull group r g k Nk).
    + intros key s.
      rewrite app_nth1 by (rewrite pick_length, (traverse_length _ _ _ E7); exact Lp).
      now rewrite (pick_nth VNull selected key p g Ng).
Qed.

(** ** Which facts a query counts *)

Lemma well_formed_row_length (df : DataFrame) (a : Row) :
  well_formed df = true -> In a (rows df) ->
  List.length a = List.length (columns df).
Proof.
  intros W I. pose proof (well_formed_sized df W) as S.
  unfold sized in S. rewrite Forall_forall in S.
  rewrite (S a I). symmetry. apply columns_length.
Qed.

Lemma join_eq_null_l (v : value) : join_eq VNull v = false.
Proof. reflexivity. Qed.

Lemma is_null_spec (v : value) : is_null v = true <-> v = VNull.
Proof. destruct v; simpl; split; congruence. Qed.

(** The rows of the left side with a null in the join column have no
    partner. *)
Lemma inner_join_not_null (facts dimension : DataFrame) (name : string)
  (i j : nat) :
  well_formed facts = true ->
  resolve_column name (columns facts) = Some i ->
  inner_join (where_not_null name facts) dimension i j
  = inner_join facts dimension i j.
Proof.
  intros W R. unfold inner_join. cbn [where_not_null schema rows]. f_equal.
  apply flat_map_filter. intros a Ia N.
  apply negb_false_iff, is_null_spec in N. unfold column in N. rewrite R in N.
  apply filter_none. intros ab Iab. apply in_map_iff in Iab as (b & <- & _).
  destruct (resolve_column_Some _ _ _ R) as [Li _].
  rewrite app_nth1 by (rewrite (well_formed_row_length _ _ W Ia); exact Li).
  now rewrite N.
Qed.

(** ** The shape of a result *)

Lemma traverse_find_index_all (a : list string) :
  NoDup a ->
  traverse (fun k => find_index k a) a = Some (seq 0 (List.length a)).
Proof.
  intros N. pose proof (traverse_find_index_prefix a [] N) as H.
  now rewrite app_nil_r in H.
Qed.

Lemma aggregate_keys (group selected : list nat) (measure : nat) (rs : list Row) :
  map (firstn (List.length selected)) (aggregate group selected measure rs)
  = map (pick VNull selected) (nodup row_eq_dec (map (pick VNull group) rs)).
Proof.
  unfold aggregate. rewrite map_map. apply map_ext. intros key.
  rewrite <- (pick_length VNull selected key) at 1.
  rewrite firstn_app, Nat.sub_diag, firstn_all. cbn [firstn]. apply app_nil_r.
Qed.

Lemma pick_all_keys (group : list nat) (rs : list Row) :
  map (pick VNull (seq 0 (List.length group)))
      (nodup row_eq_dec (map (pick VNull group) rs))
  = nodup row_eq_dec (map (pick VNull group) rs).
Proof.
  rewrite <- (map_id (nodup _ _)) at 2. apply map_ext_in. intros key I.
  apply nodup_In, in_map_iff in I as (r & <- & _).
  rewrite <- (pick_length VNull group r) at 1. apply pick_seq_all.
Qed.

(** ** Totals *)

Lemma aggregate_totals (group selected : list nat) (measure : nat) (rs : list Row) :
  map (fun r => nth (List.length selected) r VNull)
      (aggregate group selected measure rs)
  = map sum
        (map (map (fun r => nth measure r VNull))
             (map (fun key => filter (fun r => row_eqb (pick VNull group r) key) rs)
                  (nodup row_eq_dec (map (pick VNull group) rs)))).
Proof.
  unfold aggregate. rewrite !map_map. apply map_ext. intros key.
  rewrite <- (pick_length VNull selected key) at 1. apply nth_middle.
Qed.

(** The totals of the groups add up to the sum over all rows. *)
Lemma aggregate_grand_total (group selected : list nat) (measure : nat)
  (rs : list Row) :
  sum (map (fun r => nth (List.length selected) r VNull)
           (aggregate group selected measure rs))
  = sum (map (fun r => nth measure r VNull) rs).
Proof.
  rewrite aggregate_totals, sum_concat, <- concat_map.
  apply sum_perm, Permutation_map.
  apply (groups_partition (pick VNull group)).
  - apply NoDup_nodup.
  - intros r I. apply nodup_In. now apply in_map.
Qed.

Lemma map_flat_map_filter {A B C : Type} (f : A -> list B) (g : B -> C)
  (h : A -> C) (p : A -> bool) (l : list A) :
  (forall a, In a l -> map g (f a) = if p a then [h a] else []) ->
  map g (flat_map f l) = map h (filter p l).
Proof.
  induction l as [|a l IH]; intros H; simpl; [reflexivity|].
  rewrite map_app, (H a (or_introl eq_refl)), IH
    by (intros b Hb; apply H; now right).
  now destruct (p a).
Qed.

Lemma length_one {A : Type} (l : list A) :
  List.length l = 1 -> exists x, l = [x].
Proof.
  destruct l as [|x [|y l]]; try discriminate. eauto.
Qed.

(** With every reference resolved to one row, the joined rows carry the
    measures of the left rows that have a reference, once each. *)
Lemma inner_join_measures (facts dimension : DataFrame) (name : string)
  (i j0 s : nat) :
  well_formed facts = true ->
  resolve_column name (columns facts) = Some i ->
  resolve_column name (columns dimension) = Some j0 ->
  s < List.length (columns facts) ->
  references_resolved name facts dimension = true ->
  map (fun r => nth s r VNull)
      (rows (inner_join facts dimension i (List.length (columns facts) + j0)))
  = map (fun a => nth s a VNull) (rows (where_not_null name facts)).
Proof.
  intros W Ri Rj Ls Ref. unfold inner_join. cbn [rows where_not_null].
  apply map_flat_map_filter. intros a Ia.
  pose proof (well_formed_row_length _ _ W Ia) as La.
  destruct (resolve_column_Some _ _ _ Ri) as [Li _].
  unfold references_resolved in Ref. rewrite forallb_forall in Ref.
  specialize (Ref a Ia). unfold column in *. rewrite Ri in *. rewrite Rj in Ref.
  assert (F : filter (fun ab => join_eq (nth i ab VNull)
                                        (nth (List.length (columns facts) + j0) ab VNull))
                     (map (app a) (rows dimension))
              = map (app a)
                    (filter (fun b => join_eq (nth i a VNull) (nth j0 b VNull))
                            (rows dimension))).
  { rewrite filter_map_comm. f_equal. apply filter_ext. intros b.
    rewrite app_nth1 by lia. rewrite app_nth2 by lia.
    now replace (List.length (columns facts) + j0 - List.length a) with j0 by lia. }
  rewrite F. destruct (is_null (nth i a VNull)) eqn:N; cbn [negb].
  - apply is_null_spec in N. rewrite N.
    rewrite filter_none; [reflexivity|]. intros b _. apply join_eq_null_l.
  - cbn [orb] in Ref. apply Nat.eqb_eq, length_one in Ref as (b & ->).
    cbn [map]. now rewrite app_nth1 by lia.
Qed.

Lemma resolve_column_app_l (c : string) (l r : list string) (s m : nat) :
  resolve_column c l = Some s -> resolve_column c (l ++ r) = Some m -> m = s.
Proof.
  intros Rl Rlr. apply resolve_column_find_index in Rl, Rlr.
  rewrite (find_index_app_l _ _ r _ Rl) in Rlr. congruence.
Qed.

(** ** Registering the views *)

Lemma read_jdbc_table_frame (db : database) (name : string) :
  read_jdbc db name
  = match dict_get name db with
    | Some _ => Some (table_frame db name)
    | None => None
    end.
Proof.
  unfold read_jdbc, table_frame. now destruct (dict_get name db).
Qed.

Lemma register_dimension_views_spec (db : database) :
  forall (id_config : dict (list string)) (views : catalog),
    NoDup (keys id_config) ->
    match register_dimension_views db id_config views with
    | Some views' =>
        (forall name, In name (keys id_config) ->
           dict_get name db <> None /\
           dict_get name views'
           = Some (with_column_renamed "id" (fk_column_name name)
                     (table_frame db name))) /\
        (forall other, ~ In other (keys id_config) ->
                       dict_get other views' = dict_get other views)
    | None => exists name, In name (keys id_config) /\ dict_get name db = None
    end.
Proof.
  induction id_config as [|[name ks] rest IH]; intros views N.
  - cbn. split; [intros ? []|reflexivity].
  - cbn [register_dimension_views fst]. rewrite read_jdbc_table_frame.
    unfold keys in N. cbn [map fst] in N. inversion N as [|? ? N1 N2]; subst.
    destruct (dict_get name db) as [t|] eqn:G.
    + specialize (IH (create_or_replace_temp_view name
                        (with_column_renamed "id" (fk_column_name name)
                           (table_frame db name)) views) N2).
      destruct (register_dimension_views db rest _) as [views'|].
      * destruct IH as (A & O). split.
        -- intros n I. unfold keys in I. cbn [map fst In] in I.
           destruct I as [<-|I].
           ++ split; [rewrite G; discriminate|]. rewrite O by exact N1.
              apply dict_get_set_same.
           ++ now apply A.
        -- intros other No. unfold keys in No. cbn [map fst In] in No.
           rewrite O by tauto. apply dict_get_set_other. intros ->. tauto.
      * destruct IH as (n & I & E). exists n. split; [now right | exact E].
    + exists name. split; [now left | exact G].
Qed.

(** ** Rolling up *)

Lemma filter_perm {A : Type} (p : A -> bool) (l l' : list A) :
  Permutation l l' -> Permutation (filter p l) (filter p l').
Proof.
  induction 1 as [|x l l' P IH|x y l|l l' l'' P1 IH1 P2 IH2]; simpl.
  - constructor.
  - destruct (p x); [now constructor | exact IH].
  - destruct (p x), (p y); try reflexivity. apply perm_swap.
  - now transitivity (filter p l').
Qed.

Lemma filter_implied {A : Type} (p q : A -> bool) (l : list A) :
  (forall x, In x l -> p x = true -> q x = true) ->
  filter p (filter q l) = filter p l.
Proof.
  intros H. induction l as [|x l IH]; simpl; [reflexivity|].
  assert (IH' := IH (fun y Hy => H y (or_intror Hy))).
  destruct (q x) eqn:Q; simpl.
  - now rewrite IH'.
  - destruct (p x) eqn:P; [|exact IH'].
    rewrite (H x (or_introl eq_refl) P) in Q. discriminate.
Qed.

Lemma pick_firstn {A : Type} (d : A) (idxs : list nat) (l : list A) (n : nat) :
  firstn n (pick d idxs l) = pick d (firstn n idxs) l.
Proof. unfold pick. apply firstn_map. Qed.

Lemma pick_seq_prefix {A : Type} (d : A) (l extra : list A) (n : nat) :
  n <= List.length l -> pick d (seq 0 n) (l ++ extra) = firstn n l.
Proof.
  intros L. rewrite pick_seq by (rewrite length_app; lia).
  cbn [skipn]. rewrite firstn_app.
  replace (n - List.length l) with 0 by lia. cbn [firstn]. apply app_nil_r.
Qed.

(** Grouping with every grouping column selected, in order. *)
Lemma aggregate_all (group : list nat) (n measure : nat) (rs : list Row) :
  List.length group = n ->
  aggregate group (seq 0 n) measure rs
  = map (fun key =>
           key ++ [sum (map (fun r => nth measure r VNull)
                            (filter (fun r => row_eqb (pick VNull group r) key) rs))])
        (nodup row_eq_dec (map (pick VNull group) rs)).
Proof.
  intros L. unfold aggregate. apply map_ext_in. intros key I. f_equal.
  apply nodup_In, in_map_iff in I as (r & <- & _).
  rewrite <- L, <- (pick_length VNull group r) at 1. apply pick_seq_all.
Qed.

Lemma in_aggregate_all (group : list nat) (n measure : nat) (rs : list Row)
  (x : Row) :
  List.length group = n ->
  In x (aggregate group (seq 0 n) measure rs) <->
  exists r, In r rs /\
            x = pick VNull group r
                ++ [sum (map (fun r' => nth measure r' VNull)
                             (filter (fun r' => row_eqb (pick VNull group r')
                                                        (pick VNull group r)) rs))].
Proof.
  intros L. rewrite (aggregate_all group n measure rs L), in_map_iff. split.
  - intros (key & <- & I). apply nodup_In, in_map_iff in I as (r & <- & Ir).
    eauto.
  - intros (r & Ir & ->). exists (pick VNull group r). split; [reflexivity|].
    apply nodup_In. now apply in_map.
Qed.

Lemma aggregate_all_NoDup (group : list nat) (n measure : nat) (rs : list Row) :
  List.length group = n ->
  NoDup (aggregate group (seq 0 n) measure rs).
Proof.
  intros L. apply (NoDup_map_inv (firstn (List.length (seq 0 n)))).
  rewrite aggregate_keys. subst n. rewrite pick_all_keys.
  apply NoDup_nodup.
Qed.

Section RollUp.

Variables (group : list nat) (n measure : nat) (by_columns : list nat).
Variable kept : list Row.
Hypothesis prefix : n <= List.length group.

(** The total of a coarse group is the sum of the totals of the fine
    groups it consists of. *)
Lemma rolled_total (r : Row) :
  In r kept ->
  sum (map (fun f => nth (List.length group) f VNull)
           (filter (fun f => row_eqb (pick VNull (seq 0 n) f)
                                     (pick VNull (firstn n group) r))
                   (order_by by_columns
                      (aggregate group (seq 0 (List.length group)) measure kept))))
  = sum (map (fun r' => nth measure r' VNull)
             (filter (fun r' => row_eqb (pick VNull (firstn n group) r')
                                        (pick VNull (firstn n group) r)) kept)).
Proof.
  intros Ir.
  set (fine := order_by by_columns
                 (aggregate group (seq 0 (List.length group)) measure kept)).
  set (k := pick VNull (firstn n group) r).
  set (fine_keys := nodup row_eq_dec (map (pick VNull group) kept)).
  set (total := fun key : Row =>
                  sum (map (fun r' => nth measure r' VNull)
                           (filter (fun r' => row_eqb (pick VNull group r') key)
                                   kept))).
  assert (Lk : forall key, In key fine_keys ->
                           List.length key = List.length group).
  { intros key I. apply nodup_In, in_map_iff in I as (r0 & <- & _).
    apply pick_length. }
  assert (Pk : forall key s, In key fine_keys ->
                             pick VNull (seq 0 n) (key ++ [s]) = firstn n key).
  { intros key s I. apply pick_seq_prefix. rewrite (Lk key I). exact prefix. }
  (* the fine rows, up to their order *)
  assert (P : Permutation fine (map (fun key => key ++ [total key]) fine_keys)).
  { unfold fine. rewrite order_by_perm.
    now rewrite (aggregate_all group _ measure kept eq_refl). }
  rewrite (sum_perm _ _ (Permutation_map _ (filter_perm _ _ _ P))).
  rewrite filter_map_comm, map_map.
  set (part := filter (fun key => row_eqb (pick VNull (seq 0 n) (key ++ [total key])) k)
                      fine_keys).
  assert (Ip : forall key, In key part <-> In key fine_keys /\ firstn n key = k).
  { intros key. unfold part. rewrite filter_In. split.
    - intros [I E]. split; [exact I|]. apply row_eqb_eq in E.
      now rewrite (Pk key _ I) in E.
    - intros [I E]. split; [exact I|]. apply row_eqb_eq.
      now rewrite (Pk key _ I). }
  rewrite (map_ext_in _ total).
  2:{ intros key I. apply Ip in I as [I _].
      rewrite <- (Lk key I). apply nth_middle. }
  unfold total.
  rewrite <- (map_map (fun key => map (fun r' => nth measure r' VNull)
                                      (filter (fun r' => row_eqb (pick VNull group r') key)
                                              kept)) sum).
  rewrite sum_concat.
  rewrite <- (map_map (fun key => filter (fun r' => row_eqb (pick VNull group r') key)
                                         kept)
                      (map (fun r' => nth measure r' VNull))).
  rewrite <- concat_map. apply sum_perm, Permutation_map.
  set (coarse_group := filter (fun r' => row_eqb (pick VNull (firstn n group) r') k)
                              kept).
  rewrite (map_ext_in _ (fun key => filter (fun r' => row_eqb (pick VNull group r') key)
                                           coarse_group)).
  - apply (groups_partition (pick VNull group)).
    + unfold part. apply NoDup_filter, NoDup_nodup.
    + intros x Ix. unfold coarse_group in Ix. apply filter_In in Ix as [Ix E].
      apply row_eqb_eq in E. apply Ip. split.
      * apply nodup_In. now apply in_map.
      * now rewrite pick_firstn.
  - intros key I. apply Ip in I as [_ E]. unfold coarse_group.
    symmetry. apply filter_implied. intros x _ Hx.
    apply row_eqb_eq in Hx. apply row_eqb_eq.
    now rewrite <- pick_firstn, Hx.
Qed.

(** The rows of the rolled-up query are the totals of the finer result,
    grouped by the remaining columns. *)
Lemma roll_up_rows :
  order_by (seq 0 n) (aggregate (firstn n group) (seq 0 n) measure kept)
  = order_by (seq 0 n)
      (aggregate (seq 0 n) (seq 0 n) (List.length group)
         (order_by by_columns
            (aggregate group (seq 0 (List.length group)) measure kept))).
Proof.
  set (fine := order_by by_columns
                 (aggregate group (seq 0 (List.length group)) measure kept)).
  assert (Lc : List.length (firstn n group) = n)
    by (rewrite length_firstn; lia).
  assert (Prefix : forall r s,
             pick VNull (seq 0 n) (pick VNull group r ++ [s])
             = pick VNull (firstn n group) r).
  { intros r s. rewrite pick_seq_prefix by (rewrite pick_length; exact prefix).
    apply pick_firstn. }
  assert (Key : forall r s,
             pick VNull (seq 0 n) (pick VNull (firstn n group) r ++ [s])
             = pick VNull (firstn n group) r).
  { intros r s. rewrite pick_seq_prefix by (rewrite pick_length; lia).
    apply firstn_all2. rewrite pick_length. lia. }
  assert (Fine : forall f,
             In f fine ->
             exists r s, In r kept /\ f = pick VNull group r ++ [s]).
  { intros f I. unfold fine in I.
    apply (Permutation_in _ (order_by_perm _ _)) in I.
    apply (in_aggregate_all group _ measure kept f eq_refl) in I
      as (r & Ir & ->). eauto. }
  assert (Fine' : forall r,
             In r kept -> exists s, In (pick VNull group r ++ [s]) fine).
  { intros r Ir. eexists. unfold fine.
    apply (Permutation_in _ (Permutation_sym (order_by_perm _ _))).
    apply (in_aggregate_all group _ measure kept _ eq_refl).
    exists r. split; [exact Ir | reflexivity]. }
  assert (P : Permutation
                (aggregate (firstn n group) (seq 0 n) measure kept)
                (aggregate (seq 0 n) (seq 0 n) (List.length group) fine)).
  { apply NoDup_Permutation.
    - now apply aggregate_all_NoDup.
    - apply aggregate_all_NoDup, length_seq.
    - intros x.
      rewrite (in_aggregate_all (firstn n group) n measure kept x Lc).
      rewrite (in_aggregate_all (seq 0 n) n _ fine x (length_seq n 0)).
      split.
      + intros (r & Ir & ->). destruct (Fine' r Ir) as (s & If).
        exists (pick VNull group r ++ [s]). split; [exact If|].
        rewrite Prefix. f_equal. f_equal. symmetry. now apply rolled_total.
      + intros (f & If & ->). destruct (Fine f If) as (r & s & Ir & ->).
        exists r. split; [exact Ir|].
        rewrite Prefix. f_equal. f_equal. now apply rolled_total. }
  apply (sorted_unique (seq 0 n)).
  - apply order_by_sorted.
  - apply order_by_sorted.
  - rewrite !order_by_perm. exact P.
  - intros x y Ix Iy E.
    apply (Permutation_in _ (order_by_perm _ _)) in Ix, Iy.
    apply (in_aggregate_all (firstn n group) n measure kept _ Lc) in Ix, Iy.
    destruct Ix as (r1 & _ & ->), Iy as (r2 & _ & ->).
    rewrite !Key in E. now rewrite E.
Qed.

End RollUp.

Lemma traverse_firstn {A B : Type} (f : A -> option B) (n : nat) :
  forall (l : list A) (out : list B),
    traverse f l = Some out ->
    traverse f (firstn n l) = Some (firstn n out).
Proof.
  induction n as [|n IH]; intros l out T; [reflexivity|].
  destruct l as [|a l]; cbn [traverse firstn] in *.
  - now injection T as <-.
  - destruct (f a) as [b|]; [|discriminate].
    destruct (traverse f l) as [bs|] eqn:E; [|discriminate].
    injection T as <-. cbn [firstn]. now rewrite (IH l bs E).
Qed.

Lemma In_firstn {A : Type} (x : A) (n : nat) :
  forall l, In x (firstn n l) -> In x l.
Proof.
  induction n as [|n IH]; intros [|y l]; cbn [firstn]; try contradiction.
  intros [->|I]; [now left | right; now apply IH].
Qed.

Lemma NoDup_firstn_app {A : Type} (n : nat) (a c : list A) :
  NoDup (a ++ c) -> NoDup (firstn n a ++ c).
Proof.
  revert a. induction n as [|n IH]; intros a N.
  - cbn [firstn app]. now apply NoDup_app_inv in N as (_ & Nc & _).
  - destruct a as [|x a]; [exact N|].
    cbn [firstn app] in *. inversion N as [|? ? Nx Na]; subst.
    constructor; [|now apply IH].
    intros I. apply Nx. apply in_app_or in I as [I|I]; apply in_or_app.
    + left. exact (In_firstn _ _ _ I).
    + now right.
Qed.

(** The roll-up law on queries. *)
Lemma roll_up_law (views : catalog) (q : query) (n : nat) (fine : DataFrame) :
  q_select q = q_group_by q ->
  q_order_by q = q_group_by q ->
  NoDup (q_group_by q ++ [q_alias q]) ->
  n <= List.length (q_group_by q) ->
  spark_sql views q = Some fine ->
  exists coarse,
    spark_sql views (roll_up n q) = Some coarse /\
    rows coarse
    = order_by (seq 0 n)
        (aggregate (seq 0 n) (seq 0 n) (List.length (q_group_by q)) (rows fine)).
Proof.
  intros Es Eo N L S.
  destruct (spark_sql_Some _ _ _ S)
    as (from_view & join_view & i & j & conditions & group & selected & measure
        & by_columns & E1 & E2 & E3 & E4 & E5 & E6 & E7 & E8 & E9 & E10 & ->).
  pose proof (NoDup_firstn_app n _ _ N) as Nn.
  destruct (NoDup_app_inv _ _ N) as (Ng & _ & _).
  destruct (NoDup_app_inv _ _ Nn) as (Ngn & _ & _).
  rewrite Es, (traverse_find_index_all _ Ng) in E7. injection E7 as <-.
  assert (Ln : List.length (firstn n (q_group_by q)) = n)
    by (rewrite length_firstn; lia).
  eexists. split.
  - apply (spark_sql_run views (roll_up n q) from_view join_view i j conditions
             (firstn n group) (seq 0 n) measure (seq 0 n));
      cbn [roll_up q_select q_sum q_alias q_from q_join q_on q_where q_group_by
           q_order_by]; try assumption.
    + now apply traverse_firstn.
    + rewrite Es, (traverse_find_index_all _ Ngn). now rewrite Ln.
    + rewrite Es, Eo, (traverse_resolve_prefix _ _ Nn). now rewrite Ln.
  - cbn [rows]. rewrite <- (traverse_length _ _ _ E6).
    apply roll_up_rows. rewrite (traverse_length _ _ _ E6). exact L.
Qed.

(** ** Results up to the order of ties *)

Lemma StronglySorted_filter {A : Type} (R : A -> A -> Prop) (p : A -> bool)
  (l : list A) :
  StronglySorted R l -> StronglySorted R (filter p l).
Proof.
  induction 1 as [|x l S IH F]; simpl; [constructor|].
  destruct (p x); [|exact IH]. constructor; [exact IH|].
  rewrite Forall_forall in *. intros y Iy. apply filter_In in Iy as [Iy _].
  exact (F y Iy).
Qed.

(** The result the model computes is one of the frames Spark may return. *)
Lemma spark_sql_answers (views : catalog) (q : query) (out : DataFrame) :
  spark_sql views q = Some out -> answers views q out.
Proof.
  intros S.
  destruct (spark_sql_Some _ _ _ S)
    as (from_view & join_view & i & j & conditions & group & selected & measure
        & by_columns & E1 & E2 & E3 & E4 & E5 & E6 & E7 & E8 & E9 & E10 & E).
  exists out, by_columns. split; [exact S|]. split; [exact E9|].
  split; [reflexivity|]. split; [reflexivity|].
  rewrite E. cbn [rows]. apply order_by_sorted.
Qed.

(* ================================================================= *)
(** * Further properties of the notebook *)

(** ** The cells run through *)

(** X1.  The dimension loop of the notebook ends normally for every
    dataset of at most 2^33 rows that has the natural-key columns of the
    registry, on an idle connection in whose store no foreign key
    references a dimension table.  Afterwards the connection is idle and
    the store holds, for each dimension, the table of its frame with [id]
    as the primary key. *)
Theorem X1_dimension_loop_runs_through (hash : Row -> nat) (data : DataFrame)
  (conn : connection) :
  txn conn = Idle ->
  has_columns (List.concat (values DIMENSION_ID_CONFIG)) data = true ->
  existsb (fun name => referenced name (store conn))
          (keys DIMENSION_TABLES_CONFIG) = false ->
  (Z.of_nat (count data) <= 2 ^ 33)%Z ->
  exists conn',
    write_dimensions hash data conn DIMENSION_TABLES_CONFIG = Some conn' /\
    txn conn' = Idle /\
    forall name c,
      In (name, c) DIMENSION_TABLES_CONFIG ->
      exists frame,
        dimension_frame hash c data = Some frame /\
        dict_get name (store conn') = Some (dimension_table frame).
Proof.
  intros I H R B.
  pose proof (registry_ready data (store conn) H R) as Rd.
  destruct (write_dimensions_succeeds hash data _ conn I Rd B)
    as (conn' & W & I').
  exists conn'. split; [exact W|]. split; [exact I'|].
  destruct (write_dimensions_spec hash data _ conn conn' I
              registry_keys_distinct W) as (_ & A & _).
  intros name c In_c. destruct (A name c In_c) as (frame & F & G & _).
  exists frame. split; assumption.
Qed.

Lemma X1_witness :
  txn fresh_connection = Idle /\
  has_columns (List.concat (values DIMENSION_ID_CONFIG)) sample_census = true /\
  existsb (fun name => referenced name (store fresh_connection))
          (keys DIMENSION_TABLES_CONFIG) = false /\
  (Z.of_nat (count sample_census) <= 2 ^ 33)%Z /\
  exists conn',
    write_dimensions sample_hash sample_census fresh_connection
                     DIMENSION_TABLES_CONFIG = Some conn' /\
    txn conn' = Idle /\
    forall name c,
      In (name, c) DIMENSION_TABLES_CONFIG ->
      exists frame,
        dimension_frame sample_hash c sample_census = Some frame /\
        dict_get name (store conn') = Some (dimension_table frame).
Proof.
  split; [reflexivity|]. split; [vm_compute; reflexivity|].
  split; [vm_compute; reflexivity|]. split; [vm_compute; discriminate|].
  apply (X1_dimension_loop_runs_through sample_hash sample_census
           fresh_connection).
  - reflexivity.
  - vm_compute. reflexivity.
  - vm_compute. reflexivity.
  - vm_compute. discriminate.
Defined.

(** X2.  On an idle connection whose store holds every dimension table
    with [id] as a column and as the primary key, and no fact table, the
    schema build succeeds: it commits an empty fact table with the columns
    [id], the measures and the foreign keys, [id] as primary key, one
    foreign-key constraint per dimension and the sequence at 1, and prints
    its three messages. *)
Theorem X2_schema_build_runs_through (conn : connection) :
  txn conn = Idle ->
  dict_get FACT_TABLE_NAME (store conn) = None ->
  dimensions_keyed (store conn) = true ->
  create_facts_table conn
  = ({| store := dict_set FACT_TABLE_NAME (fact_table [] 1) (store conn);
        txn := Idle |},
     [CreatingFactsTable; CreatedFactsTable; Done]).
Proof.
  intros I G K. exact (create_facts_table_succeeds conn I G K).
Qed.

Lemma X2_witness :
  txn (dimensions_written sample_census) = Idle /\
  dict_get FACT_TABLE_NAME (store (dimensions_written sample_census)) = None /\
  dimensions_keyed (store (dimensions_written sample_census)) = true /\
  create_facts_table (dimensions_written sample_census)
  = ({| store := dict_set FACT_TABLE_NAME (fact_table [] 1)
                   (store (dimensions_written sample_census));
        txn := Idle |},
     [CreatingFactsTable; CreatedFactsTable; Done]).
Proof.
  split; [vm_compute; reflexivity|]. split; [vm_compute; reflexivity|].
  split; [vm_compute; reflexivity|].
  apply (X2_schema_build_runs_through (dimensions_written sample_census));
    vm_compute; reflexivity.
Defined.



(** The sample after the load, with the rows handed over in the order of
    the frame and in the reverse order: the ids are 1, 2 and 3 either way;
    the school they number is not the same. *)
Example sample_fact_ids :
  match resolved_facts (prepared_store sample_census) sample_census with
  | Some frame =>
      map (fun arrival =>
             option_map
               (fun db =>
                  map (fun r => (nth 0 r VNull, nth 1 r VNull))
                      (table_rows db FACT_TABLE_NAME))
               (write_jdbc_append (prepared_store sample_census) FACT_TABLE_NAME
                                  (reordered arrival frame)))
          [rows frame; rev (rows frame)]
  | None => []
  end
  = [ Some [(VInt 1, VInt 100); (VInt 2, VInt 50); (VInt 3, VInt 7)];
      Some [(VInt 1, VInt 7); (VInt 2, VInt 50); (VInt 3, VInt 100)] ].
Proof. vm_compute. reflexivity. Qed.



(** X5.  The cells in sequence.  On an idle connection whose store has no
    fact table and no foreign key on a dimension table, for a well-formed
    dataset of fewer than 2^31 rows (so that the row ids of a partition and
    the ids of the facts stay in range) that has the natural-key columns
    and integer measure columns: the dimension loop, the schema build and
    the load all succeed, and the fact table ends with one row per row of
    the dataset, the resolved rows in the order in which they reached the
    writer, behind the ids 1, 2, ... *)
Theorem X5_notebook_runs_through (hash : Row -> nat) (data : DataFrame)
  (conn : connection) :
  txn conn = Idle ->
  dict_get FACT_TABLE_NAME (store conn) = None ->
  has_columns (List.concat (values DIMENSION_ID_CONFIG)) data = true ->
  existsb (fun name => referenced name (store conn))
          (keys DIMENSION_TABLES_CONFIG) = false ->
  well_formed data = true ->
  columns_typed IntegerType FACT_COLUMNS data = true ->
  (Z.of_nat (count data) < 2 ^ 31)%Z ->
  exists conn1 frame,
    write_dimensions hash data conn DIMENSION_TABLES_CONFIG = Some conn1 /\
    create_facts_table conn1
    = ({| store := dict_set FACT_TABLE_NAME (fact_table [] 1) (store conn1);
          txn := Idle |},
       [CreatingFactsTable; CreatedFactsTable; Done]) /\
    resolved_facts (dict_set FACT_TABLE_NAME (fact_table [] 1) (store conn1)) data
    = Some frame /\
    rows frame = resolved_rows (store conn1) data /\
    load_fact_table (dict_set FACT_TABLE_NAME (fact_table [] 1) (store conn1)) data
    = write_jdbc_append (dict_set FACT_TABLE_NAME (fact_table [] 1) (store conn1))
                        FACT_TABLE_NAME (reordered (rows frame) frame) /\
    forall arrival,
      Permutation arrival (rows frame) ->
      write_jdbc_append (dict_set FACT_TABLE_NAME (fact_table [] 1) (store conn1))
                        FACT_TABLE_NAME (reordered arrival frame)
      = Some (dict_set FACT_TABLE_NAME
                (fact_table (numbered 1 arrival) (1 + Z.of_nat (count data)))
                (store conn1)).
Proof.
  intros I G H Rf W T B.
  assert (B' : (Z.of_nat (count data) <= 2 ^ 33)%Z) by lia.
  pose proof (registry_ready data (store conn) H Rf) as R.
  destruct (write_dimensions_succeeds hash data _ conn I R B') as (conn1 & Wd & _).
  destruct (dimension_loop_prepares hash data conn conn1 I Wd)
    as (I1 & K & St & G1).
  rewrite G in G1.
  destruct (append_in_any_order hash data data _ [] 1 W W eq_refl T
              (dimensions_stored_fact_table _ _ _ _ St)
              (dict_get_set_same _ _ _))
    as (frame & Rs & _ & Rows & Wr).
  exists conn1, frame. split; [exact Wd|]. split.
  { exact (create_facts_table_succeeds conn1 I1 G1 K). }
  split; [exact Rs|]. split.
  { rewrite Rows. apply resolved_rows_fact_table. }
  split; [exact (load_fact_table_writes _ data frame Rs)|].
  intros arrival P. rewrite (Wr arrival P), dict_set_twice. reflexivity.
Qed.

Lemma X5_witness :
  txn fresh_connection = Idle /\
  dict_get FACT_TABLE_NAME (store fresh_connection) = None /\
  has_columns (List.concat (values DIMENSION_ID_CONFIG)) sample_census = true /\
  existsb (fun name => referenced name (store fresh_connection))
          (keys DIMENSION_TABLES_CONFIG) = false /\
  well_formed sample_census = true /\
  columns_typed IntegerType FACT_COLUMNS sample_census = true /\
  (Z.of_nat (count sample_census) < 2 ^ 31)%Z /\
  exists conn1 frame,
    write_dimensions sample_hash sample_census fresh_connection
                     DIMENSION_TABLES_CONFIG = Some conn1 /\
    create_facts_table conn1
    = ({| store := dict_set FACT_TABLE_NAME (fact_table [] 1) (store conn1);
          txn := Idle |},
       [CreatingFactsTable; CreatedFactsTable; Done]) /\
    resolved_facts (dict_set FACT_TABLE_NAME (fact_table [] 1) (store conn1))
                   sample_census
    = Some frame /\
    rows frame = resolved_rows (store conn1) sample_census /\
    load_fact_table (dict_set FACT_TABLE_NAME (fact_table [] 1) (store conn1))
                    sample_census
    = write_jdbc_append (dict_set FACT_TABLE_NAME (fact_table [] 1) (store conn1))
                        FACT_TABLE_NAME (reordered (rows frame) frame) /\
    forall arrival,
      Permutation arrival (rows frame) ->
      write_jdbc_append (dict_set FACT_TABLE_NAME (fact_table [] 1) (store conn1))
                        FACT_TABLE_NAME (reordered arrival frame)
      = Some (dict_set FACT_TABLE_NAME
                (fact_table (numbered 1 arrival)
                            (1 + Z.of_nat (count sample_census)))
                (store conn1)).
Proof.
  split; [reflexivity|]. split; [reflexivity|].
  split; [vm_compute; reflexivity|]. split; [vm_compute; reflexivity|].
  split; [vm_compute; reflexivity|]. split; [vm_compute; reflexivity|].
  split; [vm_compute; reflexivity|].
  apply (X5_notebook_runs_through sample_hash sample_census fresh_connection).
  - reflexivity.
  - reflexivity.
  - vm_compute. reflexivity.
  - vm_compute. reflexivity.
  - vm_compute. reflexivity.
  - vm_compute. reflexivity.
  - vm_compute. reflexivity.
Defined.

(** ** Cells run out of turn *)

(** X6.  Once the schema build has succeeded, the dimension loop cannot
    run again, whatever the dataset: overwriting the first dimension's
    table means dropping a table that a foreign key of the fact table
    references, which the store refuses; the loop raises in its first
    iteration. *)
Theorem X6_dimension_loop_refused_after_build (hash : Row -> nat)
  (data : DataFrame) (conn conn1 : connection) :
  create_facts_table conn = (conn1, [CreatingFactsTable; CreatedFactsTable; Done]) ->
  referenced "DIM_LOCAL" (store conn1) = true /\
  write_dimensions hash data conn1 DIMENSION_TABLES_CONFIG = None.
Proof.
  intros C. pose proof (built_schema_references conn conn1 C) as R.
  split; [exact R|].
  assert (E : exists c rest,
             DIMENSION_TABLES_CONFIG = ("DIM_LOCAL"%string, c) :: rest)
    by (vm_compute; eauto).
  destruct E as (c & rest & ->). cbn [write_dimensions].
  now rewrite write_dimension_referenced.
Qed.

Lemma X6_witness :
  create_facts_table (dimensions_written sample_census)
  = (fst (create_facts_table (dimensions_written sample_census)),
     [CreatingFactsTable; CreatedFactsTable; Done]) /\
  referenced "DIM_LOCAL"
    (store (fst (create_facts_table (dimensions_written sample_census)))) = true /\
  write_dimensions sample_hash sample_census
    (fst (create_facts_table (dimensions_written sample_census)))
    DIMENSION_TABLES_CONFIG = None.
Proof.
  split; [vm_compute; reflexivity|].
  apply (X6_dimension_loop_refused_after_build sample_hash sample_census
           (dimensions_written sample_census)).
  vm_compute. reflexivity.
Defined.

(** X7.  When the store has no fact table at load time (the schema build
    was skipped, or failed and was caught), the load still succeeds: the
    writer creates the table from the frame, so the fact table has the
    columns of [FACT_TABLE_ALL_COLUMNS_ORDERED] only: no [id] column, no
    primary key, no foreign key. *)
Theorem X7_load_creates_missing_fact_table (hash : Row -> nat)
  (data : DataFrame) (db : database) :
  well_formed data = true ->
  has_columns FACT_COLUMNS data = true ->
  forallb (frame_stored hash data db) DIMENSION_TABLES_CONFIG = true ->
  dict_get FACT_TABLE_NAME db = None ->
  referenced FACT_TABLE_NAME db = false ->
  exists t,
    load_fact_table db data = Some (dict_set FACT_TABLE_NAME t db) /\
    table_columns t = FACT_TABLE_ALL_COLUMNS_ORDERED /\
    tb_rows t = map (resolved_row db DIMENSION_ID_CONFIG FACT_COLUMNS data)
                    (rows data) /\
    tb_primary_key t = None /\
    tb_foreign_keys t = [] /\
    tb_serial t = None.
Proof.
  intros W M S G Rf. apply frames_stored in S.
  destruct (resolved_facts_spec hash data db W M S)
    as (facts_data & out & R & O & C & Rows).
  unfold load_fact_table, load_facts. rewrite R, O.
  unfold write_jdbc_append. rewrite G. unfold write_jdbc_overwrite.
  assert (FD : first_duplicate (columns out) = None).
  { apply first_duplicate_None. rewrite C. exact ordered_columns_distinct. }
  rewrite FD, Rf. eexists. split; [reflexivity|].
  cbn [tb_rows tb_primary_key tb_foreign_keys tb_serial]. tauto.
Qed.

Lemma X7_witness :
  well_formed sample_census = true /\
  has_columns FACT_COLUMNS sample_census = true /\
  forallb (frame_stored sample_hash sample_census
             (store (dimensions_written sample_census)))
          DIMENSION_TABLES_CONFIG = true /\
  dict_get FACT_TABLE_NAME (store (dimensions_written sample_census)) = None /\
  referenced FACT_TABLE_NAME (store (dimensions_written sample_census)) = false /\
  exists t,
    load_fact_table (store (dimensions_written sample_census)) sample_census
    = Some (dict_set FACT_TABLE_NAME t (store (dimensions_written sample_census))) /\
    table_columns t = FACT_TABLE_ALL_COLUMNS_ORDERED /\
    tb_rows t
    = map (resolved_row (store (dimensions_written sample_census))
                        DIMENSION_ID_CONFIG FACT_COLUMNS sample_census)
          (rows sample_census) /\
    tb_primary_key t = None /\
    tb_foreign_keys t = [] /\
    tb_serial t = None.
Proof.
  split; [vm_compute; reflexivity|]. split; [vm_compute; reflexivity|].
  split; [vm_compute; reflexivity|]. split; [vm_compute; reflexivity|].
  split; [vm_compute; reflexivity|].
  apply (X7_load_creates_missing_fact_table sample_hash sample_census
           (store (dimensions_written sample_census)));
    vm_compute; reflexivity.
Defined.

(** ** What keys resolve to *)

(** X8.  A row with a null in the natural key of a dimension gets a null
    foreign key for that dimension, although the dimension table holds a
    row for that very key, with an id: the dimension loop keeps nulls
    ([distinct] treats null as a value), the join never matches them. *)
Theorem X8_null_key_is_never_resolved (hash : Row -> nat) (data : DataFrame)
  (db : database) (j i : nat) (d : Row) (name : string) (c : table_config) :
  well_formed data = true ->
  has_columns FACT_COLUMNS data = true ->
  forallb (frame_stored hash data db) DIMENSION_TABLES_CONFIG = true ->
  nth_error (rows data) j = Some d ->
  nth_error DIMENSION_TABLES_CONFIG i = Some (name, c) ->
  value_mem VNull (natural_key (field_names c) data d) = true ->
  exists out row id,
    resolved_facts db data = Some out /\
    nth_error (rows out) j = Some row /\
    nth_error row (List.length FACT_COLUMNS + i) = Some VNull /\
    In (cast_key (declared_types c) (natural_key (field_names c) data d)
        ++ [VLong id]) (table_rows db name).
Proof.
  intros W M S Hj Hi N. apply frames_stored in S. apply value_mem_In in N.
  destruct (resolved_facts_spec hash data db W M S)
    as (facts_data & out & R & O & _ & Rows).
  pose proof (nth_error_In _ _ Hj) as Id.
  pose proof (nth_error_In _ _ Hi) as Ic.
  destruct (stored_row_exists _ _ _ _ _ _ d S Ic (registry_no_id _ _ Ic) Id)
    as (idxs & id & E & _ & Ip).
  rewrite cast_row_key, (natural_key_pick _ _ _ _ E) in Ip.
  exists out, (resolved_row db DIMENSION_ID_CONFIG FACT_COLUMNS data d), id.
  split; [unfold resolved_facts; now rewrite R|]. split.
  - now rewrite Rows, nth_error_map, Hj.
  - split; [|exact Ip].
    rewrite (resolved_row_key db data d i name _ (registry_entry_position _ _ _ Hi)).
    f_equal. now apply null_key_unresolved.
Qed.

Lemma X8_witness :
  well_formed sample_census = true /\
  has_columns FACT_COLUMNS sample_census = true /\
  forallb (frame_stored sample_hash sample_census (prepared_store sample_census))
          DIMENSION_TABLES_CONFIG = true /\
  nth_error (rows sample_census) 1
  = Some (census_row "Acre" "AC" 12 "Rio Branco" 1200401 VNull 50) /\
  nth_error DIMENSION_TABLES_CONFIG 1
  = Some ("DIM_TP_DEPENDENCIA"%string, dependencia_config) /\
  value_mem VNull
    (natural_key (field_names dependencia_config) sample_census
       (census_row "Acre" "AC" 12 "Rio Branco" 1200401 VNull 50)) = true /\
  exists out row id,
    resolved_facts (prepared_store sample_census) sample_census = Some out /\
    nth_error (rows out) 1 = Some row /\
    nth_error row (List.length FACT_COLUMNS + 1) = Some VNull /\
    In (cast_key (declared_types dependencia_config)
          (natural_key (field_names dependencia_config) sample_census
             (census_row "Acre" "AC" 12 "Rio Branco" 1200401 VNull 50))
        ++ [VLong id])
       (table_rows (prepared_store sample_census) "DIM_TP_DEPENDENCIA").
Proof.
  split; [vm_compute; reflexivity|]. split; [vm_compute; reflexivity|].
  split; [vm_compute; reflexivity|]. split; [vm_compute; reflexivity|].
  split; [vm_compute; reflexivity|]. split; [vm_compute; reflexivity|].
  apply (X8_null_key_is_never_resolved sample_hash sample_census
           (prepared_store sample_census) 1 1
           (census_row "Acre" "AC" 12 "Rio Branco" 1200401 VNull 50)
           "DIM_TP_DEPENDENCIA" dependencia_config);
    vm_compute; reflexivity.
Defined.

(** X9.  A row whose natural key for a dimension consists of values that
    match their own casts is resolved: its foreign key is the id of the
    row of the dimension table that holds the row's cast key.  The types
    on the two sides may differ: the location codes are integers in the
    dataset and text in [DIM_LOCAL], and still match. *)
Theorem X9_castable_key_resolves_to_its_row (hash : Row -> nat)
  (data : DataFrame) (db : database) (j i : nat) (d : Row) (name : string)
  (c : table_config) :
  well_formed data = true ->
  has_columns FACT_COLUMNS data = true ->
  forallb (frame_stored hash data db) DIMENSION_TABLES_CONFIG = true ->
  nth_error (rows data) j = Some d ->
  nth_error DIMENSION_TABLES_CONFIG i = Some (name, c) ->
  key_castable (declared_types c) (natural_key (field_names c) data d) = true ->
  exists out row id,
    resolved_facts db data = Some out /\
    nth_error (rows out) j = Some row /\
    nth_error row (List.length FACT_COLUMNS + i) = Some (VLong id) /\
    In (cast_key (declared_types c) (natural_key (field_names c) data d)
        ++ [VLong id]) (table_rows db name).
Proof.
  intros W M S Hj Hi K. apply frames_stored in S.
  destruct (resolved_facts_spec hash data db W M S)
    as (facts_data & out & R & O & _ & Rows).
  pose proof (nth_error_In _ _ Hj) as Id.
  pose proof (nth_error_In _ _ Hi) as Ic.
  destruct (castable_key_resolves hash _ data db name c d W S Ic
              (registry_no_id _ _ Ic) Id K) as (id & Ip & Sk).
  exists out, (resolved_row db DIMENSION_ID_CONFIG FACT_COLUMNS data d), id.
  split; [unfold resolved_facts; now rewrite R|]. split.
  - now rewrite Rows, nth_error_map, Hj.
  - split; [|exact Ip].
    rewrite (resolved_row_key db data d i name _ (registry_entry_position _ _ _ Hi)).
    now rewrite Sk.
Qed.

Lemma X9_witness :
  well_formed sample_census = true /\
  has_columns FACT_COLUMNS sample_census = true /\
  forallb (frame_stored sample_hash sample_census (prepared_store sample_census))
          DIMENSION_TABLES_CONFIG = true /\
  nth_error (rows sample_census) 2
  = Some (census_row "Bahia" "BA" 29 "Antas" 2901601 (VInt 2) 7) /\
  nth_error DIMENSION_TABLES_CONFIG 0
  = Some ("DIM_LOCAL"%string, local_config) /\
  key_castable
    (declared_types local_config)
    (natural_key
       (field_names local_config)
       sample_census
       (census_row "Bahia" "BA" 29 "Antas" 2901601 (VInt 2) 7)) = true /\
  exists out row id,
    resolved_facts (prepared_store sample_census) sample_census = Some out /\
    nth_error (rows out) 2 = Some row /\
    nth_error row (List.length FACT_COLUMNS + 0) = Some (VLong id) /\
    In (cast_key
          (declared_types local_config)
          (natural_key
             (field_names local_config)
             sample_census
             (census_row "Bahia" "BA" 29 "Antas" 2901601 (VInt 2) 7))
        ++ [VLong id])
       (table_rows (prepared_store sample_census) "DIM_LOCAL").
Proof.
  split; [vm_compute; reflexivity|]. split; [vm_compute; reflexivity|].
  split; [vm_compute; reflexivity|]. split; [vm_compute; reflexivity|].
  split; [vm_compute; reflexivity|]. split; [vm_compute; reflexivity|].
  apply (X9_castable_key_resolves_to_its_row sample_hash sample_census
           (prepared_store sample_census) 2 0
           (census_row "Bahia" "BA" 29 "Antas" 2901601 (VInt 2) 7)
           "DIM_LOCAL"
           local_config);
    vm_compute; reflexivity.
Defined.

(** The location key of the sample's third row, as the dataset has it and
    as [DIM_LOCAL] stores it. *)
Example sample_location_key :
  natural_key ["CO_UF"; "CO_MUNICIPIO"]%string sample_census
    (census_row "Bahia" "BA" 29 "Antas" 2901601 (VInt 2) 7)
  = [VInt 29; VInt 2901601] /\
  cast_key [StringType; StringType] [VInt 29; VInt 2901601]
  = [VStr "29"; VStr "2901601"] /\
  key_castable [StringType; StringType] [VInt 29; VInt 2901601] = true.
Proof. vm_compute. repeat split. Qed.

(** X10.  The uncast side of the join against the cast side.  A value of
    the dataset is paired by the join's comparison with its own cast to a
    declared type unless the cast loses it: the cast yields null (a null,
    or a text that is not a number of the target's range), or it narrows a
    64-bit integer that does not fit 32 bits. *)
Theorem X10_value_matches_own_cast_unless_lost (t : dtype) (v : value) :
  in_range v = true ->
  matches_own_cast t v = true <->
  cast t v <> VNull /\
  forall z, v = VLong z -> t = IntegerType -> in_int32 z = true.
Proof.
  intros R. unfold matches_own_cast.
  destruct v as [|z|z|s]; cbn [in_range] in R.
  - cbn [cast]. split; [discriminate | intros [H _]; congruence].
  - destruct t; cbn [cast].
    + unfold join_eq. cbn [type_of common_type cast]. rewrite value_eqb_refl.
      split; [|reflexivity]. intros _. split; [discriminate|]. discriminate.
    + unfold join_eq. cbn [type_of common_type cast]. rewrite value_eqb_refl.
      split; [|reflexivity]. intros _. split; [discriminate|]. discriminate.
    + unfold join_eq. cbn [type_of common_type cast].
      rewrite (parse_bounded_show in_int32 z (in_int32_int64 z R) R).
      rewrite value_eqb_refl.
      split; [|reflexivity]. intros _. split; [discriminate|]. discriminate.
  - destruct t; cbn [cast].
    + unfold join_eq. cbn [type_of common_type cast]. split.
      * intros E. apply value_eqb_eq in E. injection E as E.
        split; [discriminate|]. intros z0 [= <-] _. apply wrap32_fixed. congruence.
      * intros [_ H]. specialize (H z eq_refl eq_refl).
        apply wrap32_fixed in H. rewrite H. apply value_eqb_refl.
    + unfold join_eq. cbn [type_of common_type cast]. rewrite value_eqb_refl.
      split; [|reflexivity]. intros _. split; discriminate.
    + unfold join_eq. cbn [type_of common_type cast].
      rewrite (parse_bounded_show in_int64 z R R), value_eqb_refl.
      split; [|reflexivity]. intros _. split; discriminate.
  - destruct t; cbn [cast].
    + destruct (parse_bounded in_int32 s) as [n|] eqn:P.
      * unfold join_eq. cbn [type_of common_type cast]. rewrite P, value_eqb_refl.
        split; [|reflexivity]. intros _. split; discriminate.
      * rewrite join_eq_null_r. split; [discriminate | intros [H _]; congruence].
    + destruct (parse_bounded in_int64 s) as [n|] eqn:P.
      * unfold join_eq. cbn [type_of common_type cast]. rewrite P, value_eqb_refl.
        split; [|reflexivity]. intros _. split; discriminate.
      * rewrite join_eq_null_r. split; [discriminate | intros [H _]; congruence].
    + unfold join_eq. cbn [type_of common_type cast]. rewrite value_eqb_refl.
      split; [|reflexivity]. intros _. split; discriminate.
Qed.

Lemma X10_witness :
  in_range (VLong 4294967297) = true /\
  (matches_own_cast IntegerType (VLong 4294967297) = true <->
   cast IntegerType (VLong 4294967297) <> VNull /\
   forall z, VLong 4294967297 = VLong z -> IntegerType = IntegerType ->
             in_int32 z = true).
Proof.
  split; [vm_compute; reflexivity|].
  apply (X10_value_matches_own_cast_unless_lost IntegerType (VLong 4294967297)).
  vm_compute. reflexivity.
Defined.

(** The values that match their own cast to [integer], and those that do
    not. *)
Example own_casts_to_integer :
  map (matches_own_cast IntegerType)
      [VInt 7; VLong 7; VStr "7"; VStr " 7.9 "; VLong 4294967297; VStr "seven"; VNull]
  = [true; true; true; true; false; false; false].
Proof. vm_compute. reflexivity. Qed.

(** ** Configuration *)

(** X11.  When the names of the hand-written dimensions and the names
    derived from the flag columns ("DIM_" and the upper-cased column) are
    pairwise different, the registry is the hand-written dimensions
    followed by one single-field integer dimension per flag column, in the
    order written; this is the order of the dimension loop, of the join
    loop and of the foreign-key columns. *)
Theorem X11_registry_keeps_declaration_order
  (hand_written : list (string * table_config)) (flags : list string) :
  distinct_names (map fst hand_written
                  ++ map (fun dimension => "DIM_" ++ upper dimension)%string flags)
  = true ->
  build_dimension_config hand_written flags
  = hand_written ++ map integer_dimension flags /\
  keys (dimension_id_config (build_dimension_config hand_written flags))
  = map fst hand_written
    ++ map (fun dimension => "DIM_" ++ upper dimension)%string flags.
Proof.
  intros N. apply distinct_names_NoDup in N.
  assert (F : map fst (map integer_dimension flags)
              = map (fun dimension => "DIM_" ++ upper dimension)%string flags).
  { rewrite map_map. reflexivity. }
  assert (B : build_dimension_config hand_written flags
              = hand_written ++ map integer_dimension flags).
  { unfold build_dimension_config.
    destruct (NoDup_app_inv _ _ N) as (N1 & N2 & _).
    rewrite (dict_of_items_fresh hand_written) by exact N1.
    rewrite (dict_of_items_fresh (map integer_dimension flags))
      by (rewrite F; exact N2).
    apply dict_update_fresh. unfold keys. now rewrite F. }
  split; [exact B|]. rewrite B. unfold dimension_id_config.
  assert (E : map fst
                (map (fun entry : string * table_config =>
                        (fst entry, map field (fields (snd entry))))
                     (hand_written ++ map integer_dimension flags))
              = map fst hand_written
                ++ map (fun dimension => "DIM_" ++ upper dimension)%string flags).
  { rewrite map_map, map_app, map_map. reflexivity. }
  rewrite dict_of_items_fresh by (rewrite E; exact N).
  unfold keys. exact E.
Qed.

Lemma X11_witness :
  distinct_names (map fst HAND_WRITTEN_DIMENSIONS
                  ++ map (fun dimension => "DIM_" ++ upper dimension)%string
                         INTEGER_DIMENSIONS) = true /\
  build_dimension_config HAND_WRITTEN_DIMENSIONS INTEGER_DIMENSIONS
  = HAND_WRITTEN_DIMENSIONS ++ map integer_dimension INTEGER_DIMENSIONS /\
  keys (dimension_id_config
          (build_dimension_config HAND_WRITTEN_DIMENSIONS INTEGER_DIMENSIONS))
  = map fst HAND_WRITTEN_DIMENSIONS
    ++ map (fun dimension => "DIM_" ++ upper dimension)%string INTEGER_DIMENSIONS.
Proof.
  split; [vm_compute; reflexivity|].
  apply (X11_registry_keeps_declaration_order HAND_WRITTEN_DIMENSIONS
           INTEGER_DIMENSIONS).
  vm_compute. reflexivity.
Defined.

(** ** The schema build at its edges *)

(** X12.  With an empty registry the generated text has no action after
    [ALTER TABLE]: whatever the table name and the fact columns, the build
    fails with a syntax error before any statement runs, the error is
    printed, and the store is left as it was, without a fact table having
    been created. *)
Theorem X12_build_without_dimensions_fails (table : string)
  (fact_columns : list string) (conn : connection) :
  txn conn <> Failed ->
  join_str comma_break_line (fact_constraint_lines table []) = ""%string /\
  create_facts_table_with (facts_table_script table fact_columns []) conn
  = ({| store := store conn; txn := Idle |},
     [CreatingFactsTable; PrintedError SyntaxError]).
Proof.
  intros NF. split; [reflexivity|].
  unfold create_facts_table_with, execute.
  destruct (txn conn); [reflexivity | reflexivity | congruence].
Qed.

Lemma X12_witness :
  txn fresh_connection <> Failed /\
  join_str comma_break_line (fact_constraint_lines FACT_TABLE_NAME []) = ""%string /\
  create_facts_table_with (facts_table_script FACT_TABLE_NAME FACT_COLUMNS [])
                          fresh_connection
  = ({| store := store fresh_connection; txn := Idle |},
     [CreatingFactsTable; PrintedError SyntaxError]).
Proof.
  split; [discriminate|].
  apply (X12_build_without_dimensions_fails FACT_TABLE_NAME FACT_COLUMNS
           fresh_connection).
  discriminate.
Defined.

(** ** The views and the queries *)

(** X13.  The registration cell succeeds exactly when the store holds the
    fact table and every dimension table.  The views it then leaves are
    the fact table under its name and each dimension table under its own,
    with [id] renamed to [ID_] and the table's name; views of other names
    are left as they were. *)
Theorem X13_views_mirror_the_store (db : database) (views : catalog) :
  match register_views db views with
  | Some views' =>
      tables_exist db = true /\
      dict_get "FACT_CENSO_ESCOLAR" views'
      = Some (table_frame db "FACT_CENSO_ESCOLAR") /\
      (forall name,
         In name (keys DIMENSION_ID_CONFIG) ->
         dict_get name views'
         = Some (with_column_renamed "id" (fk_column_name name)
                   (table_frame db name))) /\
      (forall other,
         ~ In other ("FACT_CENSO_ESCOLAR"%string :: keys DIMENSION_ID_CONFIG) ->
         dict_get other views' = dict_get other views)
  | None => tables_exist db = false
  end.
Proof.
  unfold register_views, tables_exist. rewrite read_jdbc_table_frame.
  assert (N : NoDup (keys DIMENSION_ID_CONFIG)).
  { rewrite id_config_keys. exact registry_keys_distinct. }
  assert (Nf : ~ In "FACT_CENSO_ESCOLAR"%string (keys DIMENSION_ID_CONFIG)).
  { rewrite id_config_keys. exact fact_table_is_no_dimension. }
  cbn [forallb].
  destruct (dict_get "FACT_CENSO_ESCOLAR" db) as [t|] eqn:G; [|reflexivity].
  pose proof (register_dimension_views_spec db DIMENSION_ID_CONFIG
                (create_or_replace_temp_view "FACT_CENSO_ESCOLAR"
                   (table_frame db "FACT_CENSO_ESCOLAR") views) N) as H.
  destruct (register_dimension_views db DIMENSION_ID_CONFIG _) as [views'|].
  - destruct H as (A & O). split; [|split; [|split]].
    + cbn [andb]. apply forallb_forall. intros name I.
      destruct (A name I) as [E _]. now destruct (dict_get name db).
    + rewrite O by exact Nf. apply dict_get_set_same.
    + intros name I. now destruct (A name I).
    + intros other No. cbn [In] in No. rewrite O by tauto.
      apply dict_get_set_other. intros ->. tauto.
  - destruct H as (name & I & E). cbn [andb].
    destruct (forallb _ (keys DIMENSION_ID_CONFIG)) eqn:F; [|reflexivity].
    rewrite forallb_forall in F. specialize (F name I). now rewrite E in F.
Qed.

(** The views of the sample: the fact table first, then the dimensions in
    the order of the registry; the columns of the location's view. *)
Example sample_views :
  keys (registered_views olap_census)
  = "FACT_CENSO_ESCOLAR"%string :: keys DIMENSION_TABLES_CONFIG /\
  columns (view "DIM_LOCAL" (registered_views olap_census))
  = [ "NO_UF"; "SG_UF"; "CO_UF"; "NO_MUNICIPIO"; "CO_MUNICIPIO";
      "ID_DIM_LOCAL" ]%string.
Proof. vm_compute. split; reflexivity. Qed.

(** X14.  A query never counts the facts that have a null in the column
    its join is on: taking those rows out of the view changes no result.
    The facts whose key the join loop left unresolved are therefore
    missing from every total. *)
Theorem X14_facts_without_reference_are_left_out (views : catalog) (q : query)
  (facts : DataFrame) :
  fst (fst (q_on q)) = q_from q ->
  String.eqb (q_from q) (q_join q) = false ->
  dict_get (q_from q) views = Some facts ->
  well_formed facts = true ->
  spark_sql (create_or_replace_temp_view (q_from q)
               (where_not_null (snd (fst (q_on q))) facts) views) q
  = spark_sql views q.
Proof.
  intros Hf Ne G W. unfold spark_sql, create_or_replace_temp_view.
  rewrite dict_get_set_same, G.
  rewrite dict_get_set_other
    by (intros E; rewrite E, String.eqb_refl in Ne; discriminate).
  destruct (dict_get (q_join q) views) as [dimension|]; [|reflexivity].
  cbv zeta.
  change (columns (where_not_null (snd (fst (q_on q))) facts))
    with (columns facts).
  destruct (qualified (q_from q) (q_join q) (columns facts) (columns dimension)
                      (fst (q_on q))) as [i|] eqn:Q; [|reflexivity].
  assert (R : resolve_column (snd (fst (q_on q))) (columns facts) = Some i).
  { unfold qualified in Q. rewrite Hf, String.eqb_refl, Ne in Q. exact Q. }
  destruct (qualified _ _ _ _ (snd (q_on q))) as [j|]; [|reflexivity].
  now rewrite (inner_join_not_null facts dimension _ i j W R).
Qed.

Lemma X14_witness :
  fst (fst (q_on teachers_by_state)) = q_from teachers_by_state /\
  String.eqb (q_from teachers_by_state) (q_join teachers_by_state) = false /\
  dict_get (q_from teachers_by_state) (registered_views olap_census)
  = Some (view "FACT_CENSO_ESCOLAR" (registered_views olap_census)) /\
  well_formed (view "FACT_CENSO_ESCOLAR" (registered_views olap_census)) = true /\
  spark_sql (create_or_replace_temp_view (q_from teachers_by_state)
               (where_not_null (snd (fst (q_on teachers_by_state)))
                  (view "FACT_CENSO_ESCOLAR" (registered_views olap_census)))
               (registered_views olap_census))
            teachers_by_state
  = spark_sql (registered_views olap_census) teachers_by_state.
Proof.
  split; [reflexivity|]. split; [reflexivity|].
  split; [vm_compute; reflexivity|]. split; [vm_compute; reflexivity|].
  apply (X14_facts_without_reference_are_left_out (registered_views olap_census)
           teachers_by_state
           (view "FACT_CENSO_ESCOLAR" (registered_views olap_census)));
    vm_compute; reflexivity.
Defined.

(** The sample: the thousand teachers of the school without city are in
    no state's total. *)
Example sample_teachers_by_state :
  sum (map (column "QT_DOC_BAS" olap_census) (rows olap_census)) = VLong 1176 /\
  rows (result olap_census teachers_by_state)
  = [ [VStr "Acre"; VLong 158]; [VStr "Bahia"; VLong 18] ].
Proof. vm_compute. split; reflexivity. Qed.

(** X15.  The rows of a result come in the order of the [ORDER BY]
    columns (ascending, nulls first, text by its bytes), and when the
    selected columns are the grouping columns no two rows agree on them:
    there is one row per group. *)
Theorem X15_result_is_sorted_one_row_per_group (views : catalog) (q : query)
  (out : DataFrame) :
  names_eqb (q_select q) (q_group_by q) = true ->
  distinct_names (q_group_by q) = true ->
  spark_sql views q = Some out ->
  exists by_columns,
    traverse (fun c => resolve_column c (q_select q ++ [q_alias q]))
             (q_order_by q) = Some by_columns /\
    StronglySorted (before by_columns) (rows out) /\
    NoDup (map (firstn (List.length (q_select q))) (rows out)).
Proof.
  intros E N S. apply names_eqb_eq in E. apply distinct_names_NoDup in N.
  destruct (spark_sql_Some _ _ _ S)
    as (from_view & join_view & i & j & conditions & group & selected & measure
        & by_columns & _ & _ & _ & _ & _ & E6 & E7 & _ & E9 & _ & ->).
  exists by_columns. split; [exact E9|]. cbn [rows]. split.
  - apply order_by_sorted.
  - rewrite E, traverse_find_index_all in E7 by exact N. injection E7 as <-.
    rewrite E.
    apply (Permutation_NoDup
             (Permutation_sym
                (Permutation_map _ (order_by_perm by_columns _)))).
    set (selected := seq 0 (List.length (q_group_by q))).
    replace (List.length (q_group_by q)) with (List.length selected)
      by (subst selected; apply length_seq).
    rewrite aggregate_keys. subst selected.
    rewrite <- (traverse_length _ _ _ E6), pick_all_keys.
    apply NoDup_nodup.
Qed.

Lemma X15_witness :
  names_eqb (q_select teachers_by_state_and_city)
            (q_group_by teachers_by_state_and_city) = true /\
  distinct_names (q_group_by teachers_by_state_and_city) = true /\
  spark_sql (registered_views olap_census) teachers_by_state_and_city
  = Some (result olap_census teachers_by_state_and_city) /\
  exists by_columns,
    traverse (fun c => resolve_column c
                         (q_select teachers_by_state_and_city
                          ++ [q_alias teachers_by_state_and_city]))
             (q_order_by teachers_by_state_and_city) = Some by_columns /\
    StronglySorted (before by_columns)
                   (rows (result olap_census teachers_by_state_and_city)) /\
    NoDup (map (firstn (List.length (q_select teachers_by_state_and_city)))
               (rows (result olap_census teachers_by_state_and_city))).
Proof.
  split; [reflexivity|]. split; [reflexivity|].
  split; [vm_compute; reflexivity|].
  apply (X15_result_is_sorted_one_row_per_group (registered_views olap_census)
           teachers_by_state_and_city
           (result olap_census teachers_by_state_and_city));
    vm_compute; reflexivity.
Defined.

(** The order is that of the bytes of the text: an accented letter comes
    after every unaccented one, as in the notebook's output, where
    Parana precedes Paraiba, which precedes Para (each with its acute
    accent). *)
Example accents_sort_last :
  value_compare (VStr ("Paran" ++ a_acute)) (VStr ("Para" ++ i_acute ++ "ba")) = Lt /\
  value_compare (VStr ("Para" ++ i_acute ++ "ba")) (VStr ("Par" ++ a_acute)) = Lt /\
  value_compare VNull (VStr "Acre") = Lt.
Proof. vm_compute. repeat split. Qed.

(** X16.  The slice law.  Adding a condition [t.c = 'literal'] on a
    selected column to the [WHERE] clause of a query gives the rows of the
    unrestricted result that satisfy the condition, each with its total
    unchanged: slicing and dicing never change a total, they only drop
    rows.  This holds for whatever order Spark gives to the rows that tie
    on the [ORDER BY] columns: the sliced result has the same rows as the
    filtered whole, and the filtered whole, in its order, is itself a
    result of the sliced query. *)
Theorem X16_slice_keeps_rows_of_the_whole (views : catalog) (q : query)
  (condition : (string * string) * string) (p : nat) (out sliced : DataFrame) :
  find_index (snd (fst condition)) (q_select q) = Some p ->
  answers views q out ->
  answers views (and_where condition q) sliced ->
  schema sliced = schema out /\
  Permutation (rows sliced) (rows (having p (snd condition) out)) /\
  answers views (and_where condition q) (having p (snd condition) out).
Proof.
  intros F (listed & by_columns & S & O & Sc & P & St)
         (listed' & by_columns' & S' & O' & Sc' & P' & St').
  destruct (slice_law views q condition p listed' F S')
    as (out0 & S0 & Sc0 & R0).
  rewrite S in S0. injection S0 as <-.
  assert (Pf : Permutation
                 (filter (fun r => join_eq (nth p r VNull) (VStr (snd condition)))
                         (rows out))
                 (rows listed')).
  { rewrite R0. apply filter_perm. exact P. }
  split; [congruence|]. split.
  - cbn [having rows]. rewrite P'. symmetry. exact Pf.
  - exists listed', by_columns. split; [exact S'|].
    split; [exact O|]. split; [cbn [having schema]; congruence|].
    split; [exact Pf|]. cbn [having rows].
    apply StronglySorted_filter. exact St.
Qed.

Lemma X16_witness :
  find_index (snd (fst (("DIM_LOCAL", "NO_UF"), "Bahia")%string))
             (q_select teachers_by_city) = Some 1 /\
  answers (registered_views olap_census) teachers_by_city
          teachers_by_city_listed /\
  answers (registered_views olap_census)
          (and_where (("DIM_LOCAL", "NO_UF"), "Bahia")%string teachers_by_city)
          (result olap_census teachers_by_city_of_bahia) /\
  schema (result olap_census teachers_by_city_of_bahia)
  = schema teachers_by_city_listed /\
  Permutation (rows (result olap_census teachers_by_city_of_bahia))
              (rows (having 1 (snd (("DIM_LOCAL", "NO_UF"), "Bahia")%string)
                            teachers_by_city_listed)) /\
  answers (registered_views olap_census)
          (and_where (("DIM_LOCAL", "NO_UF"), "Bahia")%string teachers_by_city)
          (having 1 (snd (("DIM_LOCAL", "NO_UF"), "Bahia")%string)
                  teachers_by_city_listed).
Proof.
  assert (A : answers (registered_views olap_census) teachers_by_city
                      teachers_by_city_listed).
  { exists (result olap_census teachers_by_city), [0].
    split; [vm_compute; reflexivity|]. split; [vm_compute; reflexivity|].
    split; [reflexivity|]. split.
    - vm_compute. apply perm_skip. apply perm_swap.
    - unfold teachers_by_city_listed. cbn [rows].
      repeat first [ apply SSorted_nil
                   | apply SSorted_cons
                   | apply Forall_nil
                   | apply Forall_cons; [vm_compute; reflexivity|] ]. }
  assert (B : answers (registered_views olap_census)
                (and_where (("DIM_LOCAL", "NO_UF"), "Bahia")%string teachers_by_city)
                (result olap_census teachers_by_city_of_bahia)).
  { apply spark_sql_answers. vm_compute. reflexivity. }
  split; [reflexivity|]. split; [exact A|]. split; [exact B|].
  exact (X16_slice_keeps_rows_of_the_whole (registered_views olap_census)
           teachers_by_city (("DIM_LOCAL", "NO_UF"), "Bahia")%string 1
           teachers_by_city_listed
           (result olap_census teachers_by_city_of_bahia)
           eq_refl A B).
Defined.

(** The notebook's slice and dice are such restrictions, of the query by
    city and of the slice. *)
Example slice_and_dice :
  teachers_by_city_of_bahia
  = and_where (("DIM_LOCAL", "NO_UF"), "Bahia")%string teachers_by_city /\
  teachers_of_antas_in_bahia
  = and_where (("DIM_LOCAL", "NO_MUNICIPIO"), "Antas")%string
              teachers_by_city_of_bahia /\
  rows (result olap_census teachers_by_city)
  = [ [VStr "Antas"; VStr "Bahia"; VLong 7];
      [VStr "Bonito"; VStr "Bahia"; VLong 11];
      [VStr "Bonito"; VStr "Acre"; VLong 3];
      [VStr "Bujari"; VStr "Acre"; VLong 5];
      [VStr "Rio Branco"; VStr "Acre"; VLong 150] ] /\
  rows (result olap_census teachers_by_city_of_bahia)
  = [ [VStr "Antas"; VStr "Bahia"; VLong 7];
      [VStr "Bonito"; VStr "Bahia"; VLong 11] ] /\
  rows (result olap_census teachers_of_antas_in_bahia)
  = [ [VStr "Antas"; VStr "Bahia"; VLong 7] ].
Proof. vm_compute. repeat split. Qed.

(** X17.  Whatever the grouping, the totals of a query without [WHERE]
    clause over the two views joined on a key column add up to the sum of
    the measure over the facts that have a key, provided every key is the
    key of exactly one row of the dimension's view: no fact is counted
    twice and none with a key is lost, so drilling down and rolling up
    keep the grand total. *)
Theorem X17_totals_add_up (views : catalog) (q : query) (name : string)
  (facts dimension out : DataFrame) :
  q_on q = ((q_from q, name), (q_join q, name)) ->
  String.eqb (q_from q) (q_join q) = false ->
  q_where q = [] ->
  dict_get (q_from q) views = Some facts ->
  dict_get (q_join q) views = Some dimension ->
  well_formed facts = true ->
  has_columns [q_sum q] facts = true ->
  references_resolved name facts dimension = true ->
  spark_sql views q = Some out ->
  sum (map (fun r => nth (List.length (q_select q)) r VNull) (rows out))
  = sum (map (column (q_sum q) facts) (rows (where_not_null name facts))).
Proof.
  intros On Ne Wh Gf Gd W Hs Ref S.
  destruct (spark_sql_Some _ _ _ S)
    as (from_view & join_view & i & j & conditions & group & selected & measure
        & by_columns & E1 & E2 & E3 & E4 & E5 & _ & E7 & E8 & _ & _ & ->).
  rewrite Gf in E1. injection E1 as <-. rewrite Gd in E2. injection E2 as <-.
  rewrite Wh in E5. cbn [traverse] in E5. injection E5 as <-.
  rewrite On in E3, E4. unfold qualified in E3, E4. cbn [fst snd] in E3, E4.
  rewrite String.eqb_refl, Ne in E3.
  rewrite (String.eqb_sym (q_join q)), Ne, String.eqb_refl in E4.
  destruct (resolve_column name (columns dimension)) as [j0|] eqn:Rj;
    [|discriminate].
  cbn [option_map] in E4. injection E4 as <-.
  unfold has_columns in Hs. cbn [forallb] in Hs.
  destruct (resolve_column (q_sum q) (columns facts)) as [s|] eqn:Rs;
    [|discriminate].
  pose proof (resolve_column_app_l _ _ _ _ _ Rs E8) as ->.
  destruct (resolve_column_Some _ _ _ Rs) as [Ls _].
  cbn [rows].
  rewrite (sum_perm _ _ (Permutation_map _ (order_by_perm by_columns _))).
  rewrite <- (traverse_length _ _ _ E7), aggregate_grand_total.
  rewrite (filter_every (where_holds [])) by reflexivity.
  rewrite (inner_join_measures facts dimension name i j0 s W E3 Rj Ls Ref).
  f_equal. apply map_ext. intros a. unfold column. now rewrite Rs.
Qed.

Lemma X17_witness :
  q_on teachers_by_state_and_city
  = ((q_from teachers_by_state_and_city, "ID_DIM_LOCAL"%string),
     (q_join teachers_by_state_and_city, "ID_DIM_LOCAL"%string)) /\
  String.eqb (q_from teachers_by_state_and_city)
             (q_join teachers_by_state_and_city) = false /\
  q_where teachers_by_state_and_city = [] /\
  dict_get (q_from teachers_by_state_and_city) (registered_views olap_census)
  = Some (view "FACT_CENSO_ESCOLAR" (registered_views olap_census)) /\
  dict_get (q_join teachers_by_state_and_city) (registered_views olap_census)
  = Some (view "DIM_LOCAL" (registered_views olap_census)) /\
  well_formed (view "FACT_CENSO_ESCOLAR" (registered_views olap_census)) = true /\
  has_columns [q_sum teachers_by_state_and_city]
              (view "FACT_CENSO_ESCOLAR" (registered_views olap_census)) = true /\
  references_resolved "ID_DIM_LOCAL"
    (view "FACT_CENSO_ESCOLAR" (registered_views olap_census))
    (view "DIM_LOCAL" (registered_views olap_census)) = true /\
  spark_sql (registered_views olap_census) teachers_by_state_and_city
  = Some (result olap_census teachers_by_state_and_city) /\
  sum (map (fun r => nth (List.length (q_select teachers_by_state_and_city)) r VNull)
           (rows (result olap_census teachers_by_state_and_city)))
  = sum (map (column (q_sum teachers_by_state_and_city)
                     (view "FACT_CENSO_ESCOLAR" (registered_views olap_census)))
             (rows (where_not_null "ID_DIM_LOCAL"
                      (view "FACT_CENSO_ESCOLAR" (registered_views olap_census))))).
Proof.
  split; [reflexivity|]. split; [reflexivity|]. split; [reflexivity|].
  split; [vm_compute; reflexivity|]. split; [vm_compute; reflexivity|].
  split; [vm_compute; reflexivity|]. split; [vm_compute; reflexivity|].
  split; [vm_compute; reflexivity|]. split; [vm_compute; reflexivity|].
  apply (X17_totals_add_up (registered_views olap_census)
           teachers_by_state_and_city "ID_DIM_LOCAL"
           (view "FACT_CENSO_ESCOLAR" (registered_views olap_census))
           (view "DIM_LOCAL" (registered_views olap_census))
           (result olap_census teachers_by_state_and_city));
    vm_compute; reflexivity.
Defined.

(** The grand total of the sample, by state and by state and city. *)
Example sample_grand_total :
  sum (map (fun r => nth 1 r VNull) (rows (result olap_census teachers_by_state)))
  = VLong 176 /\
  sum (map (fun r => nth 2 r VNull)
           (rows (result olap_census teachers_by_state_and_city)))
  = VLong 176.
Proof. vm_compute. split; reflexivity. Qed.

(** X18. Rolling up.  A query that selects, groups by and orders by the same
    columns can be rolled up to the first [n] of them in two ways that give
    the same rows: by asking the coarser query of the views, or by grouping
    the rows of the finer result on their first [n] columns, adding up their
    totals and sorting.  So the table by state is the table by state and city
    added up per state; the finer query loses nothing the coarser one needs. *)
Theorem X18_roll_up_is_the_sum_of_the_finer_result (views : catalog) (q : query)
    (n : nat) (fine : DataFrame) :
  names_eqb (q_select q) (q_group_by q) = true ->
  names_eqb (q_order_by q) (q_group_by q) = true ->
  distinct_names (q_group_by q ++ [q_alias q]) = true ->
  Nat.leb n (List.length (q_group_by q)) = true ->
  spark_sql views q = Some fine ->
  exists coarse,
    spark_sql views (roll_up n q) = Some coarse /\
    rows coarse
    = order_by (seq 0 n)
        (aggregate (seq 0 n) (seq 0 n) (List.length (q_group_by q)) (rows fine)).
Proof.
  intros Es Eo N L S.
  apply names_eqb_eq in Es. apply names_eqb_eq in Eo.
  apply distinct_names_NoDup in N. apply Nat.leb_le in L.
  exact (roll_up_law views q n fine Es Eo N L S).
Qed.

Lemma X18_witness :
  names_eqb (q_select teachers_by_state_and_city)
            (q_group_by teachers_by_state_and_city) = true /\
  names_eqb (q_order_by teachers_by_state_and_city)
            (q_group_by teachers_by_state_and_city) = true /\
  distinct_names (q_group_by teachers_by_state_and_city
                  ++ [q_alias teachers_by_state_and_city]) = true /\
  Nat.leb 1 (List.length (q_group_by teachers_by_state_and_city)) = true /\
  spark_sql (registered_views olap_census) teachers_by_state_and_city
  = Some (result olap_census teachers_by_state_and_city) /\
  exists coarse,
    spark_sql (registered_views olap_census)
              (roll_up 1 teachers_by_state_and_city) = Some coarse /\
    rows coarse
    = order_by (seq 0 1)
        (aggregate (seq 0 1) (seq 0 1)
           (List.length (q_group_by teachers_by_state_and_city))
           (rows (result olap_census teachers_by_state_and_city))).
Proof.
  split; [vm_compute; reflexivity|]. split; [vm_compute; reflexivity|].
  split; [vm_compute; reflexivity|]. split; [vm_compute; reflexivity|].
  split; [vm_compute; reflexivity|].
  apply (X18_roll_up_is_the_sum_of_the_finer_result
           (registered_views olap_census) teachers_by_state_and_city 1
           (result olap_census teachers_by_state_and_city));
    vm_compute; reflexivity.
Defined.

(** The notebook's query by state is the roll-up of its query by state and
    city; on the sample, the three cities of Acre add up to the state's row. *)
Example by_state_rolls_up_by_state_and_city :
  roll_up 1 teachers_by_state_and_city = teachers_by_state /\
  rows (result olap_census teachers_by_state_and_city)
  = [[VStr "Acre"; VStr "Bonito"; VLong 3];
     [VStr "Acre"; VStr "Bujari"; VLong 5];
     [VStr "Acre"; VStr "Rio Branco"; VLong 150];
     [VStr "Bahia"; VStr "Antas"; VLong 7];
     [VStr "Bahia"; VStr "Bonito"; VLong 11]] /\
  rows (result olap_census teachers_by_state)
  = [[VStr "Acre"; VLong 158]; [VStr "Bahia"; VLong 18]].
Proof. vm_compute. repeat split; reflexivity. Qed.
